(** * Purview collections client: hierarchy rendering and path creation

    A shallow embedding of [PurviewCollectionsClient] from
    [pyapacheatlas/core/collections/purview.py]:

    - [_get_final_collection_names] builds the directory, an insertion-ordered
      Python dict from collection id to friendly name, index and parent id;
    - [_hierarchy] builds an [anytree] tree from the directory and prints it;
    - [create_collectiions] and [create_collectiions2] resolve the starting
      collection, split each path on "/", and issue one HTTP PUT per
      collection they decide to create or update.

    Python strings are modelled by [string], a character being a code point
    below 256.  A Python dict is an association list kept in insertion order.
    The listing request is an input (the list of records it returned); the
    PUT requests are recorded in a trace, and their outcome is decided by a
    transport oracle.  Console output of the creation methods is not
    modelled; the lines printed by [_hierarchy] are its result. *)

From Stdlib Require Import String Ascii List Bool Arith ZArith Lia PeanoNat.
Import ListNotations.
Open Scope string_scope.
Open Scope list_scope.

Set Warnings "-register-all".

(* ================================================================= *)
(** ** Python strings *)

Module PyStr.

(** [str.isspace] on code points below 256. *)
Definition is_space (c : ascii) : bool :=
  let n := nat_of_ascii c in
  (((9 <=? n) && (n <=? 13)) || ((28 <=? n) && (n <=? 32))
   || (n =? 133) || (n =? 160))%nat.

Fixpoint lstrip (s : string) : string :=
  match s with
  | EmptyString => EmptyString
  | String c s' => if is_space c then lstrip s' else s
  end.

Fixpoint rstrip (s : string) : string :=
  match s with
  | EmptyString => EmptyString
  | String c s' =>
      match rstrip s' with
      | EmptyString => if is_space c then EmptyString else String c EmptyString
      | r => String c r
      end
  end.

(** [s.strip()] *)
Definition strip (s : string) : string := rstrip (lstrip s).

(** [c in s] for a one-character string [c]. *)
Fixpoint contains (c : ascii) (s : string) : bool :=
  match s with
  | EmptyString => false
  | String d s' => Ascii.eqb c d || contains c s'
  end.

(** [s.replace(c, empty)] for a one-character string [c]. *)
Fixpoint remove (c : ascii) (s : string) : string :=
  match s with
  | EmptyString => EmptyString
  | String d s' => if Ascii.eqb c d then remove c s' else String d (remove c s')
  end.

(** [s.split(c)] for a one-character separator [c]. *)
Fixpoint split (c : ascii) (s : string) : list string :=
  match s with
  | EmptyString => [EmptyString]
  | String d s' =>
      if Ascii.eqb c d then EmptyString :: split c s'
      else match split c s' with
           | h :: t => String d h :: t
           | [] => [String d EmptyString]
           end
  end.

Definition space : ascii := " "%char.
Definition slash : ascii := "/"%char.
Definition dquote : string := String (ascii_of_nat 34) EmptyString.

End PyStr.

(* ================================================================= *)
(** ** Python exceptions and results *)

Inductive exn : Type :=
| ValueError (msg : string)
| TypeError (msg : string)
| IndexError (msg : string)
| UnboundLocalError (var : string)
| TransportError (detail : string).

Definition result (A : Type) : Type := (exn + A)%type.

Definition ok {A} (a : A) : result A := inr a.
Definition raise {A} (e : exn) : result A := inl e.

Definition rbind {A B} (m : result A) (k : A -> result B) : result B :=
  match m with
  | inl e => inl e
  | inr a => k a
  end.

(** Reading a local variable that may not have been assigned yet. *)
Definition read_local {A} (var : string) (v : option A) : result A :=
  match v with
  | Some a => ok a
  | None => raise (UnboundLocalError var)
  end.

(* ================================================================= *)
(** ** Insertion-ordered dicts *)

Module Dict.

Definition t (V : Type) : Type := list (string * V).

(** [d[k] = v]: an existing key keeps its position and takes the new
    value, a new key goes last. *)
Fixpoint set {V} (k : string) (v : V) (d : t V) : t V :=
  match d with
  | [] => [(k, v)]
  | (k', v') :: d' =>
      if String.eqb k k' then (k', v) :: d' else (k', v') :: set k v d'
  end.

Definition keys {V} (d : t V) : list string := map fst d.

Fixpoint get {V} (k : string) (d : t V) : option V :=
  match d with
  | [] => None
  | (k', v') :: d' => if String.eqb k k' then Some v' else get k d'
  end.

End Dict.

(** [enumerate(l, start)] *)
Fixpoint enumerate_from {A} (start : nat) (l : list A) : list (nat * A) :=
  match l with
  | [] => []
  | a :: l' => (start, a) :: enumerate_from (S start) l'
  end.

Definition enumerate {A} (l : list A) : list (nat * A) := enumerate_from 0 l.

(* ================================================================= *)
(** ** The directory: [_get_final_collection_names] *)

(** One element of the listing response: "name", "friendlyName" and, when
    the key "parentCollection" is present, its "referenceName". *)
Record CollectionRecord : Type := mkRecord {
  name : string;
  friendlyName : string;
  parentCollection : option string
}.

Record DirEntry : Type := mkEntry {
  e_friendlyName : string;
  e_index : nat;
  e_parentCollection : option string
}.

Definition Directory : Type := Dict.t DirEntry.

Definition _get_final_collection_names (collection_list : list CollectionRecord)
  : Directory :=
  fold_left
    (fun final_collection_list '(index, coll) =>
       match parentCollection coll with
       | None =>
           Dict.set (name coll)
             (mkEntry (friendlyName coll) index None) final_collection_list
       | Some referenceName =>
           Dict.set (name coll)
             (mkEntry (friendlyName coll) index (Some referenceName))
             final_collection_list
       end)
    (enumerate collection_list) [].

(** [for] loop whose body may raise. *)
Fixpoint foldM {A B} (f : A -> B -> result A) (l : list B) (a : A) : result A :=
  match l with
  | [] => ok a
  | b :: l' => rbind (f a b) (foldM f l')
  end.

Definition option_string_eqb (a b : option string) : bool :=
  match a, b with
  | Some x, Some y => String.eqb x y
  | None, None => true
  | _, _ => false
  end.

(* ================================================================= *)
(** ** The [anytree] objects used by [_hierarchy] *)

Module AnyTree.

(** A [Node] object: its name and the node it was created under.  Objects
    live in a heap in creation order; a reference is an index into it. *)
Record NodeObj : Type := mkNode {
  n_name : string;
  n_parent : option nat
}.

Definition Heap : Type := list NodeObj.

(** [Node(name=nm, parent=p)]: a fresh object, appended to the children of
    [p] when [p] is given. *)
Definition Node (nm : string) (p : option nat) (h : Heap) : nat * Heap :=
  (length h, h ++ [mkNode nm p]).

(** The tree a reference denotes: each node with its children in the order
    in which they were attached. *)
Inductive Tree : Type :=
| T (id : nat) (label : string) (children : list Tree).

Definition tree_id (t : Tree) : nat := match t with T i _ _ => i end.
Definition tree_label (t : Tree) : string := match t with T _ l _ => l end.

Fixpoint attach (p : nat) (new : Tree) (t : Tree) : Tree :=
  match t with
  | T i l cs =>
      T i l (map (attach p new) cs ++ (if Nat.eqb i p then [new] else []))
  end.

(** Replays the attachments of the heap, oldest first, below node [r]. *)
Definition tree_of (h : Heap) (r : nat) : Tree :=
  fold_left
    (fun t '(j, o) =>
       match n_parent o with
       | Some p => attach p (T j (n_name o) []) t
       | None => t
       end)
    (enumerate h)
    (T r (n_name (nth r h (mkNode EmptyString None))) []).

Fixpoint size (t : Tree) : nat :=
  match t with
  | T _ _ cs => S (list_sum (map size cs))
  end.

Fixpoint count_id (q : nat) (t : Tree) : nat :=
  match t with
  | T i _ cs => (if Nat.eqb i q then 1 else 0) + list_sum (map (count_id q) cs)
  end.

(** [AsciiStyle()] *)
Definition vertical : string := "|   ".
Definition cont : string := "|-- ".
Definition end_ : string := "+-- ".
Definition empty : string := "    ".

(** The [pre] field of a [RenderTree] row. *)
Definition row_pre (continues : list bool) : string :=
  match continues with
  | [] => EmptyString
  | _ =>
      (String.concat EmptyString
         (map (fun c : bool => if c then vertical else empty) (removelast continues))
       ++ (if last continues false then cont else end_))%string
  end.

(** Iterating [RenderTree(node, style=AsciiStyle())]: the rows in preorder,
    each as the pair of [pre] and the node. *)
Fixpoint render_rows (continues : list bool) (t : Tree) : list (string * Tree) :=
  match t with
  | T i l cs =>
      (row_pre continues, t)
      :: (fix children (cs : list Tree) : list (string * Tree) :=
            match cs with
            | [] => []
            | [c] => render_rows (continues ++ [false]) c
            | c :: cs' => render_rows (continues ++ [true]) c ++ children cs'
            end) cs
  end.

Definition RenderTree (h : Heap) (node : nat) : list (string * Tree) :=
  render_rows [] (tree_of h node).

End AnyTree.

(* ================================================================= *)
(** ** [_hierarchy] *)

(** The local variables of [_hierarchy] that are assigned inside the loop. *)
Record HLocals : Type := mkLocals {
  root : option nat;
  root_name : option string;
  child : option nat
}.

Definition hierarchy_body (st : AnyTree.Heap * HLocals)
    (item : nat * (string * DirEntry)) : result (AnyTree.Heap * HLocals) :=
  let '(h, lv) := st in
  let '(index, coll) := item in
  let real_name := fst coll in
  let friendly_name := e_friendlyName (snd coll) in
  let parent_collection := e_parentCollection (snd coll) in
  if Nat.eqb index 0 then
    let '(n, h') := AnyTree.Node friendly_name None h in
    ok (h', mkLocals (Some n) (Some real_name) (child lv))
  else
    rbind (read_local "root_name" (root_name lv)) (fun rn =>
    if option_string_eqb parent_collection (Some rn) then
      rbind (read_local "root" (root lv)) (fun r =>
      let '(n, h') := AnyTree.Node friendly_name (Some r) h in
      ok (h', mkLocals (root lv) (root_name lv) (Some n)))
    else
      rbind (read_local "child" (child lv)) (fun c =>
      let '(n, h') := AnyTree.Node friendly_name (Some c) h in
      ok (h', mkLocals (root lv) (root_name lv) (Some n)))).

(** The loop of [_hierarchy] over the items of the directory. *)
Definition hierarchy_build (collection_list : Directory)
  : result (AnyTree.Heap * HLocals) :=
  foldM hierarchy_body (enumerate collection_list)
    ([], mkLocals None None None).

(** [_hierarchy]: the lines it prints. *)
Definition _hierarchy (listing : list CollectionRecord) : result (list string) :=
  let collection_list := _get_final_collection_names listing in
  rbind (hierarchy_build collection_list) (fun '(h, lv) =>
  rbind (read_local "root" (root lv)) (fun r =>
  ok (map (fun '(pre, node) => (pre ++ AnyTree.tree_label node)%string)
        (AnyTree.RenderTree h r)))).

(** The tree [_hierarchy] renders. *)
Definition hierarchy_tree (listing : list CollectionRecord) : result AnyTree.Tree :=
  rbind (hierarchy_build (_get_final_collection_names listing)) (fun '(h, lv) =>
  rbind (read_local "root" (root lv)) (fun r => ok (AnyTree.tree_of h r))).

(* ================================================================= *)
(** ** HTTP requests and the state of the remote calls *)

(** A PUT request as [requests.put(url=..., headers=..., data=...)] sends
    it; the authentication headers are not modelled. *)
Record Request : Type := mkRequest {
  url : string;
  data : string
}.

(** What [requests.put] does: it returns a response (of any status code) or
    raises. *)
Inductive PutOutcome : Type :=
| Response (status_code : nat) (content : string)
| Raises (detail : string).

(** Python list subscripts: a negative index counts from the end. *)
Definition getitem {A} (l : list A) (i : Z) : result A :=
  let j := if (i <? 0)%Z then (i + Z.of_nat (length l))%Z else i in
  if (j <? 0)%Z then raise (IndexError "list index out of range")
  else match nth_error l (Z.to_nat j) with
       | Some a => ok a
       | None => raise (IndexError "list index out of range")
       end.

Fixpoint replace_nth {A} (l : list A) (n : nat) (a : A) : list A :=
  match l, n with
  | [], _ => []
  | _ :: l', O => a :: l'
  | b :: l', S n' => b :: replace_nth l' n' a
  end.

(** [l[i] = a] for a non-negative index. *)
Definition setitem {A} (l : list A) (i : nat) (a : A) : result (list A) :=
  if Nat.ltb i (length l) then ok (replace_nth l i a)
  else raise (IndexError "list assignment index out of range").

Section Client.

(** [self.endpoint_url] and the behaviour of [requests.put], which may
    depend on the requests sent before. *)
Variable endpoint_url : string.
Variable requests_put : list Request -> Request -> PutOutcome.

(** Computations that send requests and may raise: the state is the list of
    PUT requests sent so far, kept when an exception is raised. *)
Definition M (A : Type) : Type := list Request -> result A * list Request.

Definition ret {A} (a : A) : M A := fun tr => (ok a, tr).
Definition throw {A} (e : exn) : M A := fun tr => (raise e, tr).
Definition lift {A} (r : result A) : M A := fun tr => (r, tr).

Definition bind {A B} (m : M A) (k : A -> M B) : M B :=
  fun tr =>
    match m tr with
    | (inl e, tr') => (inl e, tr')
    | (inr a, tr') => k a tr'
    end.

Notation "x <- m ;; k" := (bind m (fun x => k))
  (at level 61, m at next level, right associativity).

Fixpoint forM_ {A} (l : list A) (body : A -> M unit) : M unit :=
  match l with
  | [] => ret tt
  | a :: l' => _ <- body a ;; forM_ l' body
  end.

(** [requests.put(url=..., headers=..., data=...)], returning
    [request.content]. *)
Definition put (rq : Request) : M string :=
  fun tr =>
    match requests_put tr rq with
    | Response _ content => (ok content, tr ++ [rq])
    | Raises detail => (raise (TransportError detail), tr ++ [rq])
    end.

(** [atlas_endpoint] for the collection [name]. *)
Definition collection_url (api_version name : string) : string :=
  (endpoint_url ++ "account/collections/" ++ name
     ++ "?api-version=" ++ api_version)%string.

(** The request body: the parent reference and the friendly name. *)
Definition collection_data (referenceName friendly : string) : string :=
  ("{" ++ PyStr.dquote ++ "parentCollection" ++ PyStr.dquote ++ ": {"
     ++ PyStr.dquote ++ "referenceName" ++ PyStr.dquote ++ ": "
     ++ PyStr.dquote ++ referenceName ++ PyStr.dquote ++ "}, "
     ++ PyStr.dquote ++ "friendlyName" ++ PyStr.dquote ++ ": "
     ++ PyStr.dquote ++ friendly ++ PyStr.dquote ++ "}")%string.

(** The request for collection [name] with parent [referenceName]. *)
Definition put_request (api_version name referenceName friendly : string)
  : Request :=
  mkRequest (collection_url api_version name)
    (collection_data referenceName friendly).

(* ================================================================= *)
(** ** Resolving the starting collection *)

(** The first loop of both creation methods: the pair of
    [collection_to_start_on] and [collection_to_start_on_check] after it. *)
Definition resolve_start (collection_list : Directory)
    (collection_to_start_on : string) : string * list string :=
  fold_left
    (fun '(collection_to_start_on, check) '(name, value) =>
       if String.eqb collection_to_start_on (e_friendlyName value)
          || String.eqb collection_to_start_on name
       then (name, check ++ [name])
       else (collection_to_start_on, check))
    collection_list
    (PyStr.strip collection_to_start_on, []).

Definition start_not_found (collection_to_start_on : string) : exn :=
  ValueError
    ("The collection '" ++ collection_to_start_on
       ++ "' either doesn't exist or you don't have permission to start on it. Would need to be a collection admin on that collection if it exists.")%string.

Definition final_names_of (name : string) : list string :=
  if PyStr.contains PyStr.slash name
  then map PyStr.strip (PyStr.split PyStr.slash name)
  else [PyStr.strip name].

(* ================================================================= *)
(** ** [create_collectiions] *)

(** The loop over the directory for one segment of the path. *)
Definition resolve_body (collection_list : Directory)
    (updated_final_names : list string) (item : nat * string)
  : result (list string) :=
  let '(index, name) := item in
  foldM
    (fun updated_final_names '(coll, value) =>
       if String.eqb name (e_friendlyName value) && negb (String.eqb name coll)
          && PyStr.contains PyStr.space name
       then setitem updated_final_names index (e_friendlyName value)
       else if String.eqb name (e_friendlyName value)
               && negb (String.eqb name coll)
       then setitem updated_final_names index coll
       else ok updated_final_names)
    collection_list updated_final_names.

Definition resolve_names (collection_list : Directory)
    (final_names : list string) : result (list string) :=
  foldM (resolve_body collection_list) (enumerate final_names) final_names.

(** The body of the loop that sends the requests; [index] starts at 1. *)
Definition issue_body (api_version collection_to_start_on : string)
    (final_names updated_final_names : list string) (item : nat * string)
  : M unit :=
  let '(index, name) := item in
  let '(friendly_name, name) :=
    if PyStr.contains PyStr.space name
    then (name, PyStr.remove PyStr.space name)
    else (name, name) in
  if Nat.eqb index 1 then
    friendly <- lift (getitem final_names (Z.of_nat index - 1)) ;;
    _ <- put (put_request api_version name collection_to_start_on friendly) ;;
    ret tt
  else
    parent <- lift (getitem updated_final_names (Z.of_nat index - 2)) ;;
    _ <- put (put_request api_version name parent friendly_name) ;;
    ret tt.

Definition create_path (api_version collection_to_start_on : string)
    (collection_list : Directory) (name : string) : M unit :=
  let final_names := final_names_of name in
  updated_final_names <- lift (resolve_names collection_list final_names) ;;
  forM_ (enumerate_from 1 updated_final_names)
    (issue_body api_version collection_to_start_on final_names
       updated_final_names).

Definition not_iterable : exn := TypeError "'NoneType' object is not iterable".

Definition create_collectiions (listing : list CollectionRecord)
    (collection_to_start_on : string) (collection_names : option (list string))
    (api_version : string) : M unit :=
  let collection_list := _get_final_collection_names listing in
  let '(collection_to_start_on, collection_to_start_on_check) :=
    resolve_start collection_list collection_to_start_on in
  match collection_to_start_on_check with
  | [] => throw (start_not_found collection_to_start_on)
  | _ :: _ =>
      match collection_names with
      | None => throw not_iterable
      | Some names =>
          forM_ names (create_path api_version collection_to_start_on collection_list)
      end
  end.

(* ================================================================= *)
(** ** [create_collectiions2] *)

(** A value of [collection_dict]. *)
Record PathEntry : Type := mkPath {
  p_friendlyName : string;
  p_parentCollection : option string
}.

(** The loop over the directory for one segment of the path. *)
Definition collect_body (collection_to_start_on : string)
    (collection_list : Directory) (collection_dict : Dict.t PathEntry)
    (item : nat * string) : Dict.t PathEntry :=
  let '(index, name) := item in
  fold_left
    (fun collection_dict '(coll, value) =>
       if Nat.eqb index 0 && PyStr.contains PyStr.space name then
         Dict.set (PyStr.remove PyStr.space name)
           (mkPath name (Some collection_to_start_on)) collection_dict
       else if Nat.eqb index 0 then
         Dict.set name (mkPath name (Some collection_to_start_on)) collection_dict
       else if String.eqb name (e_friendlyName value)
               && negb (String.eqb name coll) && Nat.ltb 0 index then
         Dict.set coll (mkPath name (e_parentCollection value)) collection_dict
       else if String.eqb name coll && Nat.ltb 0 index then
         Dict.set name (mkPath name (e_parentCollection value)) collection_dict
       else if negb (String.eqb name (e_friendlyName value))
               && negb (String.eqb name coll)
               && PyStr.contains PyStr.space name && Nat.ltb 0 index then
         Dict.set (PyStr.remove PyStr.space name) (mkPath name None)
           collection_dict
       else
         Dict.set name (mkPath name None) collection_dict)
    collection_list collection_dict.

Definition collect (collection_to_start_on : string)
    (collection_list : Directory) (final_names : list string)
  : Dict.t PathEntry :=
  fold_left (collect_body collection_to_start_on collection_list)
    (enumerate final_names) [].

(** [really_final_list]: identifier, friendly name and parent reference of
    each request. *)
Definition really_final (collection_updated_list : list (string * PathEntry))
  : result (list (string * string * string)) :=
  foldM
    (fun really_final_list '(index, value) =>
       match p_parentCollection (snd value) with
       | None =>
           rbind (getitem collection_updated_list (Z.of_nat index - 1))
             (fun previous =>
                ok (really_final_list
                      ++ [(fst value, p_friendlyName (snd value), fst previous)]))
       | Some parent =>
           ok (really_final_list
                 ++ [(fst value, p_friendlyName (snd value), parent)])
       end)
    (enumerate collection_updated_list) [].

Definition create_path2 (api_version collection_to_start_on : string)
    (collection_list : Directory) (name : string) : M unit :=
  let final_names := final_names_of name in
  let collection_dict :=
    collect collection_to_start_on collection_list final_names in
  really_final_list <- lift (really_final collection_dict) ;;
  forM_ really_final_list
    (fun '(item0, item1, item2) =>
       _ <- put (put_request api_version item0 item2 item1) ;; ret tt).

Definition create_collectiions2 (listing : list CollectionRecord)
    (collection_to_start_on : string) (collection_names : option (list string))
    (api_version : string) : M unit :=
  let collection_list := _get_final_collection_names listing in
  let '(collection_to_start_on, collection_to_start_on_check) :=
    resolve_start collection_list collection_to_start_on in
  match collection_to_start_on_check with
  | [] => throw (start_not_found collection_to_start_on)
  | _ :: _ =>
      match collection_names with
      | None => throw not_iterable
      | Some names =>
          forM_ names (create_path2 api_version collection_to_start_on collection_list)
      end
  end.

(* ================================================================= *)
(** ** [list_collections_new] *)

(** What a call of [list_collections_new] gives: the lines printed when
    [hierarchy] is set (the call then returns [None]), the friendly names,
    or the listing. *)
Inductive Listing : Type :=
| Printed (lines : list string)
| FriendlyNames (names : list string)
| Collections (value : list CollectionRecord).

(** What [requests.get(url=..., headers=...)] followed by
    [.json()["value"]] gives for an address: the records of the listing, or
    the exception raised on the way.  It may depend on the addresses
    requested before. *)
Variable requests_get : list string -> string -> result (list CollectionRecord).

(** Computations that request the listing and may raise: the state is the
    list of the addresses requested so far. *)
Definition GetM (A : Type) : Type := list string -> result A * list string.

(** The default value of the parameter [api_version]. *)
Definition default_api_version : string := "2019-11-01-preview".

(** [atlas_endpoint]; an absent or empty [skipToken] adds nothing. *)
Definition listing_endpoint (api_version : string) (skipToken : option string)
  : string :=
  let atlas_endpoint :=
    (endpoint_url ++ "collections?api-version=" ++ api_version)%string in
  match skipToken with
  | None => atlas_endpoint
  | Some EmptyString => atlas_endpoint
  | Some token => (atlas_endpoint ++ "&$skipToken=" ++ token)%string
  end.

(** The request of the listing and its "value": [collection_list]. *)
Definition get_collection_list (api_version : string)
    (skipToken : option string) : GetM (list CollectionRecord) :=
  fun gets =>
    let atlas_endpoint := listing_endpoint api_version skipToken in
    (requests_get gets atlas_endpoint, gets ++ [atlas_endpoint]).

(** The call [self._hierarchy()].  It takes no listing from its caller:
    [_get_final_collection_names] calls [self.list_collections_new()] with
    the default arguments, which requests the listing again and returns it
    as it is, and [_hierarchy] works on that listing. *)
Definition hierarchy_call : GetM (list string) :=
  fun gets =>
    match get_collection_list default_api_version None gets with
    | (inl e, gets') => (inl e, gets')
    | (inr collection_list, gets') => (_hierarchy collection_list, gets')
    end.

(** [list_collections_new].  With [hierarchy] set, the listing it has
    requested itself is dropped and the lines are those that the call of
    [_hierarchy] prints. *)
Definition list_collections_new (api_version : string)
    (hierarchy only_names : bool) (skipToken : option string) : GetM Listing :=
  fun gets =>
    match get_collection_list api_version skipToken gets with
    | (inl e, gets') => (inl e, gets')
    | (inr collection_list, gets') =>
        if hierarchy then
          match hierarchy_call gets' with
          | (inl e, gets'') => (inl e, gets'')
          | (inr lines, gets'') => (ok (Printed lines), gets'')
          end
        else if only_names then
          (ok (FriendlyNames (map friendlyName collection_list)), gets')
        else (ok (Collections collection_list), gets')
    end.

End Client.

(* ================================================================= *)
(** * Vocabulary of the properties *)

Section TreeInduction.

Variable P : AnyTree.Tree -> Prop.
Hypothesis P_node :
  forall i l cs, Forall P cs -> P (AnyTree.T i l cs).

(** Induction on trees, with the hypothesis for every child. *)
Fixpoint Tree_nested_ind (t : AnyTree.Tree) : P t :=
  match t with
  | AnyTree.T i l cs =>
      P_node i l cs
        ((fix all (cs : list AnyTree.Tree) : Forall P cs :=
            match cs with
            | [] => Forall_nil P
            | c :: cs' => Forall_cons c (Tree_nested_ind c) (all cs')
            end) cs)
  end.

End TreeInduction.

(** One step of [AnyTree.tree_of]. *)
Definition attach_step (t : AnyTree.Tree) (item : nat * AnyTree.NodeObj)
  : AnyTree.Tree :=
  let '(j, o) := item in
  match AnyTree.n_parent o with
  | Some p => AnyTree.attach p (AnyTree.T j (AnyTree.n_name o) []) t
  | None => t
  end.

(** Every node of [l], the nodes [k], [k + 1], ... of a heap, was created
    below a node older than itself. *)
Definition older_parents (k : nat) (l : list AnyTree.NodeObj) : Prop :=
  forall i o, nth_error l i = Some o ->
    exists p, AnyTree.n_parent o = Some p /\ p < k + i.

(** The second item of the directory, when there is one, names the first
    item as its parent. *)
Definition hierarchy_ready (collection_list : Directory) : bool :=
  match collection_list with
  | [] => false
  | [_] => true
  | (first, _) :: (_, second) :: _ =>
      option_string_eqb (e_parentCollection second) (Some first)
  end.

(** The node the loop of [_hierarchy] creates for an item, when it creates
    one: below the root, or below the node created just before. *)
Definition node_for (first : string) (item : nat * (string * DirEntry))
  : AnyTree.NodeObj :=
  let '(index, (_, value)) := item in
  AnyTree.mkNode (e_friendlyName value)
    (if Nat.eqb index 0 then None
     else if option_string_eqb (e_parentCollection value) (Some first)
          then Some 0 else Some (index - 1)).

(** The heap and the local variables after the loop. *)
Definition heap_of (collection_list : Directory) : AnyTree.Heap :=
  match collection_list with
  | [] => []
  | (first, _) :: _ => map (node_for first) (enumerate collection_list)
  end.

Definition locals_of (collection_list : Directory) : HLocals :=
  match collection_list with
  | [] => mkLocals None None None
  | [(first, _)] => mkLocals (Some 0) (Some first) None
  | (first, _) :: _ => mkLocals (Some 0) (Some first)
                         (Some (length collection_list - 1))
  end.

(** One step of [_get_final_collection_names]. *)
Definition directory_step (d : Directory) (item : nat * CollectionRecord)
  : Directory :=
  let '(index, coll) := item in
  Dict.set (name coll)
    (mkEntry (friendlyName coll) index (parentCollection coll)) d.

(** The number of distinct "name" fields of a listing. *)
Definition distinct_ids (listing : list CollectionRecord) : nat :=
  length (nodup string_dec (map name listing)).

(** The parent id the directory records for [x]. *)
Definition parent_of (collection_list : Directory) (x : string) : option string :=
  match Dict.get x collection_list with
  | Some value => e_parentCollection value
  | None => None
  end.

(** The item reached from [x] after [n] parent steps. *)
Fixpoint ancestor (collection_list : Directory) (n : nat) (x : string)
  : option string :=
  match n with
  | O => Some x
  | S n' =>
      match parent_of collection_list x with
      | Some p => ancestor collection_list n' p
      | None => None
      end
  end.

(** Following parent ids from [x] leads back to [x]. *)
Definition on_parent_cycle (collection_list : Directory) (x : string) : Prop :=
  exists n, ancestor collection_list (S n) x = Some x.

(** ** Both creation methods as lists of requests *)

Section Requests.

Variable endpoint_url : string.
Variable requests_put : list Request -> Request -> PutOutcome.

(** Sending the requests of a list in turn, up to the first that raises. *)
Fixpoint send_all (rqs : list Request) (tr : list Request)
  : result unit * list Request :=
  match rqs with
  | [] => (ok tt, tr)
  | rq :: rqs' =>
      match requests_put tr rq with
      | Response _ _ => send_all rqs' (tr ++ [rq])
      | Raises detail => (raise (TransportError detail), tr ++ [rq])
      end
  end.

(** [requests.put] answers every request. *)
Definition never_raises : Prop :=
  forall tr rq, exists status content,
    requests_put tr rq = Response status content.

(** The name a segment ends with after the loop over the directory, from
    the value [current] it has before. *)
Definition resolve_one (collection_list : Directory) (name current : string)
  : string :=
  fold_left
    (fun current '(coll, value) =>
       if String.eqb name (e_friendlyName value) && negb (String.eqb name coll)
          && PyStr.contains PyStr.space name
       then e_friendlyName value
       else if String.eqb name (e_friendlyName value)
               && negb (String.eqb name coll)
       then coll
       else current)
    collection_list current.

(** The identifier in the URL of a segment's request. *)
Definition working_id (name : string) : string :=
  if PyStr.contains PyStr.space name
  then PyStr.remove PyStr.space name else name.

(** The request the second loop of [create_collectiions] sends for an item
    of [enumerate(updated_final_names, start=1)]. *)
Definition issue_request (api_version collection_to_start_on : string)
    (final_names updated_final_names : list string) (item : nat * string)
  : Request :=
  let '(index, name) := item in
  if Nat.eqb index 1 then
    put_request endpoint_url api_version (working_id name)
      collection_to_start_on (nth 0 final_names EmptyString)
  else
    put_request endpoint_url api_version (working_id name)
      (nth (index - 2) updated_final_names EmptyString) name.

(** The requests of [create_collectiions] for one path. *)
Definition path_requests (api_version collection_to_start_on : string)
    (collection_list : Directory) (name : string) : list Request :=
  let final_names := final_names_of name in
  let updated_final_names :=
    map (fun n => resolve_one collection_list n n) final_names in
  map (issue_request api_version collection_to_start_on final_names
         updated_final_names)
    (enumerate_from 1 updated_final_names).

Definition no_path_item : string * PathEntry :=
  (EmptyString, mkPath EmptyString None).

(** The item that [collection_updated_list[index - 1]] reads. *)
Definition previous_index (len index : nat) : nat :=
  if Nat.eqb index 0 then len - 1 else index - 1.

(** The item of [really_final_list] made from an item of
    [enumerate(collection_updated_list)]. *)
Definition really_final_item (collection_updated_list : list (string * PathEntry))
    (item : nat * (string * PathEntry)) : string * string * string :=
  let '(index, value) := item in
  match p_parentCollection (snd value) with
  | None =>
      (fst value, p_friendlyName (snd value),
       fst (nth (previous_index (length collection_updated_list) index)
              collection_updated_list no_path_item))
  | Some parent => (fst value, p_friendlyName (snd value), parent)
  end.

(** The requests of [create_collectiions2] for one path. *)
Definition path_requests2 (api_version collection_to_start_on : string)
    (collection_list : Directory) (name : string) : list Request :=
  let collection_dict :=
    collect collection_to_start_on collection_list (final_names_of name) in
  map (fun '(item0, item1, item2) =>
         put_request endpoint_url api_version item0 item2 item1)
    (map (really_final_item collection_dict) (enumerate collection_dict)).

End Requests.

(** Some item of the directory has [s] as id or friendly name. *)
Definition start_matches (collection_list : Directory) (s : string) : bool :=
  existsb
    (fun '(coll, value) => String.eqb s (e_friendlyName value) || String.eqb s coll)
    collection_list.

(** One step of [resolve_start]. *)
Definition start_step
  : string * list string -> string * DirEntry -> string * list string :=
  fun '(collection_to_start_on, check) '(name, value) =>
    if String.eqb collection_to_start_on (e_friendlyName value)
       || String.eqb collection_to_start_on name
    then (name, check ++ [name])
    else (collection_to_start_on, check).

(** What both creation methods do once the listing is in hand, for any way
    [requests_of] of turning a path into requests. *)
Definition dispatch (requests_put : list Request -> Request -> PutOutcome)
    (requests_of : string -> string -> list Request)
    (collection_list : Directory) (collection_to_start_on : string)
    (collection_names : option (list string)) (tr : list Request)
  : result unit * list Request :=
  match snd (resolve_start collection_list collection_to_start_on) with
  | [] =>
      (raise (start_not_found
                (fst (resolve_start collection_list collection_to_start_on))),
       tr)
  | _ :: _ =>
      match collection_names with
      | None => (raise not_iterable, tr)
      | Some names =>
          send_all requests_put
            (flat_map
               (requests_of
                  (fst (resolve_start collection_list collection_to_start_on)))
               names) tr
      end
  end.

(** No item of the directory has [s] as id or friendly name. *)
Definition unresolved (collection_list : Directory) (s : string) : Prop :=
  forall coll value, In (coll, value) collection_list ->
    s <> e_friendlyName value /\ s <> coll.

(** The test of the second branch of the loop of [create_collectiions]. *)
Definition friendly_match (name : string) (item : string * DirEntry) : bool :=
  String.eqb name (e_friendlyName (snd item)) && negb (String.eqb name (fst item)).

(** The number of segments of all the paths. *)
Definition total_segments (names : list string) : nat :=
  list_sum (map (fun name => length (final_names_of name)) names).

(** The path "A/B/C". *)
Definition path3 (A B C : string) : string :=
  (A ++ "/" ++ B ++ "/" ++ C)%string.

(** The segment is neither an id nor a friendly name of the directory. *)
Definition is_new (collection_list : Directory) (s : string) : bool :=
  forallb
    (fun '(coll, value) =>
       negb (String.eqb s coll) && negb (String.eqb s (e_friendlyName value)))
    collection_list.

(** Every request of [sent], sent in turn after [tr], is answered. *)
Fixpoint all_answered (requests_put : list Request -> Request -> PutOutcome)
    (tr sent : list Request) : Prop :=
  match sent with
  | [] => True
  | rq :: sent' =>
      (exists status content, requests_put tr rq = Response status content)
      /\ all_answered requests_put (tr ++ [rq]) sent'
  end.

(** [create_collectiions] or [create_collectiions2]. *)
Inductive Method : Type := First | Second.

Definition run (m : Method) (endpoint_url : string)
    (requests_put : list Request -> Request -> PutOutcome)
    (listing : list CollectionRecord) (collection_to_start_on : string)
    (collection_names : option (list string)) (api_version : string)
  : M unit :=
  match m with
  | First =>
      create_collectiions endpoint_url requests_put listing
        collection_to_start_on collection_names api_version
  | Second =>
      create_collectiions2 endpoint_url requests_put listing
        collection_to_start_on collection_names api_version
  end.

(** The requests a method sends when none raises. *)
Definition planned (m : Method) (endpoint_url : string)
    (listing : list CollectionRecord) (collection_to_start_on : string)
    (names : list string) (api_version : string) : list Request :=
  let collection_list := _get_final_collection_names listing in
  let start := fst (resolve_start collection_list collection_to_start_on) in
  flat_map
    (match m with
     | First => path_requests endpoint_url api_version start collection_list
     | Second => path_requests2 endpoint_url api_version start collection_list
     end) names.

(** The requests [rqs] are those a method sends for the path [name] when it
    is the only path, whatever has been sent before, and there is at least
    one of them. *)
Definition path_alone (m : Method) (endpoint_url : string)
    (requests_put : list Request -> Request -> PutOutcome)
    (listing : list CollectionRecord) (collection_to_start_on : string)
    (api_version : string) (name : string) (rqs : list Request) : Prop :=
  rqs <> []
  /\ forall tr,
       run m endpoint_url requests_put listing collection_to_start_on
         (Some [name]) api_version tr
       = (ok tt, tr ++ rqs).

(* ================================================================= *)
(** ** Sample listings and transports *)

Definition listing_two_levels : list CollectionRecord :=
  [mkRecord "r" "Root" None; mkRecord "a" "A" (Some "r");
   mkRecord "b" "B" (Some "a"); mkRecord "a" "A2" (Some "r")].

Definition listing_dangling_second : list CollectionRecord :=
  [mkRecord "r" "Root" None; mkRecord "x" "X" (Some "zzz")].

Definition listing_dangling_third : list CollectionRecord :=
  [mkRecord "r" "Root" None; mkRecord "a" "A" (Some "r");
   mkRecord "x" "X" (Some "zzz")].

Definition listing_cycle_after_root : list CollectionRecord :=
  [mkRecord "r" "Root" None; mkRecord "X" "X" (Some "Y");
   mkRecord "Y" "Y" (Some "X")].

Definition listing_two_cycle : list CollectionRecord :=
  [mkRecord "X" "X" (Some "Y"); mkRecord "Y" "Y" (Some "X")].

Definition always_ok (tr : list Request) (rq : Request) : PutOutcome :=
  Response 200 "ok".

Definition purview : string := "https://purview/".
Definition api : string := "2019-11-01-preview".

Definition listing_id_vs_name : list CollectionRecord :=
  [mkRecord "root" "Root" None;
   mkRecord "abc123" "Finance" (Some "root");
   mkRecord "fin99" "abc123" (Some "root")].

Definition listing_finance : list CollectionRecord :=
  [mkRecord "root" "Root" None; mkRecord "fin" "Finance" (Some "root")].

Definition listing_root : list CollectionRecord :=
  [mkRecord "root" "Root" None].

(** The listing once the collection "A" has been created below "root". *)
Definition listing_root_a : list CollectionRecord :=
  [mkRecord "root" "Root" None; mkRecord "A" "A" (Some "root")].

Definition always_500 (tr : list Request) (rq : Request) : PutOutcome :=
  Response 500 "Internal Server Error".

Definition always_refused (tr : list Request) (rq : Request) : PutOutcome :=
  Raises "connection refused".

(** The first request of the listing finds no collection; the root
    collection is there from the second request on. *)
Definition root_appears (gets : list string) (endpoint : string)
  : result (list CollectionRecord) :=
  match gets with
  | [] => ok []
  | _ :: _ => ok listing_root
  end.

(** The root collection is listed at the first request and gone at the
    second. *)
Definition root_disappears (gets : list string) (endpoint : string)
  : result (list CollectionRecord) :=
  match gets with
  | [] => ok listing_root
  | _ :: _ => ok []
  end.

(** [requests.put] answers the first request and raises on the second. *)
Definition refuses_second (tr : list Request) (rq : Request) : PutOutcome :=
  match tr with
  | [] => Response 200 "ok"
  | _ :: _ => Raises "connection refused"
  end.

(* ================================================================= *)
(** * Further vocabulary: the directory and the rendered tree *)

(** The item of the directory made from the record at position [index] of
    the listing. *)
Definition entry_of (item : nat * CollectionRecord) : string * DirEntry :=
  let '(index, coll) := item in
  (name coll, mkEntry (friendlyName coll) index (parentCollection coll)).

(** Node references, labels and depths of a tree, in preorder. *)
Fixpoint tree_ids (t : AnyTree.Tree) : list nat :=
  match t with
  | AnyTree.T i _ cs => i :: flat_map tree_ids cs
  end.

Fixpoint tree_labels (t : AnyTree.Tree) : list string :=
  match t with
  | AnyTree.T _ l cs => l :: flat_map tree_labels cs
  end.

Fixpoint tree_depths (d : nat) (t : AnyTree.Tree) : list nat :=
  match t with
  | AnyTree.T _ _ cs => d :: flat_map (tree_depths (S d)) cs
  end.

(** The children of a node below which the nodes of [c] hang one under the
    other. *)
Fixpoint chain (c : list (nat * string)) : list AnyTree.Tree :=
  match c with
  | [] => []
  | (i, l) :: c' => [AnyTree.T i l (chain c')]
  end.

(** The item names the first item of the directory as its parent. *)
Definition under_root (first : string) (value : DirEntry) : bool :=
  option_string_eqb (e_parentCollection value) (Some first).

(** The children of the root as the loop of [_hierarchy] grows them: the
    finished ones and the chain that ends in the node made last. *)
Definition shape_step (first : string)
  : list AnyTree.Tree * list (nat * string) -> nat * (string * DirEntry) ->
    list AnyTree.Tree * list (nat * string) :=
  fun '(done, c) '(j, (_, value)) =>
    if under_root first value
    then (done ++ chain c, [(j, e_friendlyName value)])
    else (done, c ++ [(j, e_friendlyName value)]).

Definition shape_inv (k : nat) (done : list AnyTree.Tree)
    (c : list (nat * string)) : Prop :=
  Forall (fun t => Forall (fun i => 1 <= i < k - 1) (tree_ids t)) done
  /\ ((k = 1 /\ c = [] /\ done = [])
      \/ (2 <= k
          /\ exists c0 l, c = c0 ++ [(k - 1, l)]
                          /\ Forall (fun x => 1 <= fst x < k - 1) c0)).

(** The depth at which [_hierarchy] draws each item after the first: 1 below
    the root, and otherwise one more than the item before it. *)
Fixpoint nesting (first : string) (previous : nat) (rest : Directory)
  : list nat :=
  match rest with
  | [] => []
  | (_, value) :: rest' =>
      let d := if under_root first value then 1 else S previous in
      d :: nesting first d rest'
  end.

(** A root with the child "A", two children of "A", and the child "B". *)
Definition rec_siblings_below_a : list CollectionRecord :=
  [mkRecord "r" "Root" None; mkRecord "a" "A" (Some "r");
   mkRecord "a1" "A1" (Some "a"); mkRecord "a2" "A2" (Some "a");
   mkRecord "b" "B" (Some "r")].

(* ================================================================= *)
(** * Further vocabulary: the requests of the creation methods *)

(** The number of occurrences of [c] in [s]. *)
Fixpoint count_char (c : ascii) (s : string) : nat :=
  match s with
  | EmptyString => 0
  | String d s' => (if Ascii.eqb c d then 1 else 0) + count_char c s'
  end.

(** Requests for the names [us], each with the name before it, as written,
    as parent reference and with itself as friendly name. *)
Fixpoint chain_from (endpoint_url api_version parent : string)
    (us : list string) : list Request :=
  match us with
  | [] => []
  | u :: rest =>
      put_request endpoint_url api_version (working_id u) parent u
      :: chain_from endpoint_url api_version u rest
  end.

(** Requests for the segments, each with the identifier of the request
    before it as parent reference. *)
Fixpoint chained (endpoint_url api_version parent : string)
    (segments : list string) : list Request :=
  match segments with
  | [] => []
  | s :: rest =>
      put_request endpoint_url api_version (working_id s) parent s
      :: chained endpoint_url api_version (working_id s) rest
  end.

(** The item of [collection_dict] that [create_collectiions2] makes for a
    segment it does not find in the directory. *)
Definition new_item (start : string) (item : nat * string)
  : string * PathEntry :=
  let '(index, s) := item in
  (working_id s, mkPath s (if Nat.eqb index 0 then Some start else None)).

(* ================================================================= *)
(** * Further methods of the client *)

(** The exceptions of these methods: the ones above, a missing dict key, an
    unsupported batch, and whatever [_handle_response] raises for a
    response, which is code outside this file. *)
Inductive pyexn : Type :=
| Builtin (e : exn)
| KeyError (key : string)
| NotImplementedError (msg : string)
| HandleResponseError (detail : string).

Definition presult (A : Type) : Type := (pyexn + A)%type.

Definition pbind {A B} (m : presult A) (k : A -> presult B) : presult B :=
  match m with
  | inl e => inl e
  | inr a => k a
  end.

(* ----------------------------------------------------------------- *)
(** ** [_list_collections_generator] and [list_collections] *)

Section Listing.

(** The type of the elements of "value", and of a response of
    [requests.get]. *)
Variable Item : Type.
Variable HttpResponse : Type.

(** The dict [results]: its "value", when it has that key, and
    [results.get("nextLink")]. *)
Record Results : Type := mkResults {
  r_value : option (list Item);
  r_nextLink : option string
}.

Inductive GetOutcome : Type :=
| Got (response : HttpResponse)
| GetRaises (detail : string).

(** [self.endpoint_url], the behaviour of [requests.get] after the URLs
    requested so far, and [_handle_response]. *)
Variable endpoint_url : string.
Variable requests_get : list string -> string -> GetOutcome.
Variable _handle_response : HttpResponse -> presult Results.

(** How the generator ends: it returns, it raises, or it is still running
    when the fuel is spent. *)
Inductive GenEnd : Type :=
| Returned
| Raised (e : pyexn)
| Running.

(** [_list_collections_generator], consumed to its end: the values it
    yields, how it ends, and the URLs requested.  One unit of fuel is one
    turn of the [while] loop. *)
Fixpoint _list_collections_generator (fuel : nat)
    (updated_endpoint : option string) (tr : list string)
  : list Item * GenEnd * list string :=
  match fuel with
  | O => ([], Running, tr)
  | S fuel' =>
      match updated_endpoint with
      | None => ([], Returned, tr)
      | Some endpoint =>
          match requests_get tr endpoint with
          | GetRaises detail =>
              ([], Raised (Builtin (TransportError detail)), tr ++ [endpoint])
          | Got collectionsListGet =>
              match _handle_response collectionsListGet with
              | inl e => ([], Raised e, tr ++ [endpoint])
              | inr results =>
                  match r_value results with
                  | None => ([], Raised (KeyError "value"), tr ++ [endpoint])
                  | Some return_values =>
                      if Nat.eqb (length return_values) 0
                      then ([], Returned, tr ++ [endpoint])
                      else
                        let '(later, ending, tr') :=
                          _list_collections_generator fuel'
                            (r_nextLink results) (tr ++ [endpoint]) in
                        (return_values ++ later, ending, tr')
                  end
              end
          end
      end
  end.

(** [atlas_endpoint] of [list_collections]; an empty [skipToken] is false
    like [None]. *)
Definition collections_endpoint (api_version : string)
    (skipToken : option string) : string :=
  let atlas_endpoint :=
    (endpoint_url ++ "collections?api-version=" ++ api_version)%string in
  match skipToken with
  | Some (String c token) =>
      (atlas_endpoint ++ "&$skipToken=" ++ String c token)%string
  | _ => atlas_endpoint
  end.

(** [list_collections], its generator consumed to the end. *)
Definition list_collections (fuel : nat) (api_version : string)
    (skipToken : option string) (tr : list string)
  : list Item * GenEnd * list string :=
  _list_collections_generator fuel
    (Some (collections_endpoint api_version skipToken)) tr.

(** The server answers the URL [first] with the non-empty pages [pages],
    each at its URL and linked to the next by its "nextLink"; [after] is the
    link of the last page. *)
Fixpoint serves (tr : list string) (first : option string)
    (pages : list (string * list Item)) (after : option string) : Prop :=
  match pages with
  | [] => first = after
  | (endpoint, values) :: pages' =>
      first = Some endpoint
      /\ values <> []
      /\ exists response next,
           requests_get tr endpoint = Got response
           /\ _handle_response response
              = inr (mkResults (Some values) next)
           /\ serves (tr ++ [endpoint]) next pages' after
  end.

(** The exception that requesting [endpoint] ends in, if any: one of
    [requests.get], one of [_handle_response], or the [KeyError] of a result
    without "value". *)
Definition page_error (tr : list string) (endpoint : string) : option pyexn :=
  match requests_get tr endpoint with
  | GetRaises detail => Some (Builtin (TransportError detail))
  | Got response =>
      match _handle_response response with
      | inl e => Some e
      | inr results =>
          match r_value results with
          | None => Some (KeyError "value")
          | Some _ => None
          end
      end
  end.

End Listing.

Arguments mkResults {Item}.
Arguments r_value {Item}.
Arguments r_nextLink {Item}.
Arguments Got {HttpResponse}.
Arguments GetRaises {HttpResponse}.
Arguments _list_collections_generator {Item HttpResponse}.
Arguments list_collections {Item HttpResponse}.
Arguments serves {Item HttpResponse}.
Arguments page_error {Item HttpResponse}.

(** A server with two pages of collection names, and a third address that
    answers with an empty page linked to the first. *)
Definition two_pages_get (tr : list string) (endpoint : string)
  : GetOutcome nat :=
  if String.eqb endpoint "https://purview/collections?api-version=2019-11-01-preview"
  then Got 1
  else if String.eqb endpoint "https://purview/page2" then Got 2
  else if String.eqb endpoint "https://purview/empty" then Got 3
  else GetRaises "no route".

Definition two_pages_handle (response : nat) : presult (Results string) :=
  match response with
  | 1 => inr (mkResults (Some ["root"; "fin"]) (Some "https://purview/page2"))
  | 2 => inr (mkResults (Some ["hr"]) None)
  | 3 => inr (mkResults (Some [])
                (Some "https://purview/collections?api-version=2019-11-01-preview"))
  | _ => inl (HandleResponseError "404")
  end.

(** A server whose first page links to an address that answers with an
    error. *)
Definition failing_get (tr : list string) (endpoint : string)
  : GetOutcome nat :=
  if String.eqb endpoint "https://purview/a" then Got 1 else Got 0.

Definition failing_handle (response : nat) : presult (Results string) :=
  match response with
  | 1 => inr (mkResults (Some ["root"]) (Some "https://purview/b"))
  | _ => inl (HandleResponseError "500")
  end.

(* ----------------------------------------------------------------- *)
(** ** [_prepare_entity_upload] and [upload_entities] *)

Section Upload.

(** Instances of [AtlasEntity] and their [to_json], and responses of
    [requests.post]. *)
Variable AtlasEntity : Type.
Variable HttpResponse : Type.

(** The Python values a batch is made of. *)
Inductive PyValue : Type :=
| PNone
| PBool (b : bool)
| PInt (z : Z)
| PStr (s : string)
| PList (l : list PyValue)
| PDict (d : list (string * PyValue))
| PEntity (e : AtlasEntity).

Variable to_json : AtlasEntity -> PyValue.

(** [type(batch)] as a format string shows it, for the values that are
    neither a list, a dict nor an [AtlasEntity]. *)
Definition type_repr (v : PyValue) : string :=
  match v with
  | PNone => "<class 'NoneType'>"
  | PBool _ => "<class 'bool'>"
  | PInt _ => "<class 'int'>"
  | PStr _ => "<class 'str'>"
  | PList _ => "<class 'list'>"
  | PDict _ => "<class 'dict'>"
  | PEntity _ => "<class 'pyapacheatlas.core.entity.AtlasEntity'>"
  end.

Definition _prepare_entity_upload (batch : PyValue) : presult PyValue :=
  let required_keys := ["entities"] in
  match batch with
  | PList l =>
      let dict_batch :=
        map (fun e => match e with PEntity x => to_json x | _ => e end) l in
      inr (PDict [("entities", PList dict_batch)])
  | PDict d =>
      let current_keys := map fst d in
      if negb (existsb (fun req => existsb (String.eqb req) current_keys)
                 required_keys)
      then inr (PDict [("entities", PList [batch])])
      else inr batch
  | PEntity x => inr (PDict [("entities", PList [to_json x])])
  | _ =>
      inl (NotImplementedError
             ("Uploading type: " ++ type_repr batch ++ " is not supported."))
  end.

(** [v[key]] and [len(v)]. *)
Definition subscript (v : PyValue) (key : string) : presult PyValue :=
  match v with
  | PDict d =>
      match Dict.get key d with
      | Some x => inr x
      | None => inl (KeyError key)
      end
  | _ => inl (Builtin (TypeError "object is not subscriptable"))
  end.

Definition py_len (v : PyValue) : presult Z :=
  match v with
  | PList l => inr (Z.of_nat (length l))
  | PDict d => inr (Z.of_nat (length d))
  | PStr s => inr (Z.of_nat (String.length s))
  | _ => inl (Builtin (TypeError "object has no len()"))
  end.

(** A POST request: [requests.post(atlas_endpoint, json=..., params=...)]. *)
Record Post : Type := mkPost {
  post_url : string;
  post_json : PyValue;
  post_api_version : string
}.

Inductive PostOutcome : Type :=
| Posted (response : HttpResponse)
| PostRaises (detail : string).

(** [self.endpoint_url], the behaviour of [requests.post] after the requests
    sent so far, [_handle_response], and [batch_dependent_entities], which
    cuts the entities into batches. *)
Variable endpoint_url : string.
Variable requests_post : list Post -> Post -> PostOutcome.
Variable _handle_response : HttpResponse -> presult PyValue.
Variable batch_dependent_entities : PyValue -> Z -> list PyValue.

Definition UM (A : Type) : Type := list Post -> presult A * list Post.

Definition uret {A} (a : A) : UM A := fun tr => (inr a, tr).
Definition ulift {A} (r : presult A) : UM A := fun tr => (r, tr).

Definition ubind {A B} (m : UM A) (k : A -> UM B) : UM B :=
  fun tr =>
    match m tr with
    | (inl e, tr') => (inl e, tr')
    | (inr a, tr') => k a tr'
    end.

(** [_handle_response(requests.post(...))]. *)
Definition post_and_handle (p : Post) : UM PyValue :=
  fun tr =>
    match requests_post tr p with
    | Posted response => (_handle_response response, tr ++ [p])
    | PostRaises detail => (inl (Builtin (TransportError detail)), tr ++ [p])
    end.

(** The loop over the batches, from the [results] gathered so far. *)
Fixpoint post_batches (atlas_endpoint api_version : string)
    (batches : list PyValue) (results : list PyValue)
  : UM (list PyValue) :=
  match batches with
  | [] => uret results
  | batch :: batches' =>
      ubind (ulift (pbind (subscript batch "entities") py_len)) (fun _ =>
      ubind (post_and_handle (mkPost atlas_endpoint batch api_version))
        (fun temp_results =>
      post_batches atlas_endpoint api_version batches'
        (results ++ [temp_results])))
  end.

(** What [upload_entities] returns: the list of the results of the batches,
    or the result of the single request. *)
Inductive UploadResults : Type :=
| OfBatches (results : list PyValue)
| OfPayload (results : PyValue).

(** [batch_size and len(payload["entities"]) > batch_size] *)
Definition wants_batches (payload : PyValue) (batch_size : option Z)
  : presult bool :=
  match batch_size with
  | None => inr false
  | Some size =>
      if Z.eqb size 0 then inr false
      else pbind (subscript payload "entities") (fun entities =>
           pbind (py_len entities) (fun n => inr (Z.ltb size n)))
  end.

Definition upload_entities (batch : PyValue) (collection : string)
    (batch_size : option Z) (api_version : string) : UM UploadResults :=
  let atlas_endpoint :=
    (endpoint_url ++ "catalog/api/collections/" ++ collection
       ++ "/entity/bulk")%string in
  ubind (ulift (_prepare_entity_upload batch)) (fun payload =>
  ubind (ulift (wants_batches payload batch_size)) (fun batched =>
  if batched then
    ubind (ulift (subscript payload "entities")) (fun entities =>
    let batches :=
      map (fun x => PDict [("entities", x)])
        (batch_dependent_entities entities
           (match batch_size with Some size => size | None => 0%Z end)) in
    ubind (post_batches atlas_endpoint api_version batches [])
      (fun results => uret (OfBatches results)))
  else
    ubind (post_and_handle (mkPost atlas_endpoint payload api_version))
      (fun results => uret (OfPayload results)))).

End Upload.

Arguments PNone {AtlasEntity}.
Arguments PBool {AtlasEntity}.
Arguments PInt {AtlasEntity}.
Arguments PStr {AtlasEntity}.
Arguments PList {AtlasEntity}.
Arguments PDict {AtlasEntity}.
Arguments PEntity {AtlasEntity}.
Arguments _prepare_entity_upload {AtlasEntity}.
Arguments subscript {AtlasEntity}.
Arguments py_len {AtlasEntity}.
Arguments mkPost {AtlasEntity}.
Arguments post_url {AtlasEntity}.
Arguments post_json {AtlasEntity}.
Arguments post_api_version {AtlasEntity}.
Arguments Posted {HttpResponse}.
Arguments PostRaises {HttpResponse}.
Arguments post_and_handle {AtlasEntity HttpResponse}.
Arguments post_batches {AtlasEntity HttpResponse}.
Arguments OfBatches {AtlasEntity}.
Arguments OfPayload {AtlasEntity}.
Arguments wants_batches {AtlasEntity}.
Arguments upload_entities {AtlasEntity HttpResponse}.

(** The requests of the batches [xs], sent in turn after [tr], are answered,
    and [_handle_response] gives [results] for them. *)
Fixpoint answers {AtlasEntity HttpResponse : Type}
    (requests_post : list (Post AtlasEntity) -> Post AtlasEntity
                     -> PostOutcome HttpResponse)
    (_handle_response : HttpResponse -> presult (PyValue AtlasEntity))
    (tr : list (Post AtlasEntity)) (posts : list (Post AtlasEntity))
    (results : list (PyValue AtlasEntity)) : Prop :=
  match posts, results with
  | [], [] => True
  | p :: posts', r :: results' =>
      (exists response,
         requests_post tr p = Posted response
         /\ _handle_response response = inr r)
      /\ answers requests_post _handle_response (tr ++ [p]) posts' results'
  | _, _ => False
  end.

(** The exception that sending [p] ends in, if any. *)
Definition post_error {AtlasEntity HttpResponse : Type}
    (requests_post : list (Post AtlasEntity) -> Post AtlasEntity
                     -> PostOutcome HttpResponse)
    (_handle_response : HttpResponse -> presult (PyValue AtlasEntity))
    (tr : list (Post AtlasEntity)) (p : Post AtlasEntity) : option pyexn :=
  match requests_post tr p with
  | PostRaises detail => Some (Builtin (TransportError detail))
  | Posted response =>
      match _handle_response response with
      | inl e => Some e
      | inr _ => None
      end
  end.

(** The request of [upload_entities] for one batch of entities. *)
Definition bulk_post {AtlasEntity : Type} (endpoint_url collection
    api_version : string) (x : PyValue AtlasEntity) : Post AtlasEntity :=
  mkPost
    (endpoint_url ++ "catalog/api/collections/" ++ collection
       ++ "/entity/bulk")%string
    (PDict [("entities", x)]) api_version.

(** [len(x)] does not raise. *)
Definition has_len {AtlasEntity : Type} (x : PyValue AtlasEntity) : bool :=
  match x with
  | PList _ | PDict _ | PStr _ => true
  | _ => false
  end.

(** Sample collaborators: entities are numbers, [to_json] wraps the number
    in a dict, the batches hold one entity each, and a response is its
    status code. *)
Definition number_to_json (n : nat) : PyValue nat :=
  PDict [("guid", PInt (Z.of_nat n))].

Definition one_by_one (entities : PyValue nat) (size : Z)
  : list (PyValue nat) :=
  match entities with
  | PList l => map (fun x => PList [x]) l
  | _ => []
  end.

Definition post_ok (tr : list (Post nat)) (p : Post nat) : PostOutcome nat :=
  Posted 200.

Definition post_second_fails (tr : list (Post nat)) (p : Post nat)
  : PostOutcome nat :=
  match tr with
  | [] => Posted 200
  | _ :: _ => Posted 500
  end.

Definition handle_status (response : nat) : presult (PyValue nat) :=
  if Nat.eqb response 200 then inr (PDict [("status", PStr "ok")])
  else inl (HandleResponseError "500").

(* ================================================================= *)
(** * Properties *)

(** ** Trees *)

Lemma list_sum_map_add {A} (f g : A -> nat) (l : list A) :
  list_sum (map (fun a => f a + g a) l) = list_sum (map f l) + list_sum (map g l).
Proof.
  induction l as [|a l IH]; simpl; [reflexivity | rewrite IH; lia].
Qed.

Lemma list_sum_map_ext_in {A} (f g : A -> nat) (l : list A) :
  Forall (fun a => f a = g a) l -> list_sum (map f l) = list_sum (map g l).
Proof.
  induction 1 as [|a l Ha _ IH]; simpl; congruence.
Qed.

Lemma list_sum_map_mul_r {A} (f : A -> nat) (k : nat) (l : list A) :
  list_sum (map (fun a => f a * k) l) = list_sum (map f l) * k.
Proof.
  induction l as [|a l IH]; simpl; [reflexivity | rewrite IH; lia].
Qed.

(** Attaching [new] below [p] adds one copy of [new] per node called [p]. *)
Lemma size_attach (p : nat) (new t : AnyTree.Tree) :
  AnyTree.size (AnyTree.attach p new t)
  = AnyTree.size t + AnyTree.count_id p t * AnyTree.size new.
Proof.
  induction t as [i l cs IH] using Tree_nested_ind.
  simpl. rewrite map_app, list_sum_app, map_map.
  rewrite (@list_sum_map_ext_in _ (fun c => AnyTree.size (AnyTree.attach p new c))
             (fun c => AnyTree.size c + AnyTree.count_id p c * AnyTree.size new) _ IH).
  rewrite list_sum_map_add, list_sum_map_mul_r.
  destruct (Nat.eqb i p); simpl; lia.
Qed.

Lemma count_id_attach (q p : nat) (new t : AnyTree.Tree) :
  AnyTree.count_id q (AnyTree.attach p new t)
  = AnyTree.count_id q t + AnyTree.count_id p t * AnyTree.count_id q new.
Proof.
  induction t as [i l cs IH] using Tree_nested_ind.
  simpl. rewrite map_app, list_sum_app, map_map.
  rewrite (@list_sum_map_ext_in _
             (fun c => AnyTree.count_id q (AnyTree.attach p new c))
             (fun c => AnyTree.count_id q c
                       + AnyTree.count_id p c * AnyTree.count_id q new) _ IH).
  rewrite list_sum_map_add, list_sum_map_mul_r.
  destruct (Nat.eqb i p); simpl; lia.
Qed.

Lemma tree_id_attach (p : nat) (new t : AnyTree.Tree) :
  AnyTree.tree_id (AnyTree.attach p new t) = AnyTree.tree_id t.
Proof. destruct t; reflexivity. Qed.

(** [RenderTree] yields one row per node. *)
Lemma render_rows_length (t : AnyTree.Tree) :
  forall continues,
    length (AnyTree.render_rows continues t) = AnyTree.size t.
Proof.
  induction t as [i l cs IH] using Tree_nested_ind.
  intros continues. simpl. f_equal.
  induction IH as [|c cs Hc _ IHcs]; [reflexivity|].
  destruct cs as [|c' cs'].
  - simpl. rewrite Hc. lia.
  - rewrite length_app, Hc.
    change (list_sum (map AnyTree.size (c :: c' :: cs')))
      with (AnyTree.size c + list_sum (map AnyTree.size (c' :: cs'))).
    f_equal. exact IHcs.
Qed.

(** ** Heaps in which every node but the first hangs below an older node *)

Lemma tree_of_unfold (h : AnyTree.Heap) (r : nat) :
  AnyTree.tree_of h r
  = fold_left attach_step (enumerate h)
      (AnyTree.T r (AnyTree.n_name (nth r h (AnyTree.mkNode EmptyString None))) []).
Proof.
  reflexivity.
Qed.

Lemma older_parents_tail k o l :
  older_parents k (o :: l) -> older_parents (S k) l.
Proof.
  intros H i o' Hi. destruct (H (S i) o' Hi) as [p [Hp Hlt]].
  exists p. split; [assumption | lia].
Qed.

Lemma fold_attach_counts (l : list AnyTree.NodeObj) :
  forall k t,
    (forall q, AnyTree.count_id q t = if Nat.ltb q k then 1 else 0) ->
    AnyTree.size t = k ->
    older_parents k l ->
    let t' := fold_left attach_step (enumerate_from k l) t in
    (forall q, AnyTree.count_id q t' = if Nat.ltb q (k + length l) then 1 else 0)
    /\ AnyTree.size t' = k + length l
    /\ AnyTree.tree_id t' = AnyTree.tree_id t.
Proof.
  induction l as [|o l IH]; intros k t Hcount Hsize Hold; simpl.
  - rewrite Nat.add_0_r. auto.
  - destruct (Hold 0 o eq_refl) as [p [Hp Hlt]].
    rewrite Hp.
    assert (Hp1 : AnyTree.count_id p t = 1).
    { rewrite Hcount. destruct (Nat.ltb_spec p k); [reflexivity | lia]. }
    destruct (IH (S k)
                (AnyTree.attach p (AnyTree.T k (AnyTree.n_name o) []) t))
      as [Hc [Hs Hi]].
    + intros q. rewrite count_id_attach, Hp1, Hcount. simpl.
      destruct (Nat.eqb_spec k q), (Nat.ltb_spec q k), (Nat.ltb_spec q (S k));
        lia.
    + rewrite size_attach, Hp1, Hsize. simpl. lia.
    + eapply older_parents_tail; eassumption.
    + rewrite tree_id_attach in Hi.
      replace (k + S (length l)) with (S k + length l) by lia.
      auto.
Qed.

(** The tree below the first node of such a heap holds every node once. *)
Lemma tree_of_counts (n0 : AnyTree.NodeObj) (rest : list AnyTree.NodeObj) :
  AnyTree.n_parent n0 = None ->
  older_parents 1 rest ->
  let t := AnyTree.tree_of (n0 :: rest) 0 in
  (forall q, AnyTree.count_id q t = if Nat.ltb q (length (n0 :: rest)) then 1 else 0)
  /\ AnyTree.size t = length (n0 :: rest)
  /\ AnyTree.tree_id t = 0.
Proof.
  intros Hroot Hold. rewrite tree_of_unfold.
  unfold enumerate. simpl. rewrite Hroot.
  apply (@fold_attach_counts rest 1 (AnyTree.T 0 (AnyTree.n_name n0) [])).
  - intros q. simpl. destruct q; reflexivity.
  - reflexivity.
  - assumption.
Qed.

(** ** The loop of [_hierarchy] in closed form *)

Lemma enumerate_from_length {A} (l : list A) k :
  length (enumerate_from k l) = length l.
Proof. revert k; induction l; simpl; auto. Qed.

Lemma hierarchy_loop_bound (first : string) (rest : Directory) :
  forall k h,
    1 <= k -> length h = k ->
    foldM hierarchy_body (enumerate_from k rest)
      (h, mkLocals (Some 0) (Some first) (Some (k - 1)))
    = ok (h ++ map (node_for first) (enumerate_from k rest),
          mkLocals (Some 0) (Some first) (Some (k + length rest - 1))).
Proof.
  induction rest as [|[coll value] rest IH]; intros k h Hk Hlen.
  - simpl. rewrite app_nil_r, Nat.add_0_r. reflexivity.
  - simpl. destruct (Nat.eqb_spec k 0) as [->|_]; [lia|].
    unfold AnyTree.Node.
    destruct (option_string_eqb (e_parentCollection value) (Some first)); simpl;
      rewrite Hlen;
      replace (Some k) with (Some (S k - 1)) by (f_equal; lia);
      rewrite IH by (rewrite ?length_app; simpl; lia);
      replace (S k + length rest - 1) with (k + S (length rest) - 1) by lia;
      rewrite <- app_assoc; reflexivity.
Qed.

Lemma hierarchy_build_ready (collection_list : Directory) :
  hierarchy_ready collection_list = true ->
  hierarchy_build collection_list
  = ok (heap_of collection_list, locals_of collection_list).
Proof.
  destruct collection_list as [|[first v0] [|[second v1] rest]]; intros Hready.
  - discriminate.
  - reflexivity.
  - simpl in Hready. unfold hierarchy_build, enumerate. simpl.
    rewrite Hready. simpl.
    rewrite (@hierarchy_loop_bound first rest 2) by (simpl; lia).
    replace (2 + length rest - 1) with (S (length rest)) by lia.
    reflexivity.
Qed.

Lemma hierarchy_build_not_ready (collection_list : Directory) :
  collection_list <> [] ->
  hierarchy_ready collection_list = false ->
  hierarchy_build collection_list = raise (UnboundLocalError "child").
Proof.
  destruct collection_list as [|[first v0] [|[second v1] rest]];
    intros Hne Hready.
  - congruence.
  - discriminate.
  - simpl in Hready. unfold hierarchy_build, enumerate. simpl.
    rewrite Hready. reflexivity.
Qed.

Lemma heap_of_older_parents first (rest : Directory) :
  older_parents 1 (map (node_for first) (enumerate_from 1 rest)).
Proof.
  assert (H : forall k, 1 <= k ->
            older_parents k (map (node_for first) (enumerate_from k rest))).
  { induction rest as [|[coll value] rest IH]; intros k Hk i o Hi.
    - destruct i; discriminate.
    - destruct i as [|i]; simpl in Hi.
      + injection Hi as <-.
        destruct (Nat.eqb_spec k 0); [lia|].
        destruct (option_string_eqb _ _); eexists; split; try reflexivity; lia.
      + destruct (IH (S k) (le_S _ _ Hk) i o Hi) as [p [Hp Hlt]].
        exists p. split; [assumption | lia]. }
  apply H. lia.
Qed.

(** ** The directory *)

Lemma dict_set_keys_in {V} (k : string) (v : V) (d : Dict.t V) (x : string) :
  In x (Dict.keys (Dict.set k v d)) <-> x = k \/ In x (Dict.keys d).
Proof.
  induction d as [|[k' v'] d IH]; simpl.
  - intuition.
  - destruct (String.eqb_spec k k') as [->|Hne]; simpl.
    + intuition.
    + rewrite IH. intuition.
Qed.

Lemma dict_set_keys_nodup {V} (k : string) (v : V) (d : Dict.t V) :
  NoDup (Dict.keys d) -> NoDup (Dict.keys (Dict.set k v d)).
Proof.
  induction d as [|[k' v'] d IH]; simpl; intros Hnd.
  - constructor; [intros [] | constructor].
  - inversion Hnd as [|? ? Hnotin Hnd']; subst.
    destruct (String.eqb_spec k k') as [->|Hne]; simpl.
    + constructor; assumption.
    + constructor; [|auto].
      intros Hin. apply dict_set_keys_in in Hin. destruct Hin; congruence.
Qed.

Lemma dict_set_length_ge {V} (k : string) (v : V) (d : Dict.t V) :
  length d <= length (Dict.set k v d).
Proof.
  induction d as [|[k' v'] d IH]; simpl; [lia|].
  destruct (String.eqb k k'); simpl; lia.
Qed.

Lemma dict_set_length_pos {V} (k : string) (v : V) (d : Dict.t V) :
  1 <= length (Dict.set k v d).
Proof.
  destruct d as [|[k' v'] d]; simpl; [lia|].
  destruct (String.eqb k k'); simpl; lia.
Qed.

Lemma get_final_collection_names_unfold (listing : list CollectionRecord) :
  _get_final_collection_names listing
  = fold_left directory_step (enumerate listing) [].
Proof.
  unfold _get_final_collection_names. generalize (@nil (string * DirEntry)).
  unfold enumerate. generalize 0.
  induction listing as [|coll listing IH]; intros k d; simpl; [reflexivity|].
  rewrite <- IH. destruct (parentCollection coll); reflexivity.
Qed.

Lemma directory_fold_keys (listing : list CollectionRecord) :
  forall k (d : Directory),
    NoDup (Dict.keys d) ->
    let d' := fold_left directory_step (enumerate_from k listing) d in
    NoDup (Dict.keys d')
    /\ (forall x, In x (Dict.keys d')
                  <-> In x (Dict.keys d) \/ In x (map name listing))
    /\ length d <= length d'.
Proof.
  induction listing as [|coll listing IH]; intros k d Hnd; simpl.
  - intuition.
  - destruct (IH (S k) (Dict.set (name coll)
                  (mkEntry (friendlyName coll) k (parentCollection coll)) d))
      as [Hnd' [Hin Hlen]].
    + apply dict_set_keys_nodup. assumption.
    + split; [assumption|]. split.
      * intros x. rewrite Hin, dict_set_keys_in. intuition.
      * etransitivity; [apply dict_set_length_ge | exact Hlen].
Qed.

(** The directory has one item per distinct "name" of the listing. *)
Lemma directory_keys (listing : list CollectionRecord) :
  NoDup (Dict.keys (_get_final_collection_names listing))
  /\ (forall x, In x (Dict.keys (_get_final_collection_names listing))
                <-> In x (map name listing)).
Proof.
  rewrite get_final_collection_names_unfold.
  destruct (@directory_fold_keys listing 0 [] (NoDup_nil _)) as [Hnd [Hin _]].
  split; [exact Hnd|]. intros x. rewrite (Hin x). simpl. intuition.
Qed.

Lemma directory_length (listing : list CollectionRecord) :
  length (_get_final_collection_names listing)
  = length (nodup string_dec (map name listing)).
Proof.
  destruct (directory_keys listing) as [Hnd Hin].
  rewrite <- (length_map fst). fold (Dict.keys (_get_final_collection_names listing)).
  apply Nat.le_antisymm; apply NoDup_incl_length.
  - assumption.
  - intros x Hx. apply nodup_In, Hin, Hx.
  - apply NoDup_nodup.
  - intros x Hx. apply Hin. apply nodup_In in Hx. exact Hx.
Qed.

Lemma directory_nil_iff (listing : list CollectionRecord) :
  _get_final_collection_names listing = [] <-> listing = [].
Proof.
  split.
  - intros Hnil. destruct listing as [|coll listing]; [reflexivity|].
    destruct (directory_keys (coll :: listing)) as [_ Hin].
    rewrite Hnil in Hin. destruct (proj2 (Hin (name coll))). left. reflexivity.
  - intros ->. reflexivity.
Qed.

Lemma nth_error_enumerate_from {A} (l : list A) :
  forall s k,
    nth_error (enumerate_from s l) k
    = option_map (fun a => (s + k, a)) (nth_error l k).
Proof.
  induction l as [|a l IH]; intros s [|k]; simpl; try reflexivity.
  - rewrite Nat.add_0_r. reflexivity.
  - rewrite IH. replace (S s + k) with (s + S k) by lia. reflexivity.
Qed.

Lemma heap_of_length (collection_list : Directory) :
  length (heap_of collection_list) = length collection_list.
Proof.
  destruct collection_list as [|[first v0] rest]; [reflexivity|].
  unfold heap_of, enumerate. rewrite length_map, enumerate_from_length.
  reflexivity.
Qed.

Lemma heap_of_nth (first : string) (v0 : DirEntry) (rest : Directory) k item :
  nth_error ((first, v0) :: rest) k = Some item ->
  nth_error (heap_of ((first, v0) :: rest)) k = Some (node_for first (k, item)).
Proof.
  intros Hk. unfold heap_of, enumerate.
  rewrite nth_error_map, nth_error_enumerate_from, Hk. reflexivity.
Qed.

(** When the loop succeeds, the tree below [root] has one node per item of
    the directory. *)
Lemma hierarchy_tree_counts (collection_list : Directory) :
  hierarchy_ready collection_list = true ->
  let t := AnyTree.tree_of (heap_of collection_list) 0 in
  (forall q, AnyTree.count_id q t
             = if Nat.ltb q (length collection_list) then 1 else 0)
  /\ AnyTree.size t = length collection_list
  /\ AnyTree.tree_id t = 0.
Proof.
  destruct collection_list as [|[first v0] rest]; [discriminate|].
  intros _. rewrite <- (heap_of_length ((first, v0) :: rest)).
  unfold heap_of, enumerate. simpl map.
  apply tree_of_counts; [reflexivity | apply heap_of_older_parents].
Qed.

Lemma hierarchy_ready_locals (collection_list : Directory) :
  hierarchy_ready collection_list = true ->
  root (locals_of collection_list) = Some 0.
Proof.
  destruct collection_list as [|[first v0] [|[second v1] rest]];
    [discriminate | reflexivity | reflexivity].
Qed.

Lemma hierarchy_result (listing : list CollectionRecord) :
  hierarchy_ready (_get_final_collection_names listing) = true ->
  hierarchy_tree listing
  = ok (AnyTree.tree_of (heap_of (_get_final_collection_names listing)) 0)
  /\ _hierarchy listing
     = ok (map (fun '(pre, node) => (pre ++ AnyTree.tree_label node)%string)
             (AnyTree.RenderTree
                (heap_of (_get_final_collection_names listing)) 0)).
Proof.
  intros Hready. unfold hierarchy_tree, _hierarchy.
  rewrite (hierarchy_build_ready _ Hready). simpl.
  rewrite (hierarchy_ready_locals _ Hready). split; reflexivity.
Qed.

Lemma hierarchy_failure (listing : list CollectionRecord) :
  hierarchy_ready (_get_final_collection_names listing) = false ->
  _hierarchy listing
  = raise (UnboundLocalError
             match listing with [] => "root" | _ :: _ => "child" end).
Proof.
  intros Hready. unfold _hierarchy.
  destruct listing as [|coll listing]; [reflexivity|].
  rewrite hierarchy_build_not_ready; [reflexivity | | assumption].
  intros Hnil. apply directory_nil_iff in Hnil. discriminate.
Qed.

(* ----------------------------------------------------------------- *)
(** ** C10: an empty listing *)

(** C10.  With no collection in the account, [_hierarchy] raises an
    unbound-variable error for [root], and so does [list_collections_new]
    with [hierarchy] set.  The listing that decides is the one [_hierarchy]
    requests for itself, after the one [list_collections_new] has requested:
    when both requests are answered, the call raises that error exactly when
    the second answer holds no record, whatever the first answer holds. *)
Theorem C10_empty_listing_unbound_root :
  _hierarchy [] = raise (UnboundLocalError "root")
  /\ forall (endpoint_url : string)
       (requests_get : list string -> string -> result (list CollectionRecord))
       (api_version : string) (only_names : bool) (skipToken : option string)
       (gets : list string) (fetched refetched : list CollectionRecord),
       requests_get gets (listing_endpoint endpoint_url api_version skipToken)
       = ok fetched ->
       requests_get
         (gets ++ [listing_endpoint endpoint_url api_version skipToken])
         (listing_endpoint endpoint_url default_api_version None)
       = ok refetched ->
       snd (list_collections_new endpoint_url requests_get api_version true
              only_names skipToken gets)
       = gets ++ [listing_endpoint endpoint_url api_version skipToken;
                  listing_endpoint endpoint_url default_api_version None]
       /\ fst (list_collections_new endpoint_url requests_get api_version true
                 only_names skipToken gets)
          = rbind (_hierarchy refetched) (fun lines => ok (Printed lines))
       /\ (fst (list_collections_new endpoint_url requests_get api_version true
                  only_names skipToken gets)
           = raise (UnboundLocalError "root")
           <-> refetched = []).
Proof.
  split; [reflexivity|].
  intros endpoint_url requests_get api_version only_names skipToken gets
    fetched refetched Hfirst Hsecond.
  assert (Hrun :
    list_collections_new endpoint_url requests_get api_version true
      only_names skipToken gets
    = (rbind (_hierarchy refetched) (fun lines => ok (Printed lines)),
       gets ++ [listing_endpoint endpoint_url api_version skipToken;
                listing_endpoint endpoint_url default_api_version None])).
  { unfold list_collections_new, hierarchy_call, get_collection_list.
    cbv zeta. rewrite Hfirst. unfold ok at 1. rewrite Hsecond. unfold ok at 1.
    rewrite <- app_assoc.
    destruct (_hierarchy refetched) as [e|lines]; reflexivity. }
  rewrite Hrun. cbn [fst snd].
  split; [reflexivity|]. split; [reflexivity|]. split.
  - destruct (hierarchy_ready (_get_final_collection_names refetched))
      eqn:Hready.
    + destruct (hierarchy_result refetched Hready) as [_ ->]. discriminate.
    + rewrite (hierarchy_failure refetched Hready).
      destruct refetched; [reflexivity | discriminate].
  - intros ->. reflexivity.
Qed.

(** The account has no collection at the first request and one at the
    second, or the other way round: the answer to the second request
    decides. *)
Lemma C10_empty_listing_witness :
  (fst (list_collections_new purview root_disappears api true false None [])
   = raise (UnboundLocalError "root")
   <-> @nil CollectionRecord = [])
  /\ (fst (list_collections_new purview root_appears api true false None [])
      = raise (UnboundLocalError "root")
      <-> listing_root = []).
Proof.
  split.
  - apply (proj2 C10_empty_listing_unbound_root purview root_disappears api
             false None [] listing_root []); reflexivity.
  - apply (proj2 C10_empty_listing_unbound_root purview root_appears api
             false None [] [] listing_root); reflexivity.
Defined.

(* ----------------------------------------------------------------- *)
(** ** C6: node count *)

(** C6, as the code has it.  When the directory is not empty and its second
    item, if any, names the first as its parent, [_hierarchy] renders a tree
    with exactly one node, and one printed line, per distinct "name" of the
    listing. *)
Theorem C6_node_count_when_built (listing : list CollectionRecord) :
  hierarchy_ready (_get_final_collection_names listing) = true ->
  exists t lines,
    hierarchy_tree listing = ok t
    /\ _hierarchy listing = ok lines
    /\ AnyTree.size t = distinct_ids listing
    /\ length lines = distinct_ids listing.
Proof.
  intros Hready.
  destruct (hierarchy_result listing Hready) as [Ht Hl].
  destruct (hierarchy_tree_counts _ Hready) as [_ [Hsize _]].
  eexists. eexists. split; [exact Ht|]. split; [exact Hl|].
  unfold distinct_ids. rewrite <- directory_length. split; [exact Hsize|].
  rewrite length_map. unfold AnyTree.RenderTree.
  rewrite render_rows_length. exact Hsize.
Qed.

Lemma C6_node_count_witness :
  exists t lines,
    hierarchy_tree listing_two_levels = ok t
    /\ _hierarchy listing_two_levels = ok lines
    /\ AnyTree.size t = distinct_ids listing_two_levels
    /\ length lines = distinct_ids listing_two_levels.
Proof.
  apply (C6_node_count_when_built listing_two_levels). reflexivity.
Defined.

(** Two distinct ids, yet no forest: the loop reads [child] before any
    assignment to it. *)
Lemma C6_counterexample :
  distinct_ids listing_dangling_second = 2
  /\ hierarchy_tree listing_dangling_second = raise (UnboundLocalError "child")
  /\ _hierarchy listing_dangling_second = raise (UnboundLocalError "child")
  /\ ~ (exists t, hierarchy_tree listing_dangling_second = ok t
                  /\ AnyTree.size t = distinct_ids listing_dangling_second).
Proof.
  repeat split; try reflexivity.
  intros [t [Ht _]]. discriminate Ht.
Qed.

(* ----------------------------------------------------------------- *)
(** ** C4: a parent id that the directory does not hold *)

(** The record "x" names a parent the listing does not hold.  As third
    record it is drawn below the unrelated node "A"; as second record it
    makes [_hierarchy] raise. *)
Lemma C4_counterexample :
  ~ In "zzz" (map name listing_dangling_third)
  /\ _hierarchy listing_dangling_third = ok ["Root"; "+-- A"; "    +-- X"]
  /\ (exists h lv,
        hierarchy_build (_get_final_collection_names listing_dangling_third)
        = ok (h, lv)
        /\ nth_error h 1 = Some (AnyTree.mkNode "A" (Some 0))
        /\ nth_error h 2 = Some (AnyTree.mkNode "X" (Some 1)))
  /\ _hierarchy listing_dangling_second = raise (UnboundLocalError "child").
Proof.
  split.
  - simpl. intros [H|[H|[H|[]]]]; discriminate H.
  - split; [reflexivity|]. split; [|reflexivity].
    eexists. eexists. split; [reflexivity|]. split; reflexivity.
Qed.

Lemma option_string_eqb_eq (a b : option string) :
  option_string_eqb a b = true <-> a = b.
Proof.
  destruct a as [x|], b as [y|]; simpl; try (split; congruence).
  rewrite String.eqb_eq. split; congruence.
Qed.

(** C4, as the code has it.  The tree has one root, the node of the first
    item of the directory.  When the loop succeeds, an item other than the
    first whose parent id is not an id of the directory is not a root: its
    node is created below the node of the item just before it, which is not
    the root either, and it occurs once in the rendered tree. *)
Theorem C4_dangling_parent_goes_below_previous
    (listing : list CollectionRecord) (k : nat) (coll : string)
    (value : DirEntry) (p : string) :
  hierarchy_ready (_get_final_collection_names listing) = true ->
  nth_error (_get_final_collection_names listing) k = Some (coll, value) ->
  1 <= k ->
  e_parentCollection value = Some p ->
  ~ In p (Dict.keys (_get_final_collection_names listing)) ->
  exists h lv,
    hierarchy_build (_get_final_collection_names listing) = ok (h, lv)
    /\ root lv = Some 0
    /\ 2 <= k
    /\ nth_error h k
       = Some (AnyTree.mkNode (e_friendlyName value) (Some (k - 1)))
    /\ AnyTree.tree_id (AnyTree.tree_of h 0) = 0
    /\ AnyTree.count_id k (AnyTree.tree_of h 0) = 1.
Proof.
  set (collection_list := _get_final_collection_names listing).
  intros Hready Hk Hk1 Hparent Hdangling.
  exists (heap_of collection_list), (locals_of collection_list).
  split; [apply hierarchy_build_ready; assumption|].
  split; [apply hierarchy_ready_locals; assumption|].
  destruct (hierarchy_tree_counts _ Hready) as [Hcount [_ Hid]].
  assert (Hlt : k < length collection_list)
    by (apply nth_error_Some; congruence).
  destruct collection_list as [|[first v0] rest] eqn:Hdir; [discriminate|].
  assert (Hfirst : p <> first).
  { intros ->. apply Hdangling. left. reflexivity. }
  assert (Hnot : option_string_eqb (e_parentCollection value) (Some first) = false).
  { destruct (option_string_eqb _ _) eqn:E; [|reflexivity].
    apply option_string_eqb_eq in E. congruence. }
  assert (Hk2 : 2 <= k).
  { destruct k as [|[|k]]; [lia | | lia].
    destruct rest as [|[second v1] rest]; [discriminate|].
    simpl in Hk. injection Hk as -> ->. simpl in Hready. congruence. }
  split; [exact Hk2|]. split.
  - rewrite (heap_of_nth _ _ _ _ _ Hk). simpl.
    destruct (Nat.eqb_spec k 0); [lia|]. rewrite Hnot. reflexivity.
  - split; [exact Hid|]. rewrite Hcount.
    destruct (Nat.ltb_spec k (length ((first, v0) :: rest))); [reflexivity|lia].
Qed.

Lemma C4_dangling_parent_witness :
  exists h lv,
    hierarchy_build (_get_final_collection_names listing_dangling_third)
    = ok (h, lv)
    /\ root lv = Some 0
    /\ 2 <= 2
    /\ nth_error h 2 = Some (AnyTree.mkNode "X" (Some (2 - 1)))
    /\ AnyTree.tree_id (AnyTree.tree_of h 0) = 0
    /\ AnyTree.count_id 2 (AnyTree.tree_of h 0) = 1.
Proof.
  apply (@C4_dangling_parent_goes_below_previous listing_dangling_third 2 "x"
           (mkEntry "X" 2 (Some "zzz")) "zzz").
  - reflexivity.
  - reflexivity.
  - lia.
  - reflexivity.
  - simpl. intros [H|[H|[H|[]]]]; discriminate H.
Defined.

(* ----------------------------------------------------------------- *)
(** ** C5: parent ids that form a cycle *)

(** A listing with the cycle X, Y, X on which [_hierarchy] raises. *)
Lemma C5_counterexample :
  on_parent_cycle (_get_final_collection_names listing_cycle_after_root) "X"
  /\ on_parent_cycle (_get_final_collection_names listing_cycle_after_root) "Y"
  /\ _hierarchy listing_cycle_after_root = raise (UnboundLocalError "child")
  /\ hierarchy_tree listing_cycle_after_root = raise (UnboundLocalError "child").
Proof.
  split; [exists 1; reflexivity|].
  split; [exists 1; reflexivity|].
  split; reflexivity.
Qed.

Lemma dict_get_nth {V} (d : Dict.t V) (x : string) (v : V) :
  Dict.get x d = Some v -> exists k, nth_error d k = Some (x, v).
Proof.
  induction d as [|[k' v'] d IH]; simpl; [discriminate|].
  destruct (String.eqb_spec x k') as [->|Hne].
  - intros [= ->]. exists 0. reflexivity.
  - intros Hget. destruct (IH Hget) as [k Hk]. exists (S k). exact Hk.
Qed.

(** C5, as the code has it.  The loop of [_hierarchy] visits each item of
    the directory once and never follows a parent id, so it ends on every
    directory.  When the directory's second item names the first as its
    parent, [_hierarchy] returns: the tree is finite, with one node per item
    of the directory, and an item that lies on a cycle of parent ids has its
    node in the tree exactly once, under its friendly name. *)
Theorem C5_cycle_members_are_nodes
    (listing : list CollectionRecord) (x : string) :
  hierarchy_ready (_get_final_collection_names listing) = true ->
  on_parent_cycle (_get_final_collection_names listing) x ->
  exists h lv lines k value parent,
    hierarchy_build (_get_final_collection_names listing) = ok (h, lv)
    /\ root lv = Some 0
    /\ _hierarchy listing = ok lines
    /\ length lines = length (_get_final_collection_names listing)
    /\ AnyTree.size (AnyTree.tree_of h 0)
       = length (_get_final_collection_names listing)
    /\ nth_error (_get_final_collection_names listing) k = Some (x, value)
    /\ nth_error h k = Some (AnyTree.mkNode (e_friendlyName value) parent)
    /\ AnyTree.count_id k (AnyTree.tree_of h 0) = 1.
Proof.
  set (collection_list := _get_final_collection_names listing).
  intros Hready [n Hcycle].
  destruct (hierarchy_result listing Hready) as [_ Hlines].
  destruct (hierarchy_tree_counts _ Hready) as [Hcount [Hsize _]].
  fold collection_list in Hlines, Hcount, Hsize.
  simpl in Hcycle. unfold parent_of in Hcycle.
  destruct (Dict.get x collection_list) as [value|] eqn:Hget; [|discriminate].
  destruct (dict_get_nth _ _ _ Hget) as [k Hk].
  assert (Hlt : k < length collection_list)
    by (apply nth_error_Some; congruence).
  destruct collection_list as [|[first v0] rest] eqn:Hdir; [discriminate|].
  exists (heap_of ((first, v0) :: rest)), (locals_of ((first, v0) :: rest)).
  eexists. exists k, value. eexists.
  split; [apply hierarchy_build_ready; assumption|].
  split; [apply hierarchy_ready_locals; assumption|].
  split; [exact Hlines|].
  split.
  { rewrite length_map. unfold AnyTree.RenderTree.
    rewrite render_rows_length. exact Hsize. }
  split; [exact Hsize|].
  split; [exact Hk|].
  split.
  - rewrite (heap_of_nth _ _ _ _ _ Hk). simpl. reflexivity.
  - rewrite Hcount.
    destruct (Nat.ltb_spec k (length ((first, v0) :: rest))); [reflexivity|lia].
Qed.

Lemma C5_cycle_witness :
  exists h lv lines k value parent,
    hierarchy_build (_get_final_collection_names listing_two_cycle) = ok (h, lv)
    /\ root lv = Some 0
    /\ _hierarchy listing_two_cycle = ok lines
    /\ length lines = length (_get_final_collection_names listing_two_cycle)
    /\ AnyTree.size (AnyTree.tree_of h 0)
       = length (_get_final_collection_names listing_two_cycle)
    /\ nth_error (_get_final_collection_names listing_two_cycle) k
       = Some ("Y", value)
    /\ nth_error h k = Some (AnyTree.mkNode (e_friendlyName value) parent)
    /\ AnyTree.count_id k (AnyTree.tree_of h 0) = 1.
Proof.
  apply (@C5_cycle_members_are_nodes listing_two_cycle "Y").
  - reflexivity.
  - exists 1. reflexivity.
Defined.

(* ================================================================= *)
(** ** Sending a list of requests *)

(** Lists: item assignment and subscripts inside the bounds. *)

Lemma replace_nth_app {A} (done : list A) (b : A) (rest : list A) (a : A) :
  replace_nth (done ++ b :: rest) (length done) a = done ++ a :: rest.
Proof.
  induction done as [|c done IH]; simpl; [reflexivity | rewrite IH; reflexivity].
Qed.

Lemma setitem_app {A} (done : list A) (b : A) (rest : list A) (a : A) :
  setitem (done ++ b :: rest) (length done) a = ok (done ++ a :: rest).
Proof.
  unfold setitem. rewrite replace_nth_app.
  destruct (Nat.ltb_spec (length done) (length (done ++ b :: rest))) as [_|H];
    [reflexivity|].
  rewrite length_app in H. simpl in H. lia.
Qed.

Lemma getitem_nat {A} (l : list A) (i : nat) (a : A) :
  nth_error l i = Some a -> getitem l (Z.of_nat i) = ok a.
Proof.
  intros H. unfold getitem.
  destruct (Z.ltb_spec (Z.of_nat i) 0) as [Hneg|_]; [lia|].
  destruct (Z.ltb_spec (Z.of_nat i) 0) as [Hneg|_]; [lia|].
  rewrite Nat2Z.id, H. reflexivity.
Qed.

Section ClientProperties.

Variable endpoint_url : string.
Variable requests_put : list Request -> Request -> PutOutcome.

Lemma forM_ext_in {A} (l : list A) (body body' : A -> M unit) :
  (forall a tr, In a l -> body a tr = body' a tr) ->
  forall tr, forM_ l body tr = forM_ l body' tr.
Proof.
  induction l as [|a l IH]; intros Hext tr; simpl; [reflexivity|].
  unfold bind. rewrite (Hext a tr (or_introl eq_refl)).
  destruct (body' a tr) as [[e|[]] tr']; [reflexivity|].
  apply IH. intros a' tr'' Hin. apply Hext. right. exact Hin.
Qed.

Lemma forM_put_send_all {A} (l : list A) (f : A -> Request) :
  forall tr,
    forM_ l (fun a => bind (put requests_put (f a)) (fun _ => ret tt)) tr
    = send_all requests_put (map f l) tr.
Proof.
  induction l as [|a l IH]; intros tr; simpl; [reflexivity|].
  unfold bind at 1. unfold bind at 1. unfold put.
  destruct (requests_put tr (f a)); simpl; [apply IH | reflexivity].
Qed.

Lemma send_all_app (rqs rqs' : list Request) :
  forall tr,
    send_all requests_put (rqs ++ rqs') tr
    = match send_all requests_put rqs tr with
      | (inl e, tr') => (inl e, tr')
      | (inr _, tr') => send_all requests_put rqs' tr'
      end.
Proof.
  induction rqs as [|rq rqs IH]; intros tr; simpl; [reflexivity|].
  destruct (requests_put tr rq); [apply IH | reflexivity].
Qed.

Lemma forM_send_all {A} (l : list A) (f : A -> list Request) :
  forall tr,
    forM_ l (fun a => send_all requests_put (f a)) tr = send_all requests_put (flat_map f l) tr.
Proof.
  induction l as [|a l IH]; intros tr; simpl; [reflexivity|].
  unfold bind. rewrite send_all_app.
  destruct (send_all requests_put (f a) tr) as [[e|[]] tr']; [reflexivity | apply IH].
Qed.

(** Either every request is answered and all are sent, or one raises: it is
    the last one sent and its exception is the result. *)
Lemma send_all_cases (rqs : list Request) :
  forall tr,
    send_all requests_put rqs tr = (ok tt, tr ++ rqs)
    \/ exists sent rq rest detail,
         rqs = sent ++ rq :: rest
         /\ requests_put (tr ++ sent) rq = Raises detail
         /\ send_all requests_put rqs tr = (raise (TransportError detail), (tr ++ sent) ++ [rq]).
Proof.
  induction rqs as [|rq rqs IH]; intros tr; simpl.
  - left. rewrite app_nil_r. reflexivity.
  - destruct (requests_put tr rq) as [status content|detail] eqn:Hput.
    + destruct (IH (tr ++ [rq])) as [Hok|[sent [rq' [rest [detail [-> [Hraise Hrun]]]]]]].
      * left. rewrite Hok, <- app_assoc. reflexivity.
      * right. exists (rq :: sent), rq', rest, detail.
        rewrite <- app_assoc in Hraise.
        split; [reflexivity|]. split; [exact Hraise|].
        rewrite Hrun. repeat rewrite <- app_assoc. reflexivity.
    + right. exists [], rq, rqs, detail. rewrite app_nil_r.
      split; [reflexivity|]. split; [exact Hput | reflexivity].
Qed.

Lemma send_all_never_raises (rqs : list Request) :
  never_raises requests_put -> forall tr, send_all requests_put rqs tr = (ok tt, tr ++ rqs).
Proof.
  intros Hnever tr. destruct (send_all_cases rqs tr)
    as [Hok|[sent [rq [rest [detail [_ [Hraise _]]]]]]]; [exact Hok|].
  destruct (Hnever (tr ++ sent) rq) as [status [content H]]. congruence.
Qed.

(** ** [create_collectiions] as a list of requests *)

Lemma resolve_body_ok (collection_list : Directory) (name : string)
    (done rest : list string) :
  forall current,
    resolve_body collection_list (done ++ current :: rest) (length done, name)
    = ok (done ++ resolve_one collection_list name current :: rest).
Proof.
  unfold resolve_body, resolve_one.
  induction collection_list as [|[coll value] collection_list IH];
    intros current; simpl; [reflexivity|].
  destruct (String.eqb name (e_friendlyName value) && negb (String.eqb name coll)
            && PyStr.contains PyStr.space name).
  - rewrite setitem_app. simpl. apply IH.
  - destruct (String.eqb name (e_friendlyName value) && negb (String.eqb name coll)).
    + rewrite setitem_app. simpl. apply IH.
    + simpl. apply IH.
Qed.

Lemma resolve_names_from (collection_list : Directory) (rest : list string) :
  forall done,
    foldM (resolve_body collection_list)
      (enumerate_from (length done) rest) (done ++ rest)
    = ok (done ++ map (fun n => resolve_one collection_list n n) rest).
Proof.
  induction rest as [|n rest IH]; intros done; [reflexivity|].
  cbn [enumerate_from foldM map].
  rewrite resolve_body_ok. unfold ok at 1. cbn [rbind].
  replace (S (length done))
    with (length (done ++ [resolve_one collection_list n n]))
    by (rewrite length_app; simpl; lia).
  replace (done ++ resolve_one collection_list n n :: rest)
    with ((done ++ [resolve_one collection_list n n]) ++ rest)
    by (rewrite <- app_assoc; reflexivity).
  rewrite IH, <- app_assoc. reflexivity.
Qed.

Lemma resolve_names_ok (collection_list : Directory) (final_names : list string) :
  resolve_names collection_list final_names
  = ok (map (fun n => resolve_one collection_list n n) final_names).
Proof.
  exact (resolve_names_from collection_list final_names []).
Qed.

Lemma enumerate_from_in {A} (l : list A) :
  forall s i a,
    In (i, a) (enumerate_from s l) -> s <= i < s + length l.
Proof.
  induction l as [|b l IH]; intros s i a; simpl; [intros []|].
  intros [[= <- <-]|Hin]; [lia|]. apply IH in Hin. lia.
Qed.

Lemma nth_error_nth_lt {A} (l : list A) (i : nat) (d : A) :
  i < length l -> nth_error l i = Some (nth i l d).
Proof.
  intros Hlt. apply nth_error_nth'. exact Hlt.
Qed.

Lemma issue_body_request (api_version collection_to_start_on : string)
    (final_names updated_final_names : list string) (item : nat * string)
    (tr : list Request) :
  length final_names = length updated_final_names ->
  In item (enumerate_from 1 updated_final_names) ->
  issue_body endpoint_url requests_put api_version collection_to_start_on
    final_names updated_final_names item tr
  = bind (put requests_put
            (issue_request endpoint_url api_version collection_to_start_on final_names
               updated_final_names item))
      (fun _ => ret tt) tr.
Proof.
  intros Hlen Hin. destruct item as [index name].
  apply enumerate_from_in in Hin.
  unfold issue_body, issue_request, working_id.
  destruct (Nat.eqb_spec index 1) as [->|Hne].
  - change (Z.of_nat 1 - 1)%Z with (Z.of_nat 0).
    unfold bind at 1, lift.
    rewrite (getitem_nat final_names 0 (nth 0 final_names EmptyString))
      by (apply nth_error_nth_lt; lia).
    destruct (PyStr.contains PyStr.space name); reflexivity.
  - replace (Z.of_nat index - 2)%Z with (Z.of_nat (index - 2)) by lia.
    unfold bind at 1, lift.
    rewrite (getitem_nat updated_final_names (index - 2)
               (nth (index - 2) updated_final_names EmptyString))
      by (apply nth_error_nth_lt; lia).
    destruct (PyStr.contains PyStr.space name); reflexivity.
Qed.

Lemma create_path_requests (api_version collection_to_start_on : string)
    (collection_list : Directory) (name : string) (tr : list Request) :
  create_path endpoint_url requests_put api_version collection_to_start_on
    collection_list name tr
  = send_all requests_put (path_requests endpoint_url api_version collection_to_start_on
                collection_list name) tr.
Proof.
  unfold create_path, path_requests.
  rewrite resolve_names_ok. unfold bind at 1, lift. simpl.
  rewrite <- forM_put_send_all.
  apply forM_ext_in. intros item tr' Hin.
  apply issue_body_request; [rewrite length_map; reflexivity | exact Hin].
Qed.

(** [create_collectiions] in closed form. *)
Lemma create_collectiions_requests (listing : list CollectionRecord)
    (collection_to_start_on : string) (collection_names : option (list string))
    (api_version : string) (tr : list Request) :
  create_collectiions endpoint_url requests_put listing collection_to_start_on
    collection_names api_version tr
  = let collection_list := _get_final_collection_names listing in
    match snd (resolve_start collection_list collection_to_start_on) with
    | [] =>
        (raise (start_not_found
                  (fst (resolve_start collection_list collection_to_start_on))),
         tr)
    | _ :: _ =>
        match collection_names with
        | None => (raise not_iterable, tr)
        | Some names =>
            send_all requests_put
              (flat_map
                 (path_requests endpoint_url api_version
                    (fst (resolve_start collection_list collection_to_start_on))
                    collection_list)
                 names) tr
        end
    end.
Proof.
  unfold create_collectiions. cbv zeta.
  destruct (resolve_start (_get_final_collection_names listing)
              collection_to_start_on) as [start check].
  simpl. destruct check as [|c check]; [reflexivity|].
  destruct collection_names as [names|]; [|reflexivity].
  rewrite <- forM_send_all. apply forM_ext_in.
  intros name tr' _. apply create_path_requests.
Qed.

(** ** [create_collectiions2] as a list of requests *)

Lemma getitem_previous {A} (l : list A) (i : nat) (d : A) :
  i < length l ->
  getitem l (Z.of_nat i - 1) = ok (nth (previous_index (length l) i) l d).
Proof.
  intros Hlt. unfold previous_index. destruct i as [|i].
  - unfold getitem. change (Z.of_nat 0 - 1 <? 0)%Z with true. cbv iota.
    destruct (Z.ltb_spec (Z.of_nat 0 - 1 + Z.of_nat (length l)) 0) as [Hneg|_];
      [lia|].
    replace (Z.to_nat (Z.of_nat 0 - 1 + Z.of_nat (length l)))
      with (length l - 1) by lia.
    rewrite (nth_error_nth_lt l (length l - 1) d) by lia. reflexivity.
  - replace (Z.of_nat (S i) - 1)%Z with (Z.of_nat i) by lia.
    simpl. rewrite Nat.sub_0_r.
    apply getitem_nat, nth_error_nth_lt. lia.
Qed.

Lemma really_final_from (l : list (string * PathEntry))
    (items : list (nat * (string * PathEntry))) :
  (forall i v, In (i, v) items -> i < length l) ->
  forall acc,
    foldM
      (fun really_final_list '(index, value) =>
         match p_parentCollection (snd value) with
         | None =>
             rbind (getitem l (Z.of_nat index - 1))
               (fun previous =>
                  ok (really_final_list
                        ++ [(fst value, p_friendlyName (snd value), fst previous)]))
         | Some parent =>
             ok (really_final_list
                   ++ [(fst value, p_friendlyName (snd value), parent)])
         end)
      items acc
    = ok (acc ++ map (really_final_item l) items).
Proof.
  induction items as [|[index value] items IH]; intros Hin acc.
  - simpl. rewrite app_nil_r. reflexivity.
  - cbn [foldM map really_final_item].
    assert (Hlt : index < length l) by (apply (Hin index value); left; reflexivity).
    assert (Hin' : forall i v, In (i, v) items -> i < length l)
      by (intros i v H; apply (Hin i v); right; exact H).
    destruct (p_parentCollection (snd value)) as [parent|].
    + unfold ok at 1. cbn [rbind]. rewrite (IH Hin'), <- app_assoc. reflexivity.
    + rewrite (getitem_previous l index no_path_item Hlt).
      unfold ok at 1. cbn [rbind]. unfold ok at 1. cbn [rbind].
      rewrite (IH Hin'), <- app_assoc. reflexivity.
Qed.

Lemma really_final_ok (l : list (string * PathEntry)) :
  really_final l = ok (map (really_final_item l) (enumerate l)).
Proof.
  unfold really_final. rewrite really_final_from; [reflexivity|].
  intros i v Hin. apply enumerate_from_in in Hin. lia.
Qed.

Lemma create_path2_requests (api_version collection_to_start_on : string)
    (collection_list : Directory) (name : string) (tr : list Request) :
  create_path2 endpoint_url requests_put api_version collection_to_start_on
    collection_list name tr
  = send_all requests_put (path_requests2 endpoint_url api_version collection_to_start_on
                collection_list name) tr.
Proof.
  unfold create_path2, path_requests2. cbv zeta.
  rewrite really_final_ok. unfold bind at 1, lift, ok at 1.
  rewrite <- forM_put_send_all.
  apply forM_ext_in. intros [[item0 item1] item2] tr' _. reflexivity.
Qed.

(** [create_collectiions2] in closed form. *)
Lemma create_collectiions2_requests (listing : list CollectionRecord)
    (collection_to_start_on : string) (collection_names : option (list string))
    (api_version : string) (tr : list Request) :
  create_collectiions2 endpoint_url requests_put listing collection_to_start_on
    collection_names api_version tr
  = let collection_list := _get_final_collection_names listing in
    match snd (resolve_start collection_list collection_to_start_on) with
    | [] =>
        (raise (start_not_found
                  (fst (resolve_start collection_list collection_to_start_on))),
         tr)
    | _ :: _ =>
        match collection_names with
        | None => (raise not_iterable, tr)
        | Some names =>
            send_all requests_put
              (flat_map
                 (path_requests2 endpoint_url api_version
                    (fst (resolve_start collection_list collection_to_start_on))
                    collection_list)
                 names) tr
        end
    end.
Proof.
  unfold create_collectiions2. cbv zeta.
  destruct (resolve_start (_get_final_collection_names listing)
              collection_to_start_on) as [start check].
  simpl. destruct check as [|c check]; [reflexivity|].
  destruct collection_names as [names|]; [|reflexivity].
  rewrite <- forM_send_all. apply forM_ext_in.
  intros name tr' _. apply create_path2_requests.
Qed.

End ClientProperties.

(** ** Resolving the starting collection *)

Lemma resolve_start_unfold (collection_list : Directory) (s : string) :
  resolve_start collection_list s
  = fold_left start_step collection_list (PyStr.strip s, []).
Proof.
  reflexivity.
Qed.

Lemma start_fold_nonempty (collection_list : Directory) :
  forall s check,
    check <> [] -> snd (fold_left start_step collection_list (s, check)) <> [].
Proof.
  induction collection_list as [|[name value] collection_list IH];
    intros s check Hne; simpl; [exact Hne|].
  destruct (String.eqb s (e_friendlyName value) || String.eqb s name).
  - apply IH. destruct check; discriminate.
  - apply IH. exact Hne.
Qed.

Lemma start_fold_empty (collection_list : Directory) (s : string) :
  snd (fold_left start_step collection_list (s, [])) = []
  <-> start_matches collection_list s = false.
Proof.
  induction collection_list as [|[name value] collection_list IH]; simpl.
  - split; reflexivity.
  - destruct (String.eqb s (e_friendlyName value) || String.eqb s name); simpl.
    + split; [|discriminate]. intros H.
      exfalso. revert H. apply start_fold_nonempty. discriminate.
    + exact IH.
Qed.

Lemma start_fold_unmatched (collection_list : Directory) (s : string) :
  start_matches collection_list s = false ->
  fold_left start_step collection_list (s, []) = (s, []).
Proof.
  induction collection_list as [|[name value] collection_list IH]; simpl;
    [reflexivity|].
  destruct (String.eqb s (e_friendlyName value) || String.eqb s name); simpl;
    [discriminate | exact IH].
Qed.

Lemma start_matches_false (collection_list : Directory) (s : string) :
  start_matches collection_list s = false
  <-> forall coll value, In (coll, value) collection_list ->
        s <> e_friendlyName value /\ s <> coll.
Proof.
  unfold start_matches. split.
  - intros H coll value Hin.
    assert (Hx : (String.eqb s (e_friendlyName value) || String.eqb s coll) = false).
    { destruct (String.eqb s (e_friendlyName value) || String.eqb s coll) eqn:E;
        [|reflexivity].
      rewrite <- H. symmetry. apply existsb_exists.
      exists (coll, value). split; assumption. }
    apply orb_false_iff in Hx. destruct Hx as [H1 H2].
    apply String.eqb_neq in H1, H2. split; assumption.
  - intros H. destruct (existsb _ _) eqn:E; [|reflexivity].
    apply existsb_exists in E. destruct E as [[coll value] [Hin Hm]].
    destruct (H coll value Hin) as [H1 H2].
    apply String.eqb_neq in H1, H2. rewrite H1, H2 in Hm. discriminate.
Qed.

Lemma dispatch_start_not_found
    (requests_put : list Request -> Request -> PutOutcome)
    (requests_of : string -> string -> list Request)
    (collection_list : Directory) (collection_to_start_on : string)
    (collection_names : option (list string)) (tr : list Request) :
  (dispatch requests_put requests_of collection_list collection_to_start_on
     collection_names tr
   = (raise (start_not_found (PyStr.strip collection_to_start_on)), tr)
   <-> unresolved collection_list (PyStr.strip collection_to_start_on))
  /\ (forall msg,
        fst (dispatch requests_put requests_of collection_list
               collection_to_start_on collection_names tr)
        = raise (ValueError msg) ->
        unresolved collection_list (PyStr.strip collection_to_start_on)).
Proof.
  unfold dispatch, unresolved. rewrite resolve_start_unfold.
  set (s := PyStr.strip collection_to_start_on).
  rewrite <- start_matches_false.
  pose proof (start_fold_empty collection_list s) as Hempty.
  destruct (start_matches collection_list s) eqn:Hm.
  - assert (Hne : snd (fold_left start_step collection_list (s, [])) <> []).
    { intros H. apply Hempty in H. discriminate. }
    destruct (snd (fold_left start_step collection_list (s, [])))
      as [|c check]; [congruence|].
    assert (Hno : forall msg,
              fst match collection_names with
                  | Some names =>
                      send_all requests_put
                        (flat_map
                           (requests_of
                              (fst (fold_left start_step collection_list (s, []))))
                           names) tr
                  | None => (raise not_iterable, tr)
                  end <> raise (ValueError msg)).
    { intros msg. destruct collection_names as [names|]; [|discriminate].
      destruct (send_all_cases requests_put
                  (flat_map
                     (requests_of
                        (fst (fold_left start_step collection_list (s, []))))
                     names) tr)
        as [->|[sent [rq [rest [detail [_ [_ ->]]]]]]]; discriminate. }
    split.
    + split; [|discriminate]. intros H. exfalso.
      apply (Hno (match start_not_found s with ValueError m => m | _ => EmptyString end)).
      destruct collection_names; rewrite H; reflexivity.
    + intros msg H. exfalso. apply (Hno msg).
      destruct collection_names; exact H.
  - rewrite (start_fold_unmatched _ _ Hm). simpl.
    split; [split; reflexivity|].
    intros msg _. apply start_matches_false. exact Hm.
Qed.

(* ----------------------------------------------------------------- *)
(** ** C7: a starting collection that the directory does not hold *)

(** C7.  Both creation methods raise the [ValueError] that names the
    stripped starting collection and the collection-admin requirement exactly
    when the stripped value is neither the id nor the friendly name of an
    item of the directory; they then send no request; and they raise no
    other [ValueError]. *)
Theorem C7_start_collection_not_found
    (endpoint_url : string)
    (requests_put : list Request -> Request -> PutOutcome)
    (listing : list CollectionRecord) (collection_to_start_on : string)
    (collection_names : option (list string)) (api_version : string)
    (tr : list Request) :
  (create_collectiions endpoint_url requests_put listing
     collection_to_start_on collection_names api_version tr
   = (raise (start_not_found (PyStr.strip collection_to_start_on)), tr)
   <-> unresolved (_get_final_collection_names listing)
         (PyStr.strip collection_to_start_on))
  /\ (forall msg,
        fst (create_collectiions endpoint_url requests_put listing
               collection_to_start_on collection_names api_version tr)
        = raise (ValueError msg) ->
        unresolved (_get_final_collection_names listing)
          (PyStr.strip collection_to_start_on))
  /\ (create_collectiions2 endpoint_url requests_put listing
        collection_to_start_on collection_names api_version tr
      = (raise (start_not_found (PyStr.strip collection_to_start_on)), tr)
      <-> unresolved (_get_final_collection_names listing)
            (PyStr.strip collection_to_start_on))
  /\ (forall msg,
        fst (create_collectiions2 endpoint_url requests_put listing
               collection_to_start_on collection_names api_version tr)
        = raise (ValueError msg) ->
        unresolved (_get_final_collection_names listing)
          (PyStr.strip collection_to_start_on)).
Proof.
  rewrite create_collectiions_requests, create_collectiions2_requests.
  cbv zeta.
  destruct (dispatch_start_not_found requests_put
              (fun start => path_requests endpoint_url api_version start
                              (_get_final_collection_names listing))
              (_get_final_collection_names listing) collection_to_start_on
              collection_names tr) as [H1 H2].
  destruct (dispatch_start_not_found requests_put
              (fun start => path_requests2 endpoint_url api_version start
                              (_get_final_collection_names listing))
              (_get_final_collection_names listing) collection_to_start_on
              collection_names tr) as [H3 H4].
  split; [exact H1|]. split; [exact H2|]. split; [exact H3 | exact H4].
Qed.

(* ----------------------------------------------------------------- *)
(** ** C1: a segment that is an id and also another item's friendly name *)

Lemma resolve_one_app (l l' : Directory) (name current : string) :
  resolve_one (l ++ l') name current
  = resolve_one l' name (resolve_one l name current).
Proof.
  unfold resolve_one. apply fold_left_app.
Qed.

Lemma resolve_one_no_match (l : Directory) (name : string) :
  (forall item, In item l -> friendly_match name item = false) ->
  forall current, resolve_one l name current = current.
Proof.
  induction l as [|[coll value] l IH]; intros Hno current; [reflexivity|].
  unfold resolve_one. simpl.
  pose proof (Hno (coll, value) (or_introl eq_refl)) as H.
  unfold friendly_match in H. simpl in H. rewrite H. simpl.
  apply IH. intros item Hin. apply Hno. right. exact Hin.
Qed.

Lemma last_friendly_match (l : Directory) (name : string) :
  (exists item, In item l /\ friendly_match name item = true) ->
  exists before item after,
    l = before ++ item :: after
    /\ friendly_match name item = true
    /\ (forall item', In item' after -> friendly_match name item' = false).
Proof.
  induction l as [|item0 l IH]; intros [item [Hin Hm]]; [destruct Hin|].
  destruct (existsb (friendly_match name) l) eqn:Hex.
  - apply existsb_exists in Hex.
    destruct (IH Hex) as [before [item' [after [-> [Hm' Hafter]]]]].
    exists (item0 :: before), item', after. auto.
  - assert (Hnone : forall item', In item' l -> friendly_match name item' = false).
    { intros item' Hin'. destruct (friendly_match name item') eqn:E; [|reflexivity].
      rewrite <- Hex. symmetry. apply existsb_exists. exists item'. auto. }
    destruct Hin as [->|Hin]; [|rewrite (Hnone item Hin) in Hm; discriminate].
    exists [], item, l. auto.
Qed.

Lemma resolve_one_last_match (before after : Directory) (coll : string)
    (value : DirEntry) (name current : string) :
  PyStr.contains PyStr.space name = false ->
  friendly_match name (coll, value) = true ->
  (forall item', In item' after -> friendly_match name item' = false) ->
  resolve_one (before ++ (coll, value) :: after) name current = coll.
Proof.
  intros Hspace Hm Hafter.
  rewrite resolve_one_app.
  change ((coll, value) :: after) with ([(coll, value)] ++ after).
  rewrite resolve_one_app, (resolve_one_no_match after name Hafter).
  unfold friendly_match in Hm. simpl in Hm.
  unfold resolve_one at 1. simpl. rewrite Hm, Hspace. reflexivity.
Qed.

(** Keys of [collection_dict] are never removed. *)
Lemma collect_body_keeps (start : string) (collection_list : Directory)
    (item : nat * string) (k : string) :
  forall collection_dict,
    In k (Dict.keys collection_dict) ->
    In k (Dict.keys (collect_body start collection_list collection_dict item)).
Proof.
  destruct item as [index name]. unfold collect_body.
  induction collection_list as [|[coll value] collection_list IH];
    intros collection_dict Hin; simpl; [exact Hin|].
  apply IH.
  repeat match goal with
         | |- context [if ?b then _ else _] => destruct b
         end; apply dict_set_keys_in; right; exact Hin.
Qed.

Lemma collect_keeps (start : string) (collection_list : Directory)
    (items : list (nat * string)) (k : string) :
  forall collection_dict,
    In k (Dict.keys collection_dict) ->
    In k (Dict.keys
            (fold_left (collect_body start collection_list) items collection_dict)).
Proof.
  induction items as [|item items IH]; intros collection_dict Hin; simpl;
    [exact Hin|].
  apply IH, collect_body_keeps, Hin.
Qed.

(** A later segment that is the id of one item and the friendly name of
    another puts both ids into [collection_dict]. *)
Lemma collect_body_both (start : string) (collection_list : Directory)
    (index : nat) (name : string) (value : DirEntry) (coll' : string)
    (value' : DirEntry) :
  0 < index ->
  In (name, value) collection_list ->
  In (coll', value') collection_list ->
  friendly_match name (coll', value') = true ->
  forall collection_dict,
    In name (Dict.keys
               (collect_body start collection_list collection_dict (index, name)))
    /\ In coll' (Dict.keys
                   (collect_body start collection_list collection_dict (index, name))).
Proof.
  intros Hindex Hid Hfn Hm.
  assert (Hstep : forall (item : string * DirEntry) l cd,
            collect_body start (item :: l) cd (index, name)
            = collect_body start l
                (collect_body start [item] cd (index, name)) (index, name))
    by (intros [c v] l cd; reflexivity).
  assert (Hone : forall c v cd,
            In (c, v) [(name, value); (coll', value')] ->
            In c (Dict.keys (collect_body start [(c, v)] cd (index, name)))).
  { intros c v cd Hcv. unfold collect_body. simpl.
    destruct (Nat.eqb_spec index 0) as [H0|_]; [lia|]. simpl.
    destruct (Nat.ltb_spec 0 index) as [_|H0]; [|lia].
    rewrite !andb_true_r.
    destruct Hcv as [[= <- <-]|[[= <- <-]|[]]].
    - rewrite String.eqb_refl. simpl. rewrite andb_false_r.
      apply dict_set_keys_in. left. reflexivity.
    - unfold friendly_match in Hm. simpl in Hm. rewrite Hm.
      apply dict_set_keys_in. left. reflexivity. }
  assert (Hall : forall c v,
            In (c, v) [(name, value); (coll', value')] ->
            forall l cd, In (c, v) l ->
              In c (Dict.keys (collect_body start l cd (index, name)))).
  { intros c v Hcv l. induction l as [|item l IH]; intros cd Hin; [destruct Hin|].
    rewrite Hstep. destruct Hin as [->|Hin].
    - apply collect_body_keeps, Hone, Hcv.
    - apply IH, Hin. }
  intros collection_dict. split.
  - apply (Hall name value); [left; reflexivity | exact Hid].
  - apply (Hall coll' value'); [right; left; reflexivity | exact Hfn].
Qed.

Lemma always_ok_never_raises : never_raises always_ok.
Proof.
  intros tr rq. exists 200, "ok". reflexivity.
Qed.

(** The directory of the disambiguation example: "abc123" is an id and the
    friendly name of "fin99".  [create_collectiions] resolves the segment
    "abc123" to "fin99" and sends its request to that collection. *)
Lemma C1_counterexample :
  Dict.get "abc123" (_get_final_collection_names listing_id_vs_name)
  = Some (mkEntry "Finance" 1 (Some "root"))
  /\ Dict.get "fin99" (_get_final_collection_names listing_id_vs_name)
     = Some (mkEntry "abc123" 2 (Some "root"))
  /\ resolve_names (_get_final_collection_names listing_id_vs_name) ["abc123"]
     = ok ["fin99"]
  /\ create_collectiions purview always_ok listing_id_vs_name "root"
       (Some ["abc123"]) api []
     = (ok tt, [put_request purview api "fin99" "root" "abc123"]).
Proof.
  repeat split; reflexivity.
Qed.

(** C1, as the code has it.  In [create_collectiions] the friendly-name
    match wins: a segment without a space that is the friendly name of an
    item with another id resolves to the id of the last such item of the
    directory, also when the segment is itself the id of an item.
    [create_collectiions2] keeps both: for a segment after the first it puts
    the id that equals the segment and the id of the item with that friendly
    name into [collection_dict]. *)
Theorem C1_friendly_name_match_wins
    (collection_list : Directory) (s : string) (value : DirEntry)
    (final_names : list string) (i : nat) (start : string) :
  PyStr.contains PyStr.space s = false ->
  In (s, value) collection_list ->
  (exists coll' value',
     In (coll', value') collection_list
     /\ e_friendlyName value' = s /\ coll' <> s) ->
  nth_error final_names i = Some s ->
  exists before coll' value' after updated_final_names,
    collection_list = before ++ (coll', value') :: after
    /\ e_friendlyName value' = s /\ coll' <> s
    /\ (forall c v, In (c, v) after -> e_friendlyName v = s -> c = s)
    /\ resolve_names collection_list final_names = ok updated_final_names
    /\ nth_error updated_final_names i = Some coll'
    /\ (0 < i ->
        In s (Dict.keys (collect start collection_list final_names))
        /\ In coll' (Dict.keys (collect start collection_list final_names))).
Proof.
  intros Hspace Hid [c0 [v0 [Hin0 [Hfn0 Hne0]]]] Hnth.
  assert (Hex : exists item, In item collection_list /\ friendly_match s item = true).
  { exists (c0, v0). split; [exact Hin0|].
    unfold friendly_match. simpl. rewrite Hfn0, String.eqb_refl.
    apply String.eqb_neq in Hne0. rewrite String.eqb_sym, Hne0. reflexivity. }
  destruct (last_friendly_match collection_list s Hex)
    as [before [[coll' value'] [after [Hsplit [Hm Hafter]]]]].
  pose proof Hm as Hm'. unfold friendly_match in Hm'. simpl in Hm'.
  apply andb_true_iff in Hm'. destruct Hm' as [Hfn Hne].
  apply String.eqb_eq in Hfn. apply negb_true_iff, String.eqb_neq in Hne.
  exists before, coll', value', after,
    (map (fun n => resolve_one collection_list n n) final_names).
  split; [exact Hsplit|]. split; [symmetry; exact Hfn|].
  split; [intros H; apply Hne; symmetry; exact H|].
  split.
  { intros c v Hin Hv. pose proof (Hafter (c, v) Hin) as H.
    unfold friendly_match in H. simpl in H.
    rewrite Hv, String.eqb_refl in H. simpl in H.
    apply negb_false_iff, String.eqb_eq in H. symmetry. exact H. }
  split; [apply resolve_names_ok|]. split.
  - rewrite nth_error_map, Hnth. simpl. f_equal.
    rewrite Hsplit. apply resolve_one_last_match; assumption.
  - intros Hpos. unfold collect, enumerate.
    destruct (nth_error_split final_names i Hnth) as [l1 [l2 [-> Hlen]]].
    assert (Henum : forall (l1 l2 : list string) k,
              enumerate_from k (l1 ++ l2)
              = enumerate_from k l1 ++ enumerate_from (k + length l1) l2).
    { clear. induction l1 as [|a l1 IH]; intros l2 k; simpl.
      - rewrite Nat.add_0_r. reflexivity.
      - rewrite IH. replace (S k + length l1) with (k + S (length l1)) by lia.
        reflexivity. }
    rewrite Henum, fold_left_app. simpl. rewrite Hlen.
    assert (Hin' : In (coll', value') collection_list)
      by (rewrite Hsplit; apply in_elt).
    destruct (collect_body_both start collection_list i s value coll' value'
                Hpos Hid Hin' Hm
                (fold_left (collect_body start collection_list)
                   (enumerate_from 0 l1) [])) as [H1 H2].
    split; apply collect_keeps; assumption.
Qed.

Lemma C1_friendly_name_witness :
  exists before coll' value' after updated_final_names,
    _get_final_collection_names listing_id_vs_name
    = before ++ (coll', value') :: after
    /\ e_friendlyName value' = "abc123" /\ coll' <> "abc123"
    /\ (forall c v, In (c, v) after -> e_friendlyName v = "abc123" -> c = "abc123")
    /\ resolve_names (_get_final_collection_names listing_id_vs_name)
         ["Sales"; "abc123"]
       = ok updated_final_names
    /\ nth_error updated_final_names 1 = Some coll'
    /\ (0 < 1 ->
        In "abc123"
          (Dict.keys (collect "root"
                        (_get_final_collection_names listing_id_vs_name)
                        ["Sales"; "abc123"]))
        /\ In coll'
             (Dict.keys (collect "root"
                           (_get_final_collection_names listing_id_vs_name)
                           ["Sales"; "abc123"]))).
Proof.
  apply (C1_friendly_name_match_wins
           (_get_final_collection_names listing_id_vs_name) "abc123"
           (mkEntry "Finance" 1 (Some "root")) ["Sales"; "abc123"] 1 "root").
  - reflexivity.
  - right. left. reflexivity.
  - exists "fin99", (mkEntry "abc123" 2 (Some "root")).
    split; [right; right; left; reflexivity|].
    split; [reflexivity | discriminate].
  - reflexivity.
Defined.

(* ----------------------------------------------------------------- *)
(** ** C2: segments that name existing collections *)

Lemma split_not_nil (c : ascii) (s : string) : PyStr.split c s <> [].
Proof.
  destruct s as [|d s]; simpl; [discriminate|].
  destruct (Ascii.eqb c d); [discriminate|].
  destruct (PyStr.split c s); discriminate.
Qed.

Lemma final_names_of_not_nil (name : string) : final_names_of name <> [].
Proof.
  unfold final_names_of. destruct (PyStr.contains PyStr.slash name);
    [|discriminate].
  intros H. apply map_eq_nil in H. exact (split_not_nil _ _ H).
Qed.

Lemma path_requests_length (endpoint_url api_version start : string)
    (collection_list : Directory) (name : string) :
  length (path_requests endpoint_url api_version start collection_list name)
  = length (final_names_of name).
Proof.
  unfold path_requests. rewrite length_map, enumerate_from_length, length_map.
  reflexivity.
Qed.

Lemma flat_map_length {A B} (f : A -> list B) (l : list A) :
  length (flat_map f l) = list_sum (map (fun a => length (f a)) l).
Proof.
  induction l as [|a l IH]; simpl; [reflexivity|].
  rewrite length_app, IH. reflexivity.
Qed.

Lemma collect_body_length (start : string) (collection_list : Directory)
    (item : nat * string) :
  forall collection_dict,
    length collection_dict
    <= length (collect_body start collection_list collection_dict item)
    /\ (collection_list <> [] ->
        1 <= length (collect_body start collection_list collection_dict item)).
Proof.
  destruct item as [index name]. unfold collect_body.
  induction collection_list as [|[coll value] collection_list IH];
    intros collection_dict; simpl.
  - split; [lia | congruence].
  - match goal with
    | |- context [fold_left ?f collection_list ?d] =>
        destruct (IH d) as [Hle _];
        assert (Hset : length collection_dict <= length d /\ 1 <= length d)
    end.
    { repeat match goal with
             | |- context [if ?b then _ else _] => destruct b
             end;
        (split; [apply dict_set_length_ge | apply dict_set_length_pos]). }
    split; [lia | intros _; lia].
Qed.

Lemma collect_fold_length (start : string) (collection_list : Directory)
    (items : list (nat * string)) :
  forall collection_dict,
    length collection_dict
    <= length (fold_left (collect_body start collection_list) items
                 collection_dict).
Proof.
  induction items as [|item items IH]; intros collection_dict; simpl; [lia|].
  etransitivity; [|apply IH]. apply collect_body_length.
Qed.

Lemma path_requests2_length (endpoint_url api_version start : string)
    (collection_list : Directory) (name : string) :
  collection_list <> [] ->
  1 <= length (path_requests2 endpoint_url api_version start collection_list name).
Proof.
  intros Hne. unfold path_requests2. cbv zeta.
  rewrite !length_map. unfold enumerate. rewrite enumerate_from_length.
  unfold collect, enumerate.
  destruct (final_names_of name) as [|n rest] eqn:Hfinal;
    [exfalso; exact (final_names_of_not_nil _ Hfinal)|].
  cbn [enumerate_from fold_left]. etransitivity; [|apply collect_fold_length].
  apply (collect_body_length start collection_list (0, n) []). exact Hne.
Qed.

Lemma start_matches_resolved (collection_list : Directory) (s : string) :
  start_matches collection_list (PyStr.strip s) = true ->
  collection_list <> []
  /\ exists c check, snd (resolve_start collection_list s) = c :: check.
Proof.
  intros Hm. split; [intros ->; discriminate|].
  rewrite resolve_start_unfold.
  destruct (snd (fold_left start_step collection_list (PyStr.strip s, [])))
    as [|c check] eqn:E; [|eauto].
  apply start_fold_empty in E. congruence.
Qed.

(** The only segment of the path names the existing collection "fin", and
    each method still sends a request. *)
Lemma C2_counterexample :
  Dict.get "fin" (_get_final_collection_names listing_finance)
  = Some (mkEntry "Finance" 1 (Some "root"))
  /\ resolve_names (_get_final_collection_names listing_finance) ["Finance"]
     = ok ["fin"]
  /\ create_collectiions purview always_ok listing_finance "root"
       (Some ["Finance"]) api []
     = (ok tt, [put_request purview api "fin" "root" "Finance"])
  /\ create_collectiions2 purview always_ok listing_finance "root"
       (Some ["Finance"]) api []
     = (ok tt, [put_request purview api "Finance" "root" "Finance"]).
Proof.
  repeat split; reflexivity.
Qed.

Lemma run_never_raises (m : Method) (endpoint_url : string)
    (requests_put : list Request -> Request -> PutOutcome)
    (listing : list CollectionRecord) (collection_to_start_on : string)
    (names : list string) (api_version : string) (tr : list Request) :
  never_raises requests_put ->
  start_matches (_get_final_collection_names listing)
    (PyStr.strip collection_to_start_on) = true ->
  run m endpoint_url requests_put listing collection_to_start_on
    (Some names) api_version tr
  = (ok tt,
     tr ++ planned m endpoint_url listing collection_to_start_on names
             api_version).
Proof.
  intros Hnever Hm.
  destruct (start_matches_resolved _ _ Hm) as [_ [c [check Hcheck]]].
  unfold planned. cbv zeta.
  destruct m; simpl run;
    [rewrite create_collectiions_requests
    |rewrite create_collectiions2_requests];
    cbv zeta; rewrite Hcheck; apply send_all_never_raises; exact Hnever.
Qed.

Lemma planned_concat (m : Method) (endpoint_url : string)
    (listing : list CollectionRecord) (collection_to_start_on : string)
    (names : list string) (api_version : string) :
  planned m endpoint_url listing collection_to_start_on names api_version
  = concat
      (map (fun name =>
              planned m endpoint_url listing collection_to_start_on [name]
                api_version)
         names).
Proof.
  unfold planned. cbv zeta. rewrite flat_map_concat_map. f_equal.
  apply map_ext. intros name. simpl. rewrite app_nil_r. reflexivity.
Qed.

Lemma planned_path_alone (m : Method) (endpoint_url : string)
    (requests_put : list Request -> Request -> PutOutcome)
    (listing : list CollectionRecord) (collection_to_start_on : string)
    (api_version : string) (names : list string) :
  never_raises requests_put ->
  start_matches (_get_final_collection_names listing)
    (PyStr.strip collection_to_start_on) = true ->
  Forall2
    (path_alone m endpoint_url requests_put listing collection_to_start_on
       api_version)
    names
    (map (fun name =>
            planned m endpoint_url listing collection_to_start_on [name]
              api_version)
       names).
Proof.
  intros Hnever Hm.
  induction names as [|name names IH]; simpl; constructor; [|exact IH].
  split.
  - destruct (start_matches_resolved _ _ Hm) as [Hne _].
    unfold planned. cbv zeta. simpl. rewrite app_nil_r.
    intros Hnil. apply (f_equal (@length Request)) in Hnil. simpl in Hnil.
    destruct m.
    + rewrite path_requests_length in Hnil.
      apply length_zero_iff_nil in Hnil.
      exact (final_names_of_not_nil _ Hnil).
    + pose proof (path_requests2_length endpoint_url api_version
                    (fst (resolve_start (_get_final_collection_names listing)
                            collection_to_start_on))
                    (_get_final_collection_names listing) name Hne).
      lia.
  - intros tr. apply run_never_raises; assumption.
Qed.

Lemma planned_first_lengths (endpoint_url : string)
    (listing : list CollectionRecord) (collection_to_start_on : string)
    (api_version : string) (names : list string) :
  Forall2 (fun name rqs => length rqs = length (final_names_of name)) names
    (map (fun name =>
            planned First endpoint_url listing collection_to_start_on [name]
              api_version)
       names).
Proof.
  induction names as [|name names IH]; simpl; constructor; [|exact IH].
  unfold planned. cbv zeta. simpl. rewrite app_nil_r.
  apply path_requests_length.
Qed.

(** The number of requests of the second method for a path depends on the
    listing: "A/Root" takes two requests while "root" is the only
    collection, and three once "A" is listed as well. *)
Lemma second_method_requests_vary :
  length (snd (create_collectiions2 purview always_ok listing_root "root"
                 (Some ["A/Root"]) api [])) = 2
  /\ length (snd (create_collectiions2 purview always_ok listing_root_a "root"
                    (Some ["A/Root"]) api [])) = 3.
Proof.
  split; reflexivity.
Qed.

(** C2, as the code has it.  Nothing is skipped.  When the starting
    collection resolves and [requests.put] does not raise, either method
    sends, path after path, the requests it sends for each path alone, and
    these are never none, whatever the directory holds; [create_collectiions]
    sends for every path as many requests as the path has segments.  A
    second run with the same paths on a refreshed listing in which the
    starting collection still resolves therefore sends requests again, at
    least one per path, and [create_collectiions] sends as many as in the
    first run. *)
Theorem C2_existing_collections_are_not_skipped
    (endpoint_url : string)
    (requests_put : list Request -> Request -> PutOutcome)
    (listing refreshed : list CollectionRecord)
    (collection_to_start_on : string)
    (names : list string) (api_version : string) (tr : list Request) :
  never_raises requests_put ->
  start_matches (_get_final_collection_names listing)
    (PyStr.strip collection_to_start_on) = true ->
  start_matches (_get_final_collection_names refreshed)
    (PyStr.strip collection_to_start_on) = true ->
  (forall m : Method,
     exists rqss rqss' : list (list Request),
       run m endpoint_url requests_put listing collection_to_start_on
         (Some names) api_version tr
       = (ok tt, tr ++ concat rqss)
       /\ run m endpoint_url requests_put refreshed collection_to_start_on
            (Some names) api_version (tr ++ concat rqss)
          = (ok tt, (tr ++ concat rqss) ++ concat rqss')
       /\ Forall2
            (path_alone m endpoint_url requests_put listing
               collection_to_start_on api_version) names rqss
       /\ Forall2
            (path_alone m endpoint_url requests_put refreshed
               collection_to_start_on api_version) names rqss'
       /\ (m = First ->
           Forall2 (fun name rqs => length rqs = length (final_names_of name))
             names rqss
           /\ Forall2
                (fun name rqs => length rqs = length (final_names_of name))
                names rqss'))
  /\ exists rqs rqs' : list Request,
       create_collectiions endpoint_url requests_put listing
         collection_to_start_on (Some names) api_version tr
       = (ok tt, tr ++ rqs)
       /\ create_collectiions endpoint_url requests_put refreshed
            collection_to_start_on (Some names) api_version (tr ++ rqs)
          = (ok tt, (tr ++ rqs) ++ rqs')
       /\ length rqs = total_segments names
       /\ length rqs' = total_segments names.
Proof.
  intros Hnever Hm Hm'. split.
  - intros m.
    exists (map (fun name =>
                   planned m endpoint_url listing collection_to_start_on
                     [name] api_version) names),
           (map (fun name =>
                   planned m endpoint_url refreshed collection_to_start_on
                     [name] api_version) names).
    rewrite <- !planned_concat.
    split; [apply run_never_raises; assumption|].
    split; [apply run_never_raises; assumption|].
    split; [apply planned_path_alone; assumption|].
    split; [apply planned_path_alone; assumption|].
    intros ->. split; apply planned_first_lengths.
  - exists (planned First endpoint_url listing collection_to_start_on names
              api_version),
           (planned First endpoint_url refreshed collection_to_start_on names
              api_version).
    split; [exact (run_never_raises First _ _ _ _ _ _ _ Hnever Hm)|].
    split; [exact (run_never_raises First _ _ _ _ _ _ _ Hnever Hm')|].
    unfold planned, total_segments. cbv zeta. rewrite !flat_map_length.
    split; f_equal; apply map_ext; intros name; apply path_requests_length.
Qed.

Lemma C2_not_skipped_witness :
  (forall m : Method,
     exists rqss rqss' : list (list Request),
       run m purview always_ok listing_root "root" (Some ["A/Root"]) api []
       = (ok tt, [] ++ concat rqss)
       /\ run m purview always_ok listing_root_a "root" (Some ["A/Root"]) api
            ([] ++ concat rqss)
          = (ok tt, ([] ++ concat rqss) ++ concat rqss')
       /\ Forall2 (path_alone m purview always_ok listing_root "root" api)
            ["A/Root"] rqss
       /\ Forall2 (path_alone m purview always_ok listing_root_a "root" api)
            ["A/Root"] rqss'
       /\ (m = First ->
           Forall2 (fun name rqs => length rqs = length (final_names_of name))
             ["A/Root"] rqss
           /\ Forall2
                (fun name rqs => length rqs = length (final_names_of name))
                ["A/Root"] rqss'))
  /\ exists rqs rqs' : list Request,
       create_collectiions purview always_ok listing_root "root"
         (Some ["A/Root"]) api []
       = (ok tt, [] ++ rqs)
       /\ create_collectiions purview always_ok listing_root_a "root"
            (Some ["A/Root"]) api ([] ++ rqs)
          = (ok tt, ([] ++ rqs) ++ rqs')
       /\ length rqs = total_segments ["A/Root"]
       /\ length rqs' = total_segments ["A/Root"].
Proof.
  apply (C2_existing_collections_are_not_skipped purview always_ok
           listing_root listing_root_a "root" ["A/Root"] api []).
  - exact always_ok_never_raises.
  - reflexivity.
  - reflexivity.
Defined.

(* ----------------------------------------------------------------- *)
(** ** C3: a path of three new segments *)

Lemma split_no_separator (c : ascii) (s : string) :
  PyStr.contains c s = false -> PyStr.split c s = [s].
Proof.
  induction s as [|d s IH]; simpl; [reflexivity|].
  destruct (Ascii.eqb c d); simpl; [discriminate|].
  intros H. rewrite (IH H). reflexivity.
Qed.

Lemma split_at_separator (c : ascii) (a rest : string) :
  PyStr.contains c a = false ->
  PyStr.split c (a ++ String c rest) = a :: PyStr.split c rest.
Proof.
  induction a as [|d a IH]; simpl.
  - rewrite Ascii.eqb_refl. reflexivity.
  - destruct (Ascii.eqb c d); simpl; [discriminate|].
    intros H. rewrite (IH H). reflexivity.
Qed.

Lemma contains_separator (c : ascii) (a rest : string) :
  PyStr.contains c (a ++ String c rest) = true.
Proof.
  induction a as [|d a IH]; simpl.
  - rewrite Ascii.eqb_refl. reflexivity.
  - rewrite IH. apply orb_true_r.
Qed.

Lemma final_names_of_path3 (A B C : string) :
  PyStr.contains PyStr.slash A = false ->
  PyStr.contains PyStr.slash B = false ->
  PyStr.contains PyStr.slash C = false ->
  final_names_of (path3 A B C) = [PyStr.strip A; PyStr.strip B; PyStr.strip C].
Proof.
  intros HA HB HC. unfold final_names_of, path3.
  change ("/" ++ B ++ "/" ++ C)%string
    with (String PyStr.slash (B ++ String PyStr.slash C)).
  rewrite contains_separator, split_at_separator, split_at_separator,
    split_no_separator by assumption.
  reflexivity.
Qed.

Lemma is_new_no_match (collection_list : Directory) (s : string) :
  is_new collection_list s = true ->
  forall item, In item collection_list -> friendly_match s item = false.
Proof.
  intros Hnew [coll value] Hin. unfold is_new in Hnew.
  rewrite forallb_forall in Hnew. specialize (Hnew _ Hin). simpl in Hnew.
  apply andb_true_iff in Hnew. destruct Hnew as [_ Hfn].
  unfold friendly_match. simpl. apply negb_true_iff in Hfn. rewrite Hfn.
  reflexivity.
Qed.

Lemma resolve_one_new (collection_list : Directory) (s : string) :
  is_new collection_list s = true -> resolve_one collection_list s s = s.
Proof.
  intros Hnew. apply resolve_one_no_match, is_new_no_match, Hnew.
Qed.

(** C3, on the code.  For a path "A/B/C" of three new segments,
    [create_collectiions] sends exactly three requests, in the order A, B,
    C.  The first names the resolved starting collection as parent.  The
    second and third name as parent the previous segment as written, not
    the identifier its request was sent to: the two differ when that segment
    holds a space. *)
Theorem C3_three_new_segments
    (endpoint_url : string)
    (requests_put : list Request -> Request -> PutOutcome)
    (listing : list CollectionRecord) (collection_to_start_on : string)
    (A B C : string) (api_version : string) (tr : list Request) :
  PyStr.contains PyStr.slash A = false ->
  PyStr.contains PyStr.slash B = false ->
  PyStr.contains PyStr.slash C = false ->
  never_raises requests_put ->
  start_matches (_get_final_collection_names listing)
    (PyStr.strip collection_to_start_on) = true ->
  is_new (_get_final_collection_names listing) (PyStr.strip A) = true ->
  is_new (_get_final_collection_names listing) (PyStr.strip B) = true ->
  is_new (_get_final_collection_names listing) (PyStr.strip C) = true ->
  create_collectiions endpoint_url requests_put listing collection_to_start_on
    (Some [path3 A B C]) api_version tr
  = (ok tt,
     tr ++ [put_request endpoint_url api_version (working_id (PyStr.strip A))
              (fst (resolve_start (_get_final_collection_names listing)
                      collection_to_start_on))
              (PyStr.strip A);
            put_request endpoint_url api_version (working_id (PyStr.strip B))
              (PyStr.strip A) (PyStr.strip B);
            put_request endpoint_url api_version (working_id (PyStr.strip C))
              (PyStr.strip B) (PyStr.strip C)]).
Proof.
  intros HA HB HC Hnever Hm HnA HnB HnC.
  destruct (start_matches_resolved _ _ Hm) as [_ [c [check Hcheck]]].
  rewrite create_collectiions_requests. cbv zeta.
  rewrite Hcheck, send_all_never_raises by exact Hnever.
  f_equal. f_equal. simpl flat_map. rewrite app_nil_r.
  unfold path_requests. cbv zeta.
  rewrite (final_names_of_path3 A B C HA HB HC). cbn [map enumerate_from].
  rewrite (resolve_one_new _ _ HnA), (resolve_one_new _ _ HnB),
    (resolve_one_new _ _ HnC).
  reflexivity.
Qed.

(** The path "My Coll/B/C": the collection of the first segment is "MyColl",
    and the request for "B" names "My Coll" as its parent. *)
Lemma C3_space_in_parent_witness :
  create_collectiions purview always_ok listing_finance "root"
    (Some [path3 "My Coll" "B" "C"]) api []
  = (ok tt,
     [] ++ [put_request purview api (working_id (PyStr.strip "My Coll"))
              (fst (resolve_start (_get_final_collection_names listing_finance)
                      "root"))
              (PyStr.strip "My Coll");
            put_request purview api (working_id (PyStr.strip "B"))
              (PyStr.strip "My Coll") (PyStr.strip "B");
            put_request purview api (working_id (PyStr.strip "C"))
              (PyStr.strip "B") (PyStr.strip "C")]).
Proof.
  apply (C3_three_new_segments purview always_ok listing_finance "root"
           "My Coll" "B" "C" api []); try reflexivity.
  exact always_ok_never_raises.
Defined.

(** The same run, written out: the first request goes to "MyColl", the
    second gives "My Coll" as [referenceName]; [create_collectiions2] gives
    "MyColl". *)
Lemma C3_space_in_parent_requests :
  map url (snd (create_collectiions purview always_ok listing_finance "root"
                  (Some ["My Coll/B/C"]) api []))
  = ["https://purview/account/collections/MyColl?api-version=2019-11-01-preview";
     "https://purview/account/collections/B?api-version=2019-11-01-preview";
     "https://purview/account/collections/C?api-version=2019-11-01-preview"]
  /\ nth_error (snd (create_collectiions purview always_ok listing_finance "root"
                       (Some ["My Coll/B/C"]) api [])) 1
     = Some (put_request purview api "B" "My Coll" "B")
  /\ nth_error (snd (create_collectiions2 purview always_ok listing_finance "root"
                       (Some ["My Coll/B/C"]) api [])) 1
     = Some (put_request purview api "B" "MyColl" "B").
Proof.
  repeat split; reflexivity.
Qed.

(* ----------------------------------------------------------------- *)
(** ** C8: two new segments with the same working identifier *)

Lemma collect_body_nodup (start : string) (collection_list : Directory)
    (item : nat * string) :
  forall collection_dict,
    NoDup (Dict.keys collection_dict) ->
    NoDup (Dict.keys (collect_body start collection_list collection_dict item)).
Proof.
  destruct item as [index name]. unfold collect_body.
  induction collection_list as [|[coll value] collection_list IH];
    intros collection_dict Hnd; simpl; [exact Hnd|].
  apply IH.
  repeat match goal with
         | |- context [if ?b then _ else _] => destruct b
         end; apply dict_set_keys_nodup; exact Hnd.
Qed.

Lemma collect_nodup (start : string) (collection_list : Directory)
    (final_names : list string) :
  NoDup (Dict.keys (collect start collection_list final_names)).
Proof.
  unfold collect. generalize (enumerate final_names).
  assert (H : forall items collection_dict,
            NoDup (Dict.keys collection_dict) ->
            NoDup (Dict.keys
                     (fold_left (collect_body start collection_list) items
                        collection_dict))).
  { induction items as [|item items IH]; intros collection_dict Hnd; simpl;
      [exact Hnd|].
    apply IH, collect_body_nodup, Hnd. }
  intros items. apply H. constructor.
Qed.

Lemma path_requests2_urls (endpoint_url api_version start : string)
    (collection_list : Directory) (name : string) :
  map url (path_requests2 endpoint_url api_version start collection_list name)
  = map (collection_url endpoint_url api_version)
      (Dict.keys (collect start collection_list (final_names_of name))).
Proof.
  unfold path_requests2, Dict.keys, enumerate. cbv zeta.
  generalize (collect start collection_list (final_names_of name)) at 1 as whole.
  generalize 0.
  induction (collect start collection_list (final_names_of name))
    as [|[key entry] l IH]; intros k whole; simpl; [reflexivity|].
  rewrite IH. f_equal.
  destruct (p_parentCollection entry); reflexivity.
Qed.

Lemma path_requests_nth (endpoint_url api_version start : string)
    (collection_list : Directory) (name : string) (i : nat) (a : string) :
  nth_error (final_names_of name) i = Some a ->
  is_new collection_list a = true ->
  exists parent,
    nth_error (path_requests endpoint_url api_version start collection_list name) i
    = Some (put_request endpoint_url api_version (working_id a) parent a).
Proof.
  intros Hnth Hnew. unfold path_requests. cbv zeta.
  rewrite nth_error_map, nth_error_enumerate_from, nth_error_map, Hnth.
  simpl. rewrite (resolve_one_new _ _ Hnew).
  destruct i as [|i]; simpl.
  - eexists. f_equal. f_equal.
    destruct (final_names_of name); [discriminate|].
    simpl in Hnth. injection Hnth as ->. reflexivity.
  - eexists. reflexivity.
Qed.

(** The two new segments "A B" and "AB" share the working identifier "AB".
    No exception is raised: [create_collectiions] sends two requests to the
    collection "AB", and [create_collectiions2] one, with the data of the
    later segment. *)
Lemma C8_counterexample :
  final_names_of "A B/AB" = ["A B"; "AB"]
  /\ is_new (_get_final_collection_names listing_root) "A B" = true
  /\ is_new (_get_final_collection_names listing_root) "AB" = true
  /\ working_id "A B" = working_id "AB"
  /\ create_collectiions purview always_ok listing_root "root"
       (Some ["A B/AB"]) api []
     = (ok tt, [put_request purview api "AB" "root" "A B";
                put_request purview api "AB" "A B" "AB"])
  /\ create_collectiions2 purview always_ok listing_root "root"
       (Some ["A B/AB"]) api []
     = (ok tt, [put_request purview api "AB" "AB" "AB"]).
Proof.
  repeat split; reflexivity.
Qed.

(** C8, as the code has it.  Neither method checks for two segments with one
    working identifier.  When the starting collection resolves and
    [requests.put] does not raise, both return normally.
    [create_collectiions] sends the requests of both segments to the same
    collection, each with its own friendly name; [create_collectiions2]
    keeps one item of [collection_dict] per identifier, so it sends at most
    one request to it. *)
Theorem C8_duplicate_working_ids_are_not_rejected
    (endpoint_url : string)
    (requests_put : list Request -> Request -> PutOutcome)
    (listing : list CollectionRecord) (collection_to_start_on : string)
    (name : string) (api_version : string) (tr : list Request)
    (i j : nat) (a b : string) :
  never_raises requests_put ->
  start_matches (_get_final_collection_names listing)
    (PyStr.strip collection_to_start_on) = true ->
  i < j ->
  nth_error (final_names_of name) i = Some a ->
  nth_error (final_names_of name) j = Some b ->
  is_new (_get_final_collection_names listing) a = true ->
  is_new (_get_final_collection_names listing) b = true ->
  working_id a = working_id b ->
  exists rqs parent_a parent_b rqs2,
    create_collectiions endpoint_url requests_put listing
      collection_to_start_on (Some [name]) api_version tr
    = (ok tt, tr ++ rqs)
    /\ nth_error rqs i
       = Some (put_request endpoint_url api_version (working_id a) parent_a a)
    /\ nth_error rqs j
       = Some (put_request endpoint_url api_version (working_id a) parent_b b)
    /\ create_collectiions2 endpoint_url requests_put listing
         collection_to_start_on (Some [name]) api_version tr
       = (ok tt, tr ++ rqs2)
    /\ map url rqs2
       = map (collection_url endpoint_url api_version)
           (Dict.keys
              (collect
                 (fst (resolve_start (_get_final_collection_names listing)
                         collection_to_start_on))
                 (_get_final_collection_names listing) (final_names_of name)))
    /\ NoDup
         (Dict.keys
            (collect
               (fst (resolve_start (_get_final_collection_names listing)
                       collection_to_start_on))
               (_get_final_collection_names listing) (final_names_of name))).
Proof.
  intros Hnever Hm Hlt Hi Hj Hna Hnb Hsame.
  destruct (start_matches_resolved _ _ Hm) as [_ [c [check Hcheck]]].
  rewrite create_collectiions_requests, create_collectiions2_requests.
  cbv zeta. rewrite Hcheck, !send_all_never_raises by exact Hnever.
  simpl flat_map. rewrite !app_nil_r.
  destruct (path_requests_nth endpoint_url api_version
              (fst (resolve_start (_get_final_collection_names listing)
                      collection_to_start_on))
              (_get_final_collection_names listing) name i a Hi Hna)
    as [parent_a Ha].
  destruct (path_requests_nth endpoint_url api_version
              (fst (resolve_start (_get_final_collection_names listing)
                      collection_to_start_on))
              (_get_final_collection_names listing) name j b Hj Hnb)
    as [parent_b Hb].
  eexists. exists parent_a, parent_b. eexists.
  split; [reflexivity|]. split; [exact Ha|].
  split; [rewrite Hsame; exact Hb|].
  split; [reflexivity|].
  split; [apply path_requests2_urls | apply collect_nodup].
Qed.

Lemma C8_duplicate_working_ids_witness :
  exists rqs parent_a parent_b rqs2,
    create_collectiions purview always_ok listing_root "root"
      (Some ["A B/AB"]) api []
    = (ok tt, [] ++ rqs)
    /\ nth_error rqs 0
       = Some (put_request purview api (working_id "A B") parent_a "A B")
    /\ nth_error rqs 1
       = Some (put_request purview api (working_id "A B") parent_b "AB")
    /\ create_collectiions2 purview always_ok listing_root "root"
         (Some ["A B/AB"]) api []
       = (ok tt, [] ++ rqs2)
    /\ map url rqs2
       = map (collection_url purview api)
           (Dict.keys
              (collect
                 (fst (resolve_start (_get_final_collection_names listing_root)
                         "root"))
                 (_get_final_collection_names listing_root)
                 (final_names_of "A B/AB")))
    /\ NoDup
         (Dict.keys
            (collect
               (fst (resolve_start (_get_final_collection_names listing_root)
                       "root"))
               (_get_final_collection_names listing_root)
               (final_names_of "A B/AB"))).
Proof.
  apply (C8_duplicate_working_ids_are_not_rejected purview always_ok
           listing_root "root" "A B/AB" api [] 0 1 "A B" "AB");
    try reflexivity.
  - exact always_ok_never_raises.
  - lia.
Defined.

(* ----------------------------------------------------------------- *)
(** ** C9: a request that fails *)

Lemma send_all_stops (requests_put : list Request -> Request -> PutOutcome)
    (sent : list Request) (rq : Request) (rest : list Request)
    (detail : string) :
  forall tr,
    all_answered requests_put tr sent ->
    requests_put (tr ++ sent) rq = Raises detail ->
    send_all requests_put (sent ++ rq :: rest) tr
    = (raise (TransportError detail), tr ++ sent ++ [rq]).
Proof.
  induction sent as [|a sent IH]; intros tr Hans Hraise.
  - rewrite app_nil_r in Hraise. simpl. rewrite Hraise. reflexivity.
  - destruct Hans as [[status [content Ha]] Hans]. simpl. rewrite Ha.
    rewrite (IH (tr ++ [a])).
    + rewrite <- app_assoc. reflexivity.
    + exact Hans.
    + rewrite <- app_assoc. exact Hraise.
Qed.

(** A request answered with status 500 does not stop the method: the
    request of the next segment is sent and the method returns normally.
    When [requests.put] raises, the exception that surfaces is the
    transport's, the same whichever segment failed. *)
Lemma C9_counterexample :
  create_collectiions purview always_500 listing_root "root"
    (Some ["A/B"]) api []
  = (ok tt, [put_request purview api "A" "root" "A";
             put_request purview api "B" "A" "B"])
  /\ create_collectiions2 purview always_500 listing_root "root"
       (Some ["A/B"]) api []
     = (ok tt, [put_request purview api "A" "root" "A";
                put_request purview api "B" "A" "B"])
  /\ create_collectiions purview always_refused listing_root "root"
       (Some ["A/B"]) api []
     = (raise (TransportError "connection refused"),
        [put_request purview api "A" "root" "A"])
  /\ create_collectiions purview always_refused listing_root "root"
       (Some ["X/Y"]) api []
     = (raise (TransportError "connection refused"),
        [put_request purview api "X" "root" "X"]).
Proof.
  repeat split; reflexivity.
Qed.

(** C9, as the code has it.  Let the starting collection resolve, and let
    [requests.put] answer the first requests a method has to send and raise
    on the next one.  Then the method raises the exception of the transport
    as it is, and the request it raised on is the last one sent: no request
    of a later segment or of a later path follows, and the requests sent
    before it stay sent. *)
Theorem C9_transport_exception_stops_the_method
    (m : Method) (endpoint_url : string)
    (requests_put : list Request -> Request -> PutOutcome)
    (listing : list CollectionRecord) (collection_to_start_on : string)
    (names : list string) (api_version : string) (tr : list Request)
    (sent : list Request) (rq : Request) (rest : list Request)
    (detail : string) :
  start_matches (_get_final_collection_names listing)
    (PyStr.strip collection_to_start_on) = true ->
  planned m endpoint_url listing collection_to_start_on names api_version
  = sent ++ rq :: rest ->
  all_answered requests_put tr sent ->
  requests_put (tr ++ sent) rq = Raises detail ->
  run m endpoint_url requests_put listing collection_to_start_on
    (Some names) api_version tr
  = (raise (TransportError detail), tr ++ sent ++ [rq]).
Proof.
  intros Hm Hplan Hans Hraise.
  destruct (start_matches_resolved _ _ Hm) as [_ [c [check Hcheck]]].
  unfold planned in Hplan. cbv zeta in Hplan.
  destruct m; simpl run;
    [rewrite create_collectiions_requests
    |rewrite create_collectiions2_requests];
    cbv zeta; rewrite Hcheck, Hplan;
    apply send_all_stops; assumption.
Qed.

Lemma C9_transport_exception_witness :
  run First purview refuses_second listing_root "root" (Some ["A/B/C"]) api []
  = (raise (TransportError "connection refused"),
     [] ++ [put_request purview api "A" "root" "A"]
        ++ [put_request purview api "B" "A" "B"]).
Proof.
  apply (C9_transport_exception_stops_the_method First purview refuses_second
           listing_root "root" ["A/B/C"] api []
           [put_request purview api "A" "root" "A"]
           (put_request purview api "B" "A" "B")
           [put_request purview api "C" "B" "C"]
           "connection refused").
  - reflexivity.
  - reflexivity.
  - simpl. split; [exists 200, "ok"; reflexivity | exact I].
  - reflexivity.
Defined.

(* ================================================================= *)
(** * Further properties *)

(** ** The directory as a dict *)

Lemma dict_get_set_same {V} (k : string) (v : V) (d : Dict.t V) :
  Dict.get k (Dict.set k v d) = Some v.
Proof.
  induction d as [|[k' v'] d IH]; simpl.
  - rewrite String.eqb_refl. reflexivity.
  - destruct (String.eqb_spec k k') as [->|Hne]; simpl.
    + rewrite String.eqb_refl. reflexivity.
    + apply String.eqb_neq in Hne. rewrite Hne. exact IH.
Qed.

Lemma dict_get_set_other {V} (k k' : string) (v : V) (d : Dict.t V) :
  k <> k' -> Dict.get k' (Dict.set k v d) = Dict.get k' d.
Proof.
  intros Hne. induction d as [|[k0 v0] d IH]; simpl.
  - apply not_eq_sym, String.eqb_neq in Hne. rewrite Hne. reflexivity.
  - destruct (String.eqb_spec k k0) as [->|Hne0]; simpl.
    + apply not_eq_sym, String.eqb_neq in Hne. rewrite Hne. reflexivity.
    + rewrite IH. reflexivity.
Qed.

Lemma dict_set_fresh {V} (k : string) (v : V) (d : Dict.t V) :
  ~ In k (Dict.keys d) -> Dict.set k v d = d ++ [(k, v)].
Proof.
  induction d as [|[k' v'] d IH]; simpl; intros Hnot; [reflexivity|].
  destruct (String.eqb_spec k k') as [->|Hne].
  - exfalso. apply Hnot. left. reflexivity.
  - rewrite IH; [reflexivity|]. intros Hin. apply Hnot. right. exact Hin.
Qed.

Lemma dict_get_none {V} (k : string) (d : Dict.t V) :
  ~ In k (Dict.keys d) -> Dict.get k d = None.
Proof.
  induction d as [|[k' v'] d IH]; simpl; intros Hnot; [reflexivity|].
  destruct (String.eqb_spec k k') as [->|Hne].
  - exfalso. apply Hnot. left. reflexivity.
  - apply IH. intros Hin. apply Hnot. right. exact Hin.
Qed.

Lemma directory_fold_get_kept (listing : list CollectionRecord) (k : string) :
  ~ In k (map name listing) ->
  forall s (d : Directory),
    Dict.get k (fold_left directory_step (enumerate_from s listing) d)
    = Dict.get k d.
Proof.
  induction listing as [|coll listing IH]; intros Hnot s d; simpl;
    [reflexivity|].
  rewrite IH by (intros Hin; apply Hnot; right; exact Hin).
  apply dict_get_set_other. intros Heq. apply Hnot. left. exact Heq.
Qed.

Lemma directory_fold_get_last (listing : list CollectionRecord) :
  forall i r s (d : Directory),
    nth_error listing i = Some r ->
    (forall j r', i < j -> nth_error listing j = Some r' -> name r' <> name r) ->
    Dict.get (name r) (fold_left directory_step (enumerate_from s listing) d)
    = Some (mkEntry (friendlyName r) (s + i) (parentCollection r)).
Proof.
  induction listing as [|coll listing IH]; intros i r s d Hnth Hlast;
    [destruct i; discriminate|].
  destruct i as [|i]; simpl in Hnth |- *.
  - injection Hnth as ->. rewrite directory_fold_get_kept.
    + rewrite Nat.add_0_r. apply dict_get_set_same.
    + intros Hin. apply in_map_iff in Hin. destruct Hin as [r' [Hname Hin]].
      apply In_nth_error in Hin. destruct Hin as [j Hj].
      apply (Hlast (S j) r'); [lia | exact Hj | exact Hname].
  - rewrite (IH i r (S s)); [f_equal; f_equal; lia | exact Hnth |].
    intros j r' Hlt Hj. apply (Hlast (S j) r'); [lia | exact Hj].
Qed.

(** X1.  Looking a "name" up in the directory gives the friendly name and
    the parent of the last record of the listing with that name, with the
    position of that record as index. *)
Theorem X1_directory_lookup_last_record
    (listing : list CollectionRecord) (i : nat) (r : CollectionRecord) :
  nth_error listing i = Some r ->
  (forall j r', i < j -> nth_error listing j = Some r' -> name r' <> name r) ->
  Dict.get (name r) (_get_final_collection_names listing)
  = Some (mkEntry (friendlyName r) i (parentCollection r)).
Proof.
  intros Hnth Hlast. rewrite get_final_collection_names_unfold.
  exact (directory_fold_get_last listing i r 0 [] Hnth Hlast).
Qed.

Lemma X1_directory_lookup_witness :
  Dict.get "a" (_get_final_collection_names listing_two_levels)
  = Some (mkEntry "A2" 3 (Some "r")).
Proof.
  apply (X1_directory_lookup_last_record listing_two_levels 3
           (mkRecord "a" "A2" (Some "r"))).
  - reflexivity.
  - intros j r' Hlt Hj. assert (Hnone : nth_error listing_two_levels j = None)
      by (apply nth_error_None; simpl; lia).
    congruence.
Defined.

Lemma directory_fold_distinct (listing : list CollectionRecord) :
  forall s (d : Directory),
    NoDup (Dict.keys d ++ map name listing) ->
    fold_left directory_step (enumerate_from s listing) d
    = d ++ map entry_of (enumerate_from s listing).
Proof.
  induction listing as [|coll listing IH]; intros s d Hnd; simpl.
  - rewrite app_nil_r. reflexivity.
  - assert (Hfresh : ~ In (name coll) (Dict.keys d)).
    { intros Hin. apply NoDup_remove_2 in Hnd. apply Hnd.
      apply in_or_app. left. exact Hin. }
    rewrite (dict_set_fresh _ _ _ Hfresh), IH.
    + rewrite <- app_assoc. reflexivity.
    + unfold Dict.keys. rewrite map_app. simpl. rewrite <- app_assoc.
      exact Hnd.
Qed.

(** X2.  When no "name" occurs twice in the listing, the directory holds
    the records in the order of the listing, each with its position as
    index. *)
Theorem X2_directory_of_distinct_names (listing : list CollectionRecord) :
  NoDup (map name listing) ->
  _get_final_collection_names listing = map entry_of (enumerate listing).
Proof.
  intros Hnd. rewrite get_final_collection_names_unfold.
  exact (directory_fold_distinct listing 0 [] Hnd).
Qed.

Lemma X2_directory_of_distinct_names_witness :
  _get_final_collection_names listing_id_vs_name
  = map entry_of (enumerate listing_id_vs_name).
Proof.
  apply (X2_directory_of_distinct_names listing_id_vs_name).
  repeat constructor; simpl; intuition discriminate.
Defined.

(** X3.  The ids of the directory are pairwise distinct, they are the
    "name" fields of the listing, and a string that is no "name" of the
    listing is not found. *)
Theorem X3_directory_keys (listing : list CollectionRecord) :
  NoDup (Dict.keys (_get_final_collection_names listing))
  /\ (forall x, In x (Dict.keys (_get_final_collection_names listing))
                <-> In x (map name listing))
  /\ length (_get_final_collection_names listing) = distinct_ids listing
  /\ (forall x, ~ In x (map name listing) ->
                Dict.get x (_get_final_collection_names listing) = None).
Proof.
  destruct (directory_keys listing) as [Hnd Hin].
  split; [exact Hnd|]. split; [exact Hin|].
  split; [apply directory_length|].
  intros x Hnot. apply dict_get_none. intros H. apply Hnot, Hin, H.
Qed.

(** ** The shape of the tree [_hierarchy] draws *)

Lemma forall_flat_map {A B} (P : B -> Prop) (f : A -> list B) (l : list A) :
  Forall P (flat_map f l) <-> Forall (fun a => Forall P (f a)) l.
Proof.
  induction l as [|a l IH]; simpl.
  - split; constructor.
  - rewrite Forall_app, IH. split.
    + intros [H1 H2]. constructor; assumption.
    + intros H. inversion H; subst. split; assumption.
Qed.

Lemma map_fixed {A} (f : A -> A) (l : list A) :
  Forall (fun a => f a = a) l -> map f l = l.
Proof.
  induction 1 as [|a l Ha _ IH]; simpl; congruence.
Qed.

(** Attaching below a node that the tree does not hold changes nothing. *)
Lemma attach_absent (p : nat) (new t : AnyTree.Tree) :
  Forall (fun i => i <> p) (tree_ids t) -> AnyTree.attach p new t = t.
Proof.
  induction t as [i l cs IH] using Tree_nested_ind.
  simpl. intros Hids. inversion Hids as [|? ? Hi Hcs]; subst.
  apply forall_flat_map in Hcs.
  apply Nat.eqb_neq in Hi. rewrite Hi, app_nil_r. f_equal.
  apply map_fixed. clear Hids Hi.
  induction IH as [|c cs Hc _ IHcs]; [constructor|].
  inversion Hcs; subst. constructor; auto.
Qed.

Lemma chain_ids (c : list (nat * string)) :
  flat_map tree_ids (chain c) = map fst c.
Proof.
  induction c as [|[i l] c IH]; simpl; [reflexivity|].
  rewrite app_nil_r, IH. reflexivity.
Qed.

Lemma chain_labels (c : list (nat * string)) :
  flat_map tree_labels (chain c) = map snd c.
Proof.
  induction c as [|[i l] c IH]; simpl; [reflexivity|].
  rewrite app_nil_r, IH. reflexivity.
Qed.

Lemma chain_depths (c : list (nat * string)) :
  forall d, flat_map (tree_depths d) (chain c) = seq d (length c).
Proof.
  induction c as [|[i l] c IH]; intros d; simpl; [reflexivity|].
  rewrite app_nil_r, IH. reflexivity.
Qed.

(** Attaching below the last node of a chain makes the chain one longer. *)
Lemma chain_attach (c0 : list (nat * string)) (p : nat) (l : string)
    (k : nat) (lk : string) :
  Forall (fun x => fst x <> p) c0 ->
  map (AnyTree.attach p (AnyTree.T k lk [])) (chain (c0 ++ [(p, l)]))
  = chain ((c0 ++ [(p, l)]) ++ [(k, lk)]).
Proof.
  induction 1 as [|[i li] c0 Hi _ IH]; simpl.
  - rewrite Nat.eqb_refl. reflexivity.
  - simpl in Hi. apply Nat.eqb_neq in Hi. rewrite Hi, app_nil_r, IH.
    reflexivity.
Qed.

Lemma shape_inv_first : shape_inv 1 [] [].
Proof.
  split; [constructor|]. left. auto.
Qed.

Lemma forall_weaken_ids (k : nat) (l : list nat) :
  Forall (fun i => 1 <= i < k - 1) l -> Forall (fun i => 1 <= i < S k - 1) l.
Proof.
  apply Forall_impl. intros i Hi. cbv beta in *. lia.
Qed.

(** One step of the loop, on the tree: the node goes below the root or
    below the last node of the current chain. *)
Lemma shape_step_attach (first : string) (l0 : string) (k : nat)
    (coll : string) (value : DirEntry) (done : list AnyTree.Tree)
    (c : list (nat * string)) :
  shape_inv k done c ->
  let '(done', c') := shape_step first (done, c) (k, (coll, value)) in
  attach_step (AnyTree.T 0 l0 (done ++ chain c))
    (k, node_for first (k, (coll, value)))
  = AnyTree.T 0 l0 (done' ++ chain c')
  /\ shape_inv (S k) done' c'.
Proof.
  intros [Hdone Hc]. unfold shape_step, attach_step, node_for, under_root.
  assert (Hk : k <> 0) by (destruct Hc as [[-> _]|[Hk _]]; lia).
  apply Nat.eqb_neq in Hk. rewrite Hk. cbn [AnyTree.n_parent AnyTree.n_name].
  assert (Hroot : map (AnyTree.attach 0
                         (AnyTree.T k (e_friendlyName value) []))
                    (done ++ chain c)
                  = done ++ chain c).
  { apply map_fixed, Forall_app. split.
    - eapply Forall_impl; [|exact Hdone]. intros t Ht.
      apply attach_absent. eapply Forall_impl; [|exact Ht].
      intros i Hi. cbv beta in *. lia.
    - destruct Hc as [[_ [-> _]]|[Hk2 [c0 [l [-> Hc0]]]]]; [constructor|].
      assert (Hids : Forall (fun i => i <> 0)
                       (flat_map tree_ids (chain (c0 ++ [(k - 1, l)])))).
      { rewrite chain_ids, map_app. apply Forall_app. split.
        - apply Forall_map. eapply Forall_impl; [|exact Hc0].
          intros x Hx. cbv beta in *. lia.
        - constructor; [simpl; lia | constructor]. }
      apply forall_flat_map in Hids.
      eapply Forall_impl; [|exact Hids]. intros t Ht.
      apply attach_absent. exact Ht. }
  assert (Hall : Forall (fun t => Forall (fun i => 1 <= i < S k - 1) (tree_ids t))
                   (done ++ chain c)).
  { apply Forall_app. split.
    - eapply Forall_impl; [|exact Hdone]. intros t. apply forall_weaken_ids.
    - destruct Hc as [[_ [-> _]]|[Hk2 [c0 [l [-> Hc0]]]]]; [constructor|].
      apply forall_flat_map. rewrite chain_ids, map_app.
      apply Forall_app. split.
      + apply Forall_map. eapply Forall_impl; [|exact Hc0].
        intros x Hx. cbv beta in *. lia.
      + constructor; [simpl; lia | constructor]. }
  destruct (option_string_eqb (e_parentCollection value) (Some first)).
  - split.
    + cbn [AnyTree.attach]. rewrite Hroot. reflexivity.
    + split; [exact Hall|]. right. split.
      * apply Nat.eqb_neq in Hk. lia.
      * exists [], (e_friendlyName value). split; [|constructor].
        simpl. replace (k - 0) with k by lia. reflexivity.
  - destruct Hc as [[-> [-> ->]]|[Hk2 [c0 [l [-> Hc0]]]]].
    + split; [reflexivity|]. split; [constructor|]. right.
      split; [lia|]. exists [], (e_friendlyName value).
      split; [reflexivity | constructor].
    + split.
      * cbn [AnyTree.attach].
        destruct (Nat.eqb_spec 0 (k - 1)) as [H0|_]; [lia|].
        rewrite app_nil_r, map_app, chain_attach.
        -- f_equal. f_equal. apply map_fixed.
           eapply Forall_impl; [|exact Hdone]. intros t Ht.
           apply attach_absent. eapply Forall_impl; [|exact Ht].
           intros i Hi. cbv beta in *. lia.
        -- eapply Forall_impl; [|exact Hc0]. intros x Hx. cbv beta in *. lia.
      * split.
        -- eapply Forall_impl; [|exact Hdone]. intros t.
           apply forall_weaken_ids.
        -- right. split; [lia|].
           exists (c0 ++ [(k - 1, l)]), (e_friendlyName value).
           split; [simpl; replace (k - 0) with k by lia; reflexivity|].
           apply Forall_app. split.
           ++ eapply Forall_impl; [|exact Hc0]. intros x Hx. cbv beta in *. simpl. lia.
           ++ constructor; [simpl; lia | constructor].
Qed.

Lemma shape_fold (first l0 : string) (rest : Directory) :
  forall k done c,
    shape_inv k done c ->
    fold_left attach_step
      (enumerate_from k (map (node_for first) (enumerate_from k rest)))
      (AnyTree.T 0 l0 (done ++ chain c))
    = let '(done', c') :=
        fold_left (shape_step first) (enumerate_from k rest) (done, c) in
      AnyTree.T 0 l0 (done' ++ chain c').
Proof.
  induction rest as [|[coll value] rest IH]; intros k done c Hinv;
    [reflexivity|].
  cbn [enumerate_from map fold_left].
  pose proof (shape_step_attach first l0 k coll value done c Hinv) as Hstep.
  destruct (shape_step first (done, c) (k, (coll, value))) as [done' c'].
  destruct Hstep as [-> Hinv']. apply IH. exact Hinv'.
Qed.

Lemma shape_fold_labels (first : string) (rest : Directory) :
  forall k done c,
    let '(done', c') :=
      fold_left (shape_step first) (enumerate_from k rest) (done, c) in
    flat_map tree_labels (done' ++ chain c')
    = flat_map tree_labels (done ++ chain c)
      ++ map (fun item => e_friendlyName (snd item)) rest.
Proof.
  induction rest as [|[coll value] rest IH]; intros k done c.
  - simpl. rewrite app_nil_r. reflexivity.
  - cbn [enumerate_from fold_left map]. unfold shape_step at 2.
    destruct (under_root first value).
    + specialize (IH (S k) (done ++ chain c) [(k, e_friendlyName value)]).
      destruct (fold_left _ _ _) as [done' c']. rewrite IH.
      rewrite (flat_map_app tree_labels (done ++ chain c)). simpl.
      rewrite <- app_assoc. reflexivity.
    + specialize (IH (S k) done (c ++ [(k, e_friendlyName value)])).
      destruct (fold_left _ _ _) as [done' c']. rewrite IH.
      rewrite !flat_map_app, !chain_labels, map_app, <- !app_assoc.
      reflexivity.
Qed.

Lemma shape_fold_depths (first : string) (rest : Directory) :
  forall k done c,
    let '(done', c') :=
      fold_left (shape_step first) (enumerate_from k rest) (done, c) in
    flat_map (tree_depths 1) (done' ++ chain c')
    = flat_map (tree_depths 1) (done ++ chain c)
      ++ nesting first (length c) rest.
Proof.
  induction rest as [|[coll value] rest IH]; intros k done c.
  - simpl. rewrite app_nil_r. reflexivity.
  - cbn [enumerate_from fold_left nesting]. unfold shape_step at 2.
    destruct (under_root first value).
    + specialize (IH (S k) (done ++ chain c) [(k, e_friendlyName value)]).
      destruct (fold_left _ _ _) as [done' c']. rewrite IH.
      rewrite (flat_map_app (tree_depths 1) (done ++ chain c)). simpl.
      rewrite <- app_assoc. reflexivity.
    + specialize (IH (S k) done (c ++ [(k, e_friendlyName value)])).
      destruct (fold_left _ _ _) as [done' c']. rewrite IH.
      rewrite !flat_map_app, !chain_depths, length_app. simpl length.
      rewrite Nat.add_1_r, seq_S, <- !app_assoc. reflexivity.
Qed.

(** The tree that [_hierarchy] renders, its labels and its depths. *)
Lemma hierarchy_tree_shape (first : string) (v0 : DirEntry) (rest : Directory) :
  tree_labels (AnyTree.tree_of (heap_of ((first, v0) :: rest)) 0)
  = map (fun item => e_friendlyName (snd item)) ((first, v0) :: rest)
  /\ tree_depths 0 (AnyTree.tree_of (heap_of ((first, v0) :: rest)) 0)
     = 0 :: nesting first 0 rest.
Proof.
  rewrite tree_of_unfold. unfold heap_of, enumerate.
  cbn [enumerate_from map fold_left nth node_for attach_step Nat.eqb
       AnyTree.n_parent AnyTree.n_name].
  pose proof (shape_fold first (e_friendlyName v0) rest 1 [] [] shape_inv_first)
    as Hshape.
  pose proof (shape_fold_labels first rest 1 [] []) as Hlabels.
  pose proof (shape_fold_depths first rest 1 [] []) as Hdepths.
  cbn [app chain] in Hshape. rewrite Hshape.
  destruct (fold_left (shape_step first) (enumerate_from 1 rest) ([], []))
    as [done' c'].
  simpl. rewrite Hlabels, Hdepths. split; reflexivity.
Qed.

Lemma string_length_append (s s' : string) :
  String.length (s ++ s') = String.length s + String.length s'.
Proof.
  induction s as [|a s IH]; simpl; [reflexivity | rewrite IH; reflexivity].
Qed.

Lemma concat_pieces_length (l : list string) :
  Forall (fun s => String.length s = 4) l ->
  String.length (String.concat EmptyString l) = 4 * length l.
Proof.
  induction 1 as [|s l Hs Hl IH]; [reflexivity|].
  destruct l as [|s' l].
  - simpl. rewrite Hs. reflexivity.
  - change (String.concat EmptyString (s :: s' :: l))
      with (s ++ String.concat EmptyString (s' :: l))%string.
    rewrite string_length_append, IH, Hs. simpl. lia.
Qed.

Lemma removelast_cons_length {A} (a : A) (l : list A) :
  length (removelast (a :: l)) = length l.
Proof.
  revert a. induction l as [|b l IH]; intros a; [reflexivity|].
  change (removelast (a :: b :: l)) with (a :: removelast (b :: l)).
  cbn [length]. f_equal. apply IH.
Qed.

Lemma row_pre_length (continues : list bool) :
  String.length (AnyTree.row_pre continues) = 4 * length continues.
Proof.
  destruct continues as [|b continues]; [reflexivity|].
  unfold AnyTree.row_pre.
  rewrite string_length_append, concat_pieces_length.
  - rewrite length_map.
    assert (Hlast : String.length
                      (if last (b :: continues) false
                       then AnyTree.cont else AnyTree.end_) = 4)
      by (destruct (last (b :: continues) false); reflexivity).
    rewrite Hlast.
    pose proof (removelast_cons_length b continues) as Hlen.
    rewrite Hlen. simpl length. lia.
  - apply Forall_map, Forall_forall. intros c _. destruct c; reflexivity.
Qed.

(** The rows of [RenderTree]: the labels in preorder, and a prefix of four
    characters per level. *)
Lemma render_rows_labels (t : AnyTree.Tree) :
  forall continues,
    map (fun row => AnyTree.tree_label (snd row))
      (AnyTree.render_rows continues t)
    = tree_labels t.
Proof.
  induction t as [i l cs IH] using Tree_nested_ind.
  intros continues. simpl. f_equal.
  induction IH as [|c cs Hc _ IHcs]; [reflexivity|].
  destruct cs as [|c' cs'].
  - simpl. rewrite Hc, app_nil_r. reflexivity.
  - rewrite map_app, Hc.
    change (flat_map tree_labels (c :: c' :: cs'))
      with (tree_labels c ++ flat_map tree_labels (c' :: cs')).
    f_equal. exact IHcs.
Qed.

Lemma render_rows_prefix_lengths (t : AnyTree.Tree) :
  forall continues,
    map (fun row => String.length (fst row))
      (AnyTree.render_rows continues t)
    = map (fun d => 4 * d) (tree_depths (length continues) t).
Proof.
  induction t as [i l cs IH] using Tree_nested_ind.
  intros continues. cbn [AnyTree.render_rows tree_depths map fst].
  rewrite row_pre_length. f_equal.
  induction IH as [|c cs Hc _ IHcs]; [reflexivity|].
  destruct cs as [|c' cs'].
  - simpl flat_map. rewrite Hc, app_nil_r, length_app, Nat.add_1_r.
    reflexivity.
  - rewrite map_app, Hc, length_app, Nat.add_1_r.
    change (flat_map (tree_depths (S (length continues))) (c :: c' :: cs'))
      with (tree_depths (S (length continues)) c
            ++ flat_map (tree_depths (S (length continues))) (c' :: cs')).
    rewrite map_app. f_equal. exact IHcs.
Qed.

Lemma map_combine_rows {A} (rows : list A) (pre label : A -> string) :
  map (fun row => (pre row ++ label row)%string) rows
  = map (fun '(p, l) => (p ++ l)%string)
      (combine (map pre rows) (map label rows)).
Proof.
  induction rows as [|row rows IH]; simpl; [reflexivity|].
  rewrite IH. reflexivity.
Qed.

(** The lines of [_hierarchy]: prefixes put before the friendly names of
    the directory, in its order. *)
Lemma hierarchy_lines (listing : list CollectionRecord) (first : string)
    (v0 : DirEntry) (rest : Directory) :
  _get_final_collection_names listing = (first, v0) :: rest ->
  hierarchy_ready (_get_final_collection_names listing) = true ->
  exists pres,
    _hierarchy listing
    = ok (map (fun '(p, l) => (p ++ l)%string)
            (combine pres
               (map (fun item => e_friendlyName (snd item))
                  ((first, v0) :: rest))))
    /\ map String.length pres
       = map (fun d => 4 * d) (0 :: nesting first 0 rest).
Proof.
  intros Hdir Hready.
  destruct (hierarchy_result listing Hready) as [_ Hlines].
  rewrite Hdir in Hlines.
  destruct (hierarchy_tree_shape first v0 rest) as [Hlabels Hdepths].
  exists (map fst (AnyTree.RenderTree (heap_of ((first, v0) :: rest)) 0)).
  split.
  - rewrite Hlines. unfold AnyTree.RenderTree.
    rewrite <- Hlabels, <- (render_rows_labels _ []).
    rewrite <- map_combine_rows. f_equal. apply map_ext.
    intros [pre node]. reflexivity.
  - rewrite map_map. unfold AnyTree.RenderTree.
    rewrite (render_rows_prefix_lengths _ []). simpl length.
    rewrite Hdepths. reflexivity.
Qed.

(** X4.  When the directory's second item names the first as its parent,
    [_hierarchy] prints one line per item of the directory, in the order of
    the directory; each line is a prefix followed by the friendly name of
    its item, and the first line is the bare friendly name of the first
    item. *)
Theorem X4_hierarchy_lines_follow_the_directory
    (listing : list CollectionRecord) :
  hierarchy_ready (_get_final_collection_names listing) = true ->
  exists pres,
    _hierarchy listing
    = ok (map (fun '(p, l) => (p ++ l)%string)
            (combine pres
               (map (fun item => e_friendlyName (snd item))
                  (_get_final_collection_names listing))))
    /\ length pres = length (_get_final_collection_names listing)
    /\ hd_error pres = Some EmptyString.
Proof.
  intros Hready.
  destruct (_get_final_collection_names listing) as [|[first v0] rest] eqn:Hdir;
    [discriminate|].
  rewrite <- Hdir in Hready.
  destruct (hierarchy_lines listing first v0 rest Hdir Hready)
    as [pres [Hlines Hlen]].
  exists pres. split; [exact Hlines|].
  assert (Hl : length (map String.length pres)
               = length (map (fun d => 4 * d) (0 :: nesting first 0 rest)))
    by (rewrite Hlen; reflexivity).
  rewrite !length_map in Hl. split.
  - rewrite Hl. simpl. f_equal. clear.
    generalize 0. induction rest as [|[c v] rest IH]; intros p; simpl;
      [reflexivity | rewrite IH; reflexivity].
  - destruct pres as [|p pres]; [discriminate|].
    simpl in Hlen. injection Hlen as Hp _.
    destruct p; [reflexivity | discriminate].
Qed.

Lemma X4_hierarchy_lines_witness :
  exists pres,
    _hierarchy rec_siblings_below_a
    = ok (map (fun '(p, l) => (p ++ l)%string)
            (combine pres
               (map (fun item => e_friendlyName (snd item))
                  (_get_final_collection_names rec_siblings_below_a))))
    /\ length pres = length (_get_final_collection_names rec_siblings_below_a)
    /\ hd_error pres = Some EmptyString.
Proof.
  apply (X4_hierarchy_lines_follow_the_directory rec_siblings_below_a).
  reflexivity.
Defined.

(** X5.  [_hierarchy] indents by four characters per level; an item whose
    parent is the first item of the directory is drawn at level 1, and every
    other item one level below the line before it, whatever parent it
    names. *)
Theorem X5_hierarchy_nesting
    (listing : list CollectionRecord) (first : string) (v0 : DirEntry)
    (rest : Directory) :
  _get_final_collection_names listing = (first, v0) :: rest ->
  hierarchy_ready (_get_final_collection_names listing) = true ->
  exists pres,
    _hierarchy listing
    = ok (map (fun '(p, l) => (p ++ l)%string)
            (combine pres
               (map (fun item => e_friendlyName (snd item))
                  ((first, v0) :: rest))))
    /\ map String.length pres
       = map (fun d => 4 * d) (0 :: nesting first 0 rest).
Proof.
  exact (hierarchy_lines listing first v0 rest).
Qed.

Lemma X5_hierarchy_nesting_witness :
  exists pres,
    _hierarchy rec_siblings_below_a
    = ok (map (fun '(p, l) => (p ++ l)%string)
            (combine pres ["Root"; "A"; "A1"; "A2"; "B"]))
    /\ map String.length pres = [0; 4; 8; 12; 4].
Proof.
  apply (X5_hierarchy_nesting rec_siblings_below_a "r" (mkEntry "Root" 0 None)
           [("a", mkEntry "A" 1 (Some "r")); ("a1", mkEntry "A1" 2 (Some "a"));
            ("a2", mkEntry "A2" 3 (Some "a")); ("b", mkEntry "B" 4 (Some "r"))]);
    reflexivity.
Defined.

(** ** The starting collection *)

Lemma start_fold_in_keys (keys : list string) (l : Directory) :
  (forall n v, In (n, v) l -> In n keys) ->
  forall s check,
    (check = [] \/ (last check EmptyString = s /\ Forall (fun k => In k keys) check)) ->
    let r := fold_left start_step l (s, check) in
    snd r = []
    \/ (last (snd r) EmptyString = fst r
        /\ Forall (fun k => In k keys) (snd r)).
Proof.
  induction l as [|[n v] l IH]; intros Hkeys s check Hinv; [exact Hinv|].
  cbn [fold_left start_step].
  assert (Hl : forall n' v', In (n', v') l -> In n' keys)
    by (intros n' v' H; apply (Hkeys n' v'); right; exact H).
  destruct (String.eqb s (e_friendlyName v) || String.eqb s n).
  - apply IH; [exact Hl|]. right. split.
    + apply last_last.
    + apply Forall_app. split.
      * destruct Hinv as [->|[_ H]]; [constructor | exact H].
      * constructor; [|constructor]. apply (Hkeys n v). left. reflexivity.
  - apply IH; assumption.
Qed.

(** X6.  When the starting collection resolves, the name that
    [collection_to_start_on] ends with is an id of the directory: the last
    id appended to [collection_to_start_on_check], all of whose elements are
    ids of the directory. *)
Theorem X6_resolved_start_is_a_directory_id
    (collection_list : Directory) (collection_to_start_on : string) :
  start_matches collection_list (PyStr.strip collection_to_start_on) = true ->
  In (fst (resolve_start collection_list collection_to_start_on))
    (Dict.keys collection_list)
  /\ last (snd (resolve_start collection_list collection_to_start_on))
       EmptyString
     = fst (resolve_start collection_list collection_to_start_on)
  /\ Forall (fun k => In k (Dict.keys collection_list))
       (snd (resolve_start collection_list collection_to_start_on)).
Proof.
  intros Hm. destruct (start_matches_resolved _ _ Hm) as [_ [c [check Hcheck]]].
  rewrite resolve_start_unfold in *.
  destruct (start_fold_in_keys (Dict.keys collection_list) collection_list)
    with (s := PyStr.strip collection_to_start_on) (check := @nil string)
    as [Hnil|[Hlast Hall]].
  - intros n v Hin. apply in_map_iff. exists (n, v). split; [reflexivity|exact Hin].
  - left. reflexivity.
  - congruence.
  - split; [|split; assumption].
    rewrite <- Hlast. rewrite Hcheck in *.
    apply (proj1 (Forall_forall _ _) Hall).
    destruct (@exists_last _ (c :: check)) as [l' [a Heq]]; [discriminate|].
    rewrite Heq, last_last. apply in_or_app. right. left. reflexivity.
Qed.

Lemma X6_resolved_start_witness :
  In (fst (resolve_start (_get_final_collection_names listing_id_vs_name)
             " Finance "))
    (Dict.keys (_get_final_collection_names listing_id_vs_name))
  /\ last (snd (resolve_start (_get_final_collection_names listing_id_vs_name)
                  " Finance "))
       EmptyString
     = fst (resolve_start (_get_final_collection_names listing_id_vs_name)
              " Finance ")
  /\ Forall (fun k => In k (Dict.keys
                              (_get_final_collection_names listing_id_vs_name)))
       (snd (resolve_start (_get_final_collection_names listing_id_vs_name)
               " Finance ")).
Proof.
  apply (X6_resolved_start_is_a_directory_id
           (_get_final_collection_names listing_id_vs_name) " Finance ").
  reflexivity.
Defined.

(** ** Paths, one after the other *)

(** X7.  Both methods treat the paths of [collection_names] one after the
    other and independently: running a method on two lists of paths in a row
    is running it on the first list and, when that does not raise, on the
    second list with the same listing. *)
Theorem X7_paths_are_independent
    (m : Method) (endpoint_url : string)
    (requests_put : list Request -> Request -> PutOutcome)
    (listing : list CollectionRecord) (collection_to_start_on : string)
    (names1 names2 : list string) (api_version : string) (tr : list Request) :
  run m endpoint_url requests_put listing collection_to_start_on
    (Some (names1 ++ names2)) api_version tr
  = match run m endpoint_url requests_put listing collection_to_start_on
            (Some names1) api_version tr with
    | (inl e, tr') => (inl e, tr')
    | (inr _, tr') =>
        run m endpoint_url requests_put listing collection_to_start_on
          (Some names2) api_version tr'
    end.
Proof.
  destruct m; simpl run;
    rewrite ?create_collectiions_requests, ?create_collectiions2_requests;
    cbv zeta;
    (destruct (snd (resolve_start (_get_final_collection_names listing)
                      collection_to_start_on)) as [|c check] eqn:Hcheck;
     [reflexivity|]);
    rewrite flat_map_app, send_all_app;
    match goal with
    | |- context [send_all requests_put ?rqs tr] =>
        destruct (send_all requests_put rqs tr) as [[e|[]] tr']
    end;
    rewrite ?create_collectiions_requests, ?create_collectiions2_requests;
    cbv zeta; rewrite ?Hcheck; reflexivity.
Qed.

(** X8.  Called without [collection_names], both methods raise: the
    [ValueError] of an unresolved starting collection if it does not
    resolve, and otherwise a [TypeError], since [None] is not iterable; no
    request is sent either way. *)
Theorem X8_no_collection_names
    (m : Method) (endpoint_url : string)
    (requests_put : list Request -> Request -> PutOutcome)
    (listing : list CollectionRecord) (collection_to_start_on : string)
    (api_version : string) (tr : list Request) :
  run m endpoint_url requests_put listing collection_to_start_on None
    api_version tr
  = (raise
       (if start_matches (_get_final_collection_names listing)
             (PyStr.strip collection_to_start_on)
        then not_iterable
        else start_not_found (PyStr.strip collection_to_start_on)),
     tr).
Proof.
  destruct m; simpl run;
    rewrite ?create_collectiions_requests, ?create_collectiions2_requests;
    cbv zeta;
    (destruct (start_matches (_get_final_collection_names listing)
                 (PyStr.strip collection_to_start_on)) eqn:Hm;
     [destruct (start_matches_resolved _ _ Hm) as [_ [c [check ->]]];
      reflexivity
     |rewrite resolve_start_unfold, (start_fold_unmatched _ _ Hm);
      reflexivity]).
Qed.

(** ** The requests of [create_collectiions] *)

Lemma remove_contains (c : ascii) (s : string) :
  PyStr.contains c (PyStr.remove c s) = false.
Proof.
  induction s as [|d s IH]; simpl; [reflexivity|].
  destruct (Ascii.eqb c d) eqn:E; [exact IH|].
  simpl. rewrite E, IH. reflexivity.
Qed.

Lemma working_id_no_space (name : string) :
  PyStr.contains PyStr.space (working_id name) = false.
Proof.
  unfold working_id.
  destruct (PyStr.contains PyStr.space name) eqn:E;
    [apply remove_contains | exact E].
Qed.

Lemma path_requests_identifiers (endpoint_url api_version start : string)
    (collection_list : Directory) (names : list string) :
  Forall
    (fun rq =>
       exists identifier,
         url rq = collection_url endpoint_url api_version identifier
         /\ PyStr.contains PyStr.space identifier = false)
    (flat_map (path_requests endpoint_url api_version start collection_list)
       names).
Proof.
  apply Forall_forall. intros rq Hin.
  apply in_flat_map in Hin. destruct Hin as [name [_ Hin]].
  unfold path_requests in Hin. cbv zeta in Hin.
  apply in_map_iff in Hin. destruct Hin as [[index u] [<- _]].
  exists (working_id u). split; [|apply working_id_no_space].
  unfold issue_request. destruct (Nat.eqb index 1); reflexivity.
Qed.

Lemma send_all_sends_a_prefix
    (requests_put : list Request -> Request -> PutOutcome)
    (rqs : list Request) (tr : list Request) :
  exists sent rest,
    rqs = sent ++ rest /\ snd (send_all requests_put rqs tr) = tr ++ sent.
Proof.
  destruct (send_all_cases requests_put rqs tr)
    as [Hok|[sent [rq [rest [detail [-> [_ Hrun]]]]]]].
  - exists rqs, []. rewrite app_nil_r, Hok. split; reflexivity.
  - exists (sent ++ [rq]), rest. rewrite Hrun, <- !app_assoc.
    split; reflexivity.
Qed.

(** X9.  Whatever [requests.put] does and whatever the arguments are, every
    request that a call of [create_collectiions] sends goes to the URL of a
    collection identifier without a space. *)
Theorem X9_identifiers_without_spaces
    (endpoint_url : string)
    (requests_put : list Request -> Request -> PutOutcome)
    (listing : list CollectionRecord) (collection_to_start_on : string)
    (collection_names : option (list string)) (api_version : string)
    (tr : list Request) :
  exists sent,
    snd (create_collectiions endpoint_url requests_put listing
           collection_to_start_on collection_names api_version tr)
    = tr ++ sent
    /\ Forall
         (fun rq =>
            exists identifier,
              url rq = collection_url endpoint_url api_version identifier
              /\ PyStr.contains PyStr.space identifier = false)
         sent.
Proof.
  rewrite create_collectiions_requests. cbv zeta.
  destruct (snd (resolve_start (_get_final_collection_names listing)
                   collection_to_start_on)) as [|c check].
  - exists []. rewrite app_nil_r. split; [reflexivity | constructor].
  - destruct collection_names as [names|].
    + destruct (send_all_sends_a_prefix requests_put
                  (flat_map
                     (path_requests endpoint_url api_version
                        (fst (resolve_start
                                (_get_final_collection_names listing)
                                collection_to_start_on))
                        (_get_final_collection_names listing)) names) tr)
        as [sent [rest [Hsplit Htr]]].
      exists sent. split; [exact Htr|].
      pose proof (path_requests_identifiers endpoint_url api_version
                    (fst (resolve_start (_get_final_collection_names listing)
                            collection_to_start_on))
                    (_get_final_collection_names listing) names) as Hall.
      rewrite Hsplit in Hall. apply Forall_app in Hall. exact (proj1 Hall).
    + exists []. rewrite app_nil_r. split; [reflexivity | constructor].
Qed.

Lemma split_length (c : ascii) (s : string) :
  length (PyStr.split c s) = S (count_char c s).
Proof.
  induction s as [|d s IH]; simpl; [reflexivity|].
  destruct (Ascii.eqb c d); simpl.
  - rewrite IH. reflexivity.
  - destruct (PyStr.split c s) as [|h t] eqn:E; simpl in *; lia.
Qed.

Lemma contains_count (c : ascii) (s : string) :
  PyStr.contains c s = false -> count_char c s = 0.
Proof.
  induction s as [|d s IH]; simpl; [reflexivity|].
  destruct (Ascii.eqb c d); simpl; [discriminate | exact IH].
Qed.

Lemma final_names_of_length (name : string) :
  length (final_names_of name) = S (count_char PyStr.slash name).
Proof.
  unfold final_names_of.
  destruct (PyStr.contains PyStr.slash name) eqn:E.
  - rewrite length_map. apply split_length.
  - rewrite (contains_count _ _ E). reflexivity.
Qed.

(** X10.  A path has one segment more than it has slashes, empty segments
    included: when the starting collection resolves and [requests.put] does
    not raise, [create_collectiions] sends that many requests for the
    path. *)
Theorem X10_one_request_more_than_slashes
    (endpoint_url : string)
    (requests_put : list Request -> Request -> PutOutcome)
    (listing : list CollectionRecord) (collection_to_start_on : string)
    (name : string) (api_version : string) (tr : list Request) :
  never_raises requests_put ->
  start_matches (_get_final_collection_names listing)
    (PyStr.strip collection_to_start_on) = true ->
  exists rqs,
    create_collectiions endpoint_url requests_put listing
      collection_to_start_on (Some [name]) api_version tr
    = (ok tt, tr ++ rqs)
    /\ length rqs = S (count_char PyStr.slash name).
Proof.
  intros Hnever Hm.
  destruct (start_matches_resolved _ _ Hm) as [_ [c [check Hcheck]]].
  rewrite create_collectiions_requests. cbv zeta.
  rewrite Hcheck, send_all_never_raises by exact Hnever.
  eexists. split; [reflexivity|].
  simpl flat_map. rewrite app_nil_r, path_requests_length.
  apply final_names_of_length.
Qed.

Lemma X10_one_request_more_witness :
  exists rqs,
    create_collectiions purview always_ok listing_finance "root"
      (Some ["A//B/"]) api []
    = (ok tt, [] ++ rqs)
    /\ length rqs = S (count_char PyStr.slash "A//B/").
Proof.
  apply (X10_one_request_more_than_slashes purview always_ok listing_finance
           "root" "A//B/" api []).
  - exact always_ok_never_raises.
  - reflexivity.
Defined.

Lemma issue_requests_chain (endpoint_url api_version start : string)
    (final_names : list string) (rest : list string) :
  forall done u,
    map (issue_request endpoint_url api_version start final_names
           (done ++ u :: rest))
      (enumerate_from (length done + 2) rest)
    = chain_from endpoint_url api_version u rest.
Proof.
  induction rest as [|u' rest IH]; intros done u; [reflexivity|].
  cbn [enumerate_from map chain_from]. f_equal.
  - unfold issue_request.
    destruct (Nat.eqb_spec (length done + 2) 1) as [H|_]; [lia|].
    replace (length done + 2 - 2) with (length done) by lia.
    rewrite app_nth2, Nat.sub_diag by lia. reflexivity.
  - specialize (IH (done ++ [u]) u').
    rewrite <- app_assoc in IH. simpl in IH.
    rewrite length_app in IH. simpl in IH.
    replace (S (length done + 2)) with (length done + 1 + 2) by lia.
    exact IH.
Qed.

(** X11.  The requests of [create_collectiions] for one path, when the
    starting collection resolves and [requests.put] does not raise.  The
    first request names the resolved starting collection as parent and
    carries the first segment as written as friendly name.  Every later
    request names as parent the resolved name of the segment before it, as
    it stands in [updated_final_names], and carries its own resolved name as
    friendly name: the id, when the segment was found by friendly name. *)
Theorem X11_requests_of_a_path
    (endpoint_url : string)
    (requests_put : list Request -> Request -> PutOutcome)
    (listing : list CollectionRecord) (collection_to_start_on : string)
    (name : string) (api_version : string) (tr : list Request)
    (f0 : string) (fs : list string) (u0 : string) (us : list string) :
  never_raises requests_put ->
  start_matches (_get_final_collection_names listing)
    (PyStr.strip collection_to_start_on) = true ->
  final_names_of name = f0 :: fs ->
  resolve_names (_get_final_collection_names listing) (f0 :: fs)
  = ok (u0 :: us) ->
  create_collectiions endpoint_url requests_put listing collection_to_start_on
    (Some [name]) api_version tr
  = (ok tt,
     tr ++ put_request endpoint_url api_version (working_id u0)
             (fst (resolve_start (_get_final_collection_names listing)
                     collection_to_start_on))
             f0
           :: chain_from endpoint_url api_version u0 us).
Proof.
  intros Hnever Hm Hfinal Hresolved.
  destruct (start_matches_resolved _ _ Hm) as [_ [c [check Hcheck]]].
  rewrite create_collectiions_requests. cbv zeta.
  rewrite Hcheck, send_all_never_raises by exact Hnever.
  f_equal. f_equal. simpl flat_map. rewrite app_nil_r.
  unfold path_requests. cbv zeta. rewrite Hfinal.
  rewrite resolve_names_ok in Hresolved. cbn [map] in Hresolved.
  injection Hresolved as Hu0 Hus.
  cbn [map]. rewrite Hu0, Hus. cbn [enumerate_from map]. f_equal.
  exact (issue_requests_chain endpoint_url api_version _ (f0 :: fs) us [] u0).
Qed.

Lemma X11_requests_of_a_path_witness :
  create_collectiions purview always_ok listing_finance "Root"
    (Some ["Root / Finance / New One"]) api []
  = (ok tt,
     [] ++ put_request purview api (working_id "root")
             (fst (resolve_start (_get_final_collection_names listing_finance)
                     "Root"))
             "Root"
           :: chain_from purview api "root" ["fin"; "New One"]).
Proof.
  apply (X11_requests_of_a_path purview always_ok listing_finance "Root"
           "Root / Finance / New One" api [] "Root" ["Finance"; "New One"]
           "root" ["fin"; "New One"]); try reflexivity.
  exact always_ok_never_raises.
Defined.

(** ** The requests of [create_collectiions2] *)

Lemma dict_set_twice {V} (k : string) (v : V) (d : Dict.t V) :
  Dict.set k v (Dict.set k v d) = Dict.set k v d.
Proof.
  induction d as [|[k' v'] d IH]; simpl.
  - rewrite String.eqb_refl. reflexivity.
  - destruct (String.eqb k k') eqn:E; simpl; rewrite E; [reflexivity|].
    rewrite IH. reflexivity.
Qed.

(** For the first segment, and for a later segment that the directory does
    not hold, every turn of the loop over the directory makes the same
    assignment to [collection_dict]. *)
Lemma collect_body_new (start : string) (collection_list : Directory)
    (index : nat) (s : string) :
  collection_list <> [] ->
  index = 0 \/ is_new collection_list s = true ->
  forall collection_dict,
    collect_body start collection_list collection_dict (index, s)
    = Dict.set (working_id s) (snd (new_item start (index, s))) collection_dict.
Proof.
  intros Hne Hnew.
  assert (Hstep : forall coll value cd,
            index = 0
            \/ (negb (String.eqb s coll)
                && negb (String.eqb s (e_friendlyName value)) = true) ->
            collect_body start [(coll, value)] cd (index, s)
            = Dict.set (working_id s) (snd (new_item start (index, s))) cd).
  { intros coll value cd Hcase. unfold collect_body, new_item, working_id.
    cbn [fold_left snd].
    destruct Hcase as [->|Hcase].
    - simpl. destruct (PyStr.contains PyStr.space s); reflexivity.
    - apply andb_true_iff in Hcase. destruct Hcase as [Hc Hf].
      apply negb_true_iff in Hc, Hf. rewrite Hc, Hf.
      destruct (Nat.eqb index 0) eqn:E0.
      + destruct (PyStr.contains PyStr.space s); reflexivity.
      + simpl. apply Nat.eqb_neq in E0.
        destruct (Nat.ltb_spec 0 index) as [_|H0]; [|lia].
        destruct (PyStr.contains PyStr.space s); reflexivity. }
  assert (Hsplit : forall item l cd,
            collect_body start (item :: l) cd (index, s)
            = collect_body start l
                (collect_body start [item] cd (index, s)) (index, s))
    by (intros [c v] l cd; reflexivity).
  assert (Hall : forall l,
            (forall coll value, In (coll, value) l ->
               index = 0
               \/ (negb (String.eqb s coll)
                   && negb (String.eqb s (e_friendlyName value)) = true)) ->
            forall cd,
              collect_body start l
                (Dict.set (working_id s) (snd (new_item start (index, s))) cd)
                (index, s)
              = Dict.set (working_id s) (snd (new_item start (index, s))) cd).
  { induction l as [|[coll value] l IH]; intros Hl cd; [reflexivity|].
    rewrite Hsplit, Hstep, dict_set_twice
      by (apply (Hl coll value); left; reflexivity).
    apply IH. intros c v Hin. apply (Hl c v). right. exact Hin. }
  assert (Hcases : forall coll value, In (coll, value) collection_list ->
            index = 0
            \/ (negb (String.eqb s coll)
                && negb (String.eqb s (e_friendlyName value)) = true)).
  { intros coll value Hin. destruct Hnew as [H0|Hnew]; [left; exact H0|].
    right. unfold is_new in Hnew. rewrite forallb_forall in Hnew.
    exact (Hnew _ Hin). }
  destruct collection_list as [|[coll value] l]; [congruence|].
  intros cd. rewrite Hsplit, Hstep
    by (apply (Hcases coll value); left; reflexivity).
  apply Hall. intros c v Hin. apply (Hcases c v). right. exact Hin.
Qed.

Lemma collect_new_from (start : string) (collection_list : Directory)
    (rest : list string) :
  collection_list <> [] ->
  forall k collection_dict,
    forallb (is_new collection_list) rest = true ->
    NoDup (Dict.keys collection_dict ++ map working_id rest) ->
    fold_left (collect_body start collection_list) (enumerate_from k rest)
      collection_dict
    = collection_dict ++ map (new_item start) (enumerate_from k rest).
Proof.
  intros Hne. induction rest as [|s rest IH]; intros k cd Hnew Hnd.
  - simpl. rewrite app_nil_r. reflexivity.
  - cbn [enumerate_from fold_left map]. simpl in Hnew.
    apply andb_true_iff in Hnew. destruct Hnew as [Hs Hrest].
    rewrite collect_body_new by (auto).
    assert (Hfresh : ~ In (working_id s) (Dict.keys cd)).
    { intros Hin. simpl in Hnd. apply NoDup_remove_2 in Hnd. apply Hnd.
      apply in_or_app. left. exact Hin. }
    rewrite (dict_set_fresh _ _ _ Hfresh), IH.
    + rewrite <- app_assoc. reflexivity.
    + exact Hrest.
    + unfold Dict.keys. rewrite map_app. simpl. rewrite <- app_assoc.
      exact Hnd.
Qed.

Lemma collect_new (start : string) (collection_list : Directory)
    (s0 : string) (rest : list string) :
  collection_list <> [] ->
  forallb (is_new collection_list) rest = true ->
  NoDup (map working_id (s0 :: rest)) ->
  collect start collection_list (s0 :: rest)
  = map (new_item start) (enumerate (s0 :: rest)).
Proof.
  intros Hne Hnew Hnd. unfold collect, enumerate.
  cbn [enumerate_from fold_left map].
  rewrite collect_body_new by (auto).
  rewrite (collect_new_from start collection_list rest Hne 1 _ Hnew);
    [reflexivity | exact Hnd].
Qed.

Lemma enumerate_from_map {A B} (f : nat * A -> B) (l : list A) :
  forall k,
    enumerate_from k (map f (enumerate_from k l))
    = map (fun item => (fst item, f item)) (enumerate_from k l).
Proof.
  induction l as [|a l IH]; intros k; simpl; [reflexivity|].
  rewrite IH. reflexivity.
Qed.

Lemma chained_from (endpoint_url api_version start : string)
    (rest : list string) :
  forall done s,
    map (fun item =>
           (fun '(item0, item1, item2) =>
              put_request endpoint_url api_version item0 item2 item1)
             (really_final_item
                (map (new_item start) (enumerate (done ++ s :: rest)))
                (fst item, new_item start item)))
      (enumerate_from (S (length done)) rest)
    = chained endpoint_url api_version (working_id s) rest.
Proof.
  induction rest as [|s' rest IH]; intros done s; [reflexivity|].
  cbn [enumerate_from map chained]. f_equal.
  - unfold really_final_item, new_item at 2. cbn [fst snd p_parentCollection
      p_friendlyName Nat.eqb].
    unfold previous_index. cbn [Nat.eqb].
    replace (S (length done) - 1) with (length done) by lia.
    assert (Hnth : nth (length done)
                     (map (new_item start) (enumerate (done ++ s :: s' :: rest)))
                     no_path_item
                   = new_item start (length done, s)).
    { apply nth_error_nth. unfold enumerate.
      rewrite nth_error_map, nth_error_enumerate_from, nth_error_app2,
        Nat.sub_diag by lia.
      reflexivity. }
    rewrite Hnth. reflexivity.
  - specialize (IH (done ++ [s]) s').
    rewrite <- app_assoc, length_app in IH. simpl in IH.
    rewrite Nat.add_1_r in IH. exact IH.
Qed.

(** X12.  [create_collectiions2] takes the first segment as it is written,
    without looking it up in the directory.  When the later segments are not
    in the directory and no two segments share a working identifier, it
    sends one request per segment, in order: the first names the resolved
    starting collection as parent, every later one the identifier of the
    request before it. *)
Theorem X12_second_method_chains_by_identifier
    (endpoint_url : string)
    (requests_put : list Request -> Request -> PutOutcome)
    (listing : list CollectionRecord) (collection_to_start_on : string)
    (name : string) (api_version : string) (tr : list Request)
    (s0 : string) (rest : list string) :
  never_raises requests_put ->
  start_matches (_get_final_collection_names listing)
    (PyStr.strip collection_to_start_on) = true ->
  final_names_of name = s0 :: rest ->
  forallb (is_new (_get_final_collection_names listing)) rest = true ->
  NoDup (map working_id (s0 :: rest)) ->
  create_collectiions2 endpoint_url requests_put listing
    collection_to_start_on (Some [name]) api_version tr
  = (ok tt,
     tr ++ chained endpoint_url api_version
             (fst (resolve_start (_get_final_collection_names listing)
                     collection_to_start_on))
             (s0 :: rest)).
Proof.
  intros Hnever Hm Hfinal Hnew Hnd.
  destruct (start_matches_resolved _ _ Hm) as [Hne [c [check Hcheck]]].
  rewrite create_collectiions2_requests. cbv zeta.
  rewrite Hcheck, send_all_never_raises by exact Hnever.
  f_equal. f_equal. simpl flat_map. rewrite app_nil_r.
  unfold path_requests2. cbv zeta. rewrite Hfinal.
  rewrite (collect_new _ _ s0 rest Hne Hnew Hnd).
  rewrite map_map. unfold enumerate.
  rewrite enumerate_from_map, map_map.
  cbn [enumerate_from map chained]. f_equal.
  exact (chained_from endpoint_url api_version _ rest [] s0).
Qed.

Lemma X12_second_method_witness :
  create_collectiions2 purview always_ok listing_finance "root"
    (Some ["Finance/My Coll/B"]) api []
  = (ok tt,
     [] ++ chained purview api
             (fst (resolve_start (_get_final_collection_names listing_finance)
                     "root"))
             ["Finance"; "My Coll"; "B"]).
Proof.
  apply (X12_second_method_chains_by_identifier purview always_ok
           listing_finance "root" "Finance/My Coll/B" api []
           "Finance" ["My Coll"; "B"]); try reflexivity.
  - exact always_ok_never_raises.
  - repeat constructor; simpl; intuition discriminate.
Defined.

(* ================================================================= *)
(** ** Paging through the listing *)

Section ListingProperties.

Variable Item : Type.
Variable HttpResponse : Type.
Variable endpoint_url : string.
Variable requests_get : list string -> string -> GetOutcome HttpResponse.
Variable _handle_response : HttpResponse -> presult (Results Item).

(** After the pages served, the generator goes on as from the link of the
    last page. *)
Lemma generator_after_pages (pages : list (string * list Item)) :
  forall fuel tr first after,
    serves requests_get _handle_response tr first pages after ->
    _list_collections_generator requests_get _handle_response
      (length pages + fuel) first tr
    = let '(later, ending, tr') :=
        _list_collections_generator requests_get _handle_response fuel after
          (tr ++ map fst pages) in
      (concat (map snd pages) ++ later, ending, tr').
Proof.
  induction pages as [|[endpoint values] pages IH];
    intros fuel tr first after Hserves.
  - simpl in Hserves. subst first. simpl. rewrite app_nil_r.
    destruct (_list_collections_generator _ _ fuel after tr) as [[later e] tr'].
    reflexivity.
  - destruct Hserves as [-> [Hne [response [next [Hget [Hhandle Hrest]]]]]].
    cbn [length Nat.add _list_collections_generator].
    rewrite Hget, Hhandle. cbn [r_value r_nextLink].
    destruct (Nat.eqb_spec (length values) 0) as [H0|_].
    + destruct values; [congruence | discriminate].
    + rewrite (IH fuel _ _ _ Hrest). cbn [map fst snd concat].
      rewrite <- app_assoc. cbn [app].
      destruct (_list_collections_generator _ _ fuel after
                  (tr ++ endpoint :: map fst pages)) as [[later e] tr'].
      rewrite <- app_assoc. reflexivity.
Qed.

Lemma generator_at_none (fuel : nat) (tr : list string) :
  0 < fuel ->
  _list_collections_generator requests_get _handle_response fuel None tr
  = ([], Returned, tr).
Proof.
  destruct fuel; [lia | reflexivity].
Qed.

Lemma generator_at_error (fuel : nat) (tr : list string) (endpoint : string)
    (e : pyexn) :
  0 < fuel ->
  page_error requests_get _handle_response tr endpoint = Some e ->
  _list_collections_generator requests_get _handle_response fuel
    (Some endpoint) tr
  = ([], Raised e, tr ++ [endpoint]).
Proof.
  destruct fuel; [lia|]. intros _. unfold page_error. simpl.
  destruct (requests_get tr endpoint) as [response|detail].
  - destruct (_handle_response response) as [e'|results].
    + intros [= ->]. reflexivity.
    + destruct (r_value results); [discriminate|]. intros [= <-]. reflexivity.
  - intros [= <-]. reflexivity.
Qed.

End ListingProperties.

(** X13.  When the server answers the address of [list_collections] with
    non-empty pages linked by "nextLink", the last one without a link, the
    generator yields the values of the pages in order and returns, having
    requested each page once, in order. *)
Theorem X13_list_collections_yields_all_pages
    (Item HttpResponse : Type) (endpoint_url : string)
    (requests_get : list string -> string -> GetOutcome HttpResponse)
    (_handle_response : HttpResponse -> presult (Results Item))
    (api_version : string) (skipToken : option string) (tr : list string)
    (pages : list (string * list Item)) (fuel : nat) :
  serves requests_get _handle_response tr
    (Some (collections_endpoint endpoint_url api_version skipToken))
    pages None ->
  length pages < fuel ->
  list_collections endpoint_url requests_get _handle_response fuel
    api_version skipToken tr
  = (concat (map snd pages), Returned, tr ++ map fst pages).
Proof.
  intros Hserves Hfuel. unfold list_collections.
  replace fuel with (length pages + (fuel - length pages)) by lia.
  rewrite (generator_after_pages Item HttpResponse requests_get
             _handle_response pages _ _ _ _ Hserves).
  rewrite generator_at_none by lia. rewrite app_nil_r. reflexivity.
Qed.

Lemma X13_list_collections_witness :
  list_collections purview two_pages_get two_pages_handle 5 api None []
  = (concat (map snd [("https://purview/collections?api-version=2019-11-01-preview",
                       ["root"; "fin"]);
                      ("https://purview/page2", ["hr"])]),
     Returned,
     [] ++ map fst [("https://purview/collections?api-version=2019-11-01-preview",
                     ["root"; "fin"]);
                    ("https://purview/page2", ["hr"])]).
Proof.
  apply (X13_list_collections_yields_all_pages string nat purview two_pages_get
           two_pages_handle api None []).
  - simpl. split; [reflexivity|]. split; [discriminate|].
    exists 1, (Some "https://purview/page2").
    split; [reflexivity|]. split; [reflexivity|].
    split; [reflexivity|]. split; [discriminate|].
    exists 2, None. repeat split; reflexivity.
  - simpl. lia.
Defined.

(** X14.  An empty page ends the listing: after the pages served, a result
    whose "value" is empty makes the generator return, and the "nextLink" of
    that result is not requested. *)
Theorem X14_empty_page_ends_the_listing
    (Item HttpResponse : Type)
    (requests_get : list string -> string -> GetOutcome HttpResponse)
    (_handle_response : HttpResponse -> presult (Results Item))
    (tr : list string) (first : option string)
    (pages : list (string * list Item)) (endpoint : string)
    (response : HttpResponse) (next : option string) (fuel : nat) :
  serves requests_get _handle_response tr first pages (Some endpoint) ->
  requests_get (tr ++ map fst pages) endpoint = Got response ->
  _handle_response response = inr (mkResults (Some []) next) ->
  length pages < fuel ->
  _list_collections_generator requests_get _handle_response fuel first tr
  = (concat (map snd pages), Returned, (tr ++ map fst pages) ++ [endpoint]).
Proof.
  intros Hserves Hget Hhandle Hfuel.
  replace fuel with (length pages + S (fuel - length pages - 1)) by lia.
  rewrite (generator_after_pages Item HttpResponse requests_get
             _handle_response pages _ _ _ _ Hserves).
  simpl. rewrite Hget, Hhandle. simpl. rewrite app_nil_r. reflexivity.
Qed.

Lemma X14_empty_page_witness :
  _list_collections_generator two_pages_get two_pages_handle 3
    (Some "https://purview/empty") []
  = (concat (map snd (@nil (string * list string))), Returned,
     ([] ++ map fst (@nil (string * list string))) ++ ["https://purview/empty"]).
Proof.
  apply (X14_empty_page_ends_the_listing string nat two_pages_get
           two_pages_handle [] (Some "https://purview/empty") []
           "https://purview/empty" 3
           (Some "https://purview/collections?api-version=2019-11-01-preview"));
    try reflexivity.
  simpl. lia.
Defined.

(** X15.  When requesting a page fails, by an exception of [requests.get]
    or of [_handle_response] or by a result without "value", the generator
    first yields the values of the pages before it and then raises that
    exception; no further page is requested. *)
Theorem X15_listing_stops_at_a_failing_page
    (Item HttpResponse : Type)
    (requests_get : list string -> string -> GetOutcome HttpResponse)
    (_handle_response : HttpResponse -> presult (Results Item))
    (tr : list string) (first : option string)
    (pages : list (string * list Item)) (endpoint : string)
    (e : pyexn) (fuel : nat) :
  serves requests_get _handle_response tr first pages (Some endpoint) ->
  page_error requests_get _handle_response (tr ++ map fst pages) endpoint
  = Some e ->
  length pages < fuel ->
  _list_collections_generator requests_get _handle_response fuel first tr
  = (concat (map snd pages), Raised e, (tr ++ map fst pages) ++ [endpoint]).
Proof.
  intros Hserves Herror Hfuel.
  replace fuel with (length pages + (fuel - length pages)) by lia.
  rewrite (generator_after_pages Item HttpResponse requests_get
             _handle_response pages _ _ _ _ Hserves).
  rewrite (generator_at_error Item HttpResponse requests_get _handle_response
             _ _ _ e) by (lia || exact Herror).
  rewrite app_nil_r. reflexivity.
Qed.

Lemma X15_listing_stops_witness :
  _list_collections_generator failing_get failing_handle 4
    (Some "https://purview/a") []
  = (concat (map snd [("https://purview/a", ["root"])]),
     Raised (HandleResponseError "500"),
     ([] ++ map fst [("https://purview/a", ["root"])]) ++ ["https://purview/b"]).
Proof.
  apply (X15_listing_stops_at_a_failing_page string nat failing_get
           failing_handle [] (Some "https://purview/a")
           [("https://purview/a", ["root"])] "https://purview/b"
           (HandleResponseError "500") 4).
  - simpl. split; [reflexivity|]. split; [discriminate|].
    exists 1, (Some "https://purview/b"). repeat split; reflexivity.
  - reflexivity.
  - simpl. lia.
Defined.

(* ================================================================= *)
(** ** Preparing and uploading entities *)

Lemma dict_get_existsb {V} (k : string) (d : Dict.t V) :
  existsb (String.eqb k) (map fst d) = true ->
  exists v, Dict.get k d = Some v.
Proof.
  induction d as [|[k' v'] d IH]; simpl; [discriminate|].
  destruct (String.eqb k k'); simpl; [eauto | exact IH].
Qed.

(** X16.  Whenever [_prepare_entity_upload] returns, it returns a dict that
    has the key "entities", and preparing that dict again gives it back
    unchanged. *)
Theorem X16_prepared_payload_has_entities
    (AtlasEntity : Type) (to_json : AtlasEntity -> PyValue AtlasEntity)
    (batch payload : PyValue AtlasEntity) :
  _prepare_entity_upload to_json batch = inr payload ->
  (exists d entities,
     payload = PDict d /\ Dict.get "entities" d = Some entities)
  /\ _prepare_entity_upload to_json payload = inr payload.
Proof.
  destruct batch as [| | | |l|d|x]; unfold _prepare_entity_upload; cbv zeta;
    try discriminate.
  - intros H. injection H as H. subst payload. split; [|reflexivity].
    eexists. eexists. split; reflexivity.
  - cbn [existsb]. rewrite orb_false_r.
    destruct (existsb (String.eqb "entities") (map fst d)) eqn:E; cbn [negb];
      intros H; injection H as H; subst payload.
    + split.
      * destruct (dict_get_existsb _ _ E) as [v Hv]. exists d, v.
        split; [reflexivity | exact Hv].
      * cbn [existsb]. rewrite orb_false_r, E. reflexivity.
    + split; [|reflexivity]. eexists. eexists. split; reflexivity.
  - intros H. injection H as H. subst payload. split; [|reflexivity].
    eexists. eexists. split; reflexivity.
Qed.

Lemma X16_prepared_payload_witness :
  (exists d entities,
     PDict [("entities", PList [number_to_json 7; PDict [("guid", PInt 8)]])]
     = PDict d
     /\ Dict.get "entities" d = Some entities)
  /\ _prepare_entity_upload number_to_json
       (PDict [("entities", PList [number_to_json 7; PDict [("guid", PInt 8)]])])
     = inr (PDict [("entities",
                    PList [number_to_json 7; PDict [("guid", PInt 8)]])]).
Proof.
  apply (X16_prepared_payload_has_entities nat number_to_json
           (PList [PEntity 7; PDict [("guid", PInt 8)]])).
  reflexivity.
Defined.

Section UploadProperties.

Variable AtlasEntity : Type.
Variable HttpResponse : Type.
Variable endpoint_url : string.
Variable requests_post :
  list (Post AtlasEntity) -> Post AtlasEntity -> PostOutcome HttpResponse.
Variable _handle_response : HttpResponse -> presult (PyValue AtlasEntity).

Lemma post_batches_answered (collection api_version : string)
    (xs : list (PyValue AtlasEntity)) :
  forall tr results rs,
    forallb has_len xs = true ->
    answers requests_post _handle_response tr
      (map (bulk_post endpoint_url collection api_version) xs) rs ->
    post_batches requests_post _handle_response
      (endpoint_url ++ "catalog/api/collections/" ++ collection
         ++ "/entity/bulk")%string
      api_version (map (fun x => PDict [("entities", x)]) xs) results tr
    = (inr (results ++ rs),
       tr ++ map (bulk_post endpoint_url collection api_version) xs).
Proof.
  induction xs as [|x xs IH]; intros tr results rs Hlen Hans.
  - destruct rs; [|destruct Hans]. simpl. rewrite !app_nil_r. reflexivity.
  - destruct rs as [|r rs]; [destruct Hans|].
    simpl in Hlen. apply andb_true_iff in Hlen. destruct Hlen as [Hx Hxs].
    destruct Hans as [[response [Hpost Hhandle]] Hrest].
    cbn [map post_batches]. unfold ubind at 1, ulift.
    assert (Hl : exists n,
              pbind (subscript (PDict [("entities", x)]) "entities") py_len
              = inr n).
    { simpl. destruct x; try discriminate; eexists; reflexivity. }
    destruct Hl as [n ->].
    unfold ubind at 1, post_and_handle.
    change (mkPost _ (PDict [("entities", x)]) api_version)
      with (bulk_post endpoint_url collection api_version x).
    rewrite Hpost, Hhandle.
    rewrite (IH _ _ rs Hxs Hrest), <- !app_assoc. reflexivity.
Qed.

Lemma post_batches_failure (collection api_version : string)
    (xs : list (PyValue AtlasEntity)) :
  forall tr results rs x later e,
    forallb has_len (xs ++ [x]) = true ->
    answers requests_post _handle_response tr
      (map (bulk_post endpoint_url collection api_version) xs) rs ->
    post_error requests_post _handle_response
      (tr ++ map (bulk_post endpoint_url collection api_version) xs)
      (bulk_post endpoint_url collection api_version x)
    = Some e ->
    post_batches requests_post _handle_response
      (endpoint_url ++ "catalog/api/collections/" ++ collection
         ++ "/entity/bulk")%string
      api_version (map (fun x => PDict [("entities", x)]) (xs ++ x :: later))
      results tr
    = (inl e,
       tr ++ map (bulk_post endpoint_url collection api_version) (xs ++ [x])).
Proof.
  induction xs as [|x0 xs IH]; intros tr results rs x later e Hlen Hans Herr.
  - simpl in Hlen. rewrite andb_true_r in Hlen.
    cbn [app map post_batches]. unfold ubind at 1, ulift.
    assert (Hl : exists n,
              pbind (subscript (PDict [("entities", x)]) "entities") py_len
              = inr n).
    { simpl. destruct x; try discriminate; eexists; reflexivity. }
    destruct Hl as [n ->].
    unfold ubind at 1, post_and_handle.
    change (mkPost _ (PDict [("entities", x)]) api_version)
      with (bulk_post endpoint_url collection api_version x).
    unfold post_error in Herr. simpl in Herr. rewrite app_nil_r in Herr.
    destruct (requests_post tr (bulk_post endpoint_url collection api_version x))
      as [response|detail].
    + destruct (_handle_response response); [|discriminate].
      injection Herr as ->. reflexivity.
    + injection Herr as <-. reflexivity.
  - destruct rs as [|r rs]; [destruct Hans|].
    simpl in Hlen. apply andb_true_iff in Hlen. destruct Hlen as [Hx Hxs].
    destruct Hans as [[response [Hpost Hhandle]] Hrest].
    cbn [app map post_batches]. unfold ubind at 1, ulift.
    assert (Hl : exists n,
              pbind (subscript (PDict [("entities", x0)]) "entities") py_len
              = inr n).
    { simpl. destruct x0; try discriminate; eexists; reflexivity. }
    destruct Hl as [n ->].
    unfold ubind at 1, post_and_handle.
    change (mkPost _ (PDict [("entities", x0)]) api_version)
      with (bulk_post endpoint_url collection api_version x0).
    rewrite Hpost, Hhandle.
    cbn [map] in Herr.
    change (tr ++ bulk_post endpoint_url collection api_version x0
               :: map (bulk_post endpoint_url collection api_version) xs)
      with (tr ++ [bulk_post endpoint_url collection api_version x0]
               ++ map (bulk_post endpoint_url collection api_version) xs)
      in Herr.
    rewrite app_assoc in Herr.
    rewrite (IH _ _ rs x later e Hxs Hrest Herr), <- !app_assoc. reflexivity.
Qed.

End UploadProperties.

(** X17.  With a [batch_size] other than 0 that is smaller than the number
    of entities, [upload_entities] sends one request per batch that
    [batch_dependent_entities] cuts, in order, each with the batch under the
    key "entities"; when every request is answered and handled, it returns
    the list of the results, one per batch. *)
Theorem X17_upload_in_batches
    (AtlasEntity HttpResponse : Type)
    (to_json : AtlasEntity -> PyValue AtlasEntity) (endpoint_url : string)
    (requests_post :
       list (Post AtlasEntity) -> Post AtlasEntity -> PostOutcome HttpResponse)
    (_handle_response : HttpResponse -> presult (PyValue AtlasEntity))
    (batch_dependent_entities :
       PyValue AtlasEntity -> Z -> list (PyValue AtlasEntity))
    (batch payload entities : PyValue AtlasEntity) (collection : string)
    (size n : Z) (api_version : string) (tr : list (Post AtlasEntity))
    (rs : list (PyValue AtlasEntity)) :
  _prepare_entity_upload to_json batch = inr payload ->
  subscript payload "entities" = inr entities ->
  py_len entities = inr n ->
  size <> 0%Z ->
  (size < n)%Z ->
  forallb has_len (batch_dependent_entities entities size) = true ->
  answers requests_post _handle_response tr
    (map (bulk_post endpoint_url collection api_version)
       (batch_dependent_entities entities size)) rs ->
  upload_entities to_json endpoint_url requests_post _handle_response
    batch_dependent_entities batch collection (Some size) api_version tr
  = (inr (OfBatches rs),
     tr ++ map (bulk_post endpoint_url collection api_version)
             (batch_dependent_entities entities size)).
Proof.
  intros Hprepare Hentities Hn Hsize Hlt Hlen Hans.
  unfold upload_entities. cbv zeta.
  unfold ubind at 1, ulift at 1. rewrite Hprepare.
  unfold ubind at 1, ulift at 1, wants_batches.
  apply Z.eqb_neq in Hsize. rewrite Hsize, Hentities. cbn [pbind].
  rewrite Hn. cbn [pbind].
  apply Z.ltb_lt in Hlt. rewrite Hlt.
  unfold ubind at 1, ulift at 1.
  unfold ubind at 1.
  rewrite (post_batches_answered AtlasEntity HttpResponse endpoint_url
             requests_post _handle_response collection api_version
             _ tr [] rs Hlen Hans).
  reflexivity.
Qed.

Lemma X17_upload_in_batches_witness :
  upload_entities number_to_json purview post_ok handle_status one_by_one
    (PList [PEntity 1; PEntity 2; PEntity 3]) "xcgw8s" (Some 1%Z) api []
  = (inr (OfBatches [PDict [("status", PStr "ok")];
                     PDict [("status", PStr "ok")];
                     PDict [("status", PStr "ok")]]),
     [] ++ map (bulk_post purview "xcgw8s" api)
             (one_by_one
                (PList [number_to_json 1; number_to_json 2; number_to_json 3])
                1%Z)).
Proof.
  apply (X17_upload_in_batches nat nat number_to_json purview post_ok
           handle_status one_by_one
           (PList [PEntity 1; PEntity 2; PEntity 3])
           (PDict [("entities",
                    PList [number_to_json 1; number_to_json 2; number_to_json 3])])
           (PList [number_to_json 1; number_to_json 2; number_to_json 3])
           "xcgw8s" 1%Z 3%Z api []); try reflexivity.
  - discriminate.
  - simpl. repeat split; exists 200; split; reflexivity.
Defined.

(** X18.  When the request of a batch fails, by an exception of
    [requests.post] or of [_handle_response], [upload_entities] raises that
    exception: the batches after it are not sent, and the results of the
    batches before it are not returned. *)
Theorem X18_upload_stops_at_a_failing_batch
    (AtlasEntity HttpResponse : Type)
    (to_json : AtlasEntity -> PyValue AtlasEntity) (endpoint_url : string)
    (requests_post :
       list (Post AtlasEntity) -> Post AtlasEntity -> PostOutcome HttpResponse)
    (_handle_response : HttpResponse -> presult (PyValue AtlasEntity))
    (batch_dependent_entities :
       PyValue AtlasEntity -> Z -> list (PyValue AtlasEntity))
    (batch payload entities : PyValue AtlasEntity) (collection : string)
    (size n : Z) (api_version : string) (tr : list (Post AtlasEntity))
    (xs : list (PyValue AtlasEntity)) (x : PyValue AtlasEntity)
    (later rs : list (PyValue AtlasEntity)) (e : pyexn) :
  _prepare_entity_upload to_json batch = inr payload ->
  subscript payload "entities" = inr entities ->
  py_len entities = inr n ->
  size <> 0%Z ->
  (size < n)%Z ->
  batch_dependent_entities entities size = xs ++ x :: later ->
  forallb has_len (xs ++ [x]) = true ->
  answers requests_post _handle_response tr
    (map (bulk_post endpoint_url collection api_version) xs) rs ->
  post_error requests_post _handle_response
    (tr ++ map (bulk_post endpoint_url collection api_version) xs)
    (bulk_post endpoint_url collection api_version x)
  = Some e ->
  upload_entities to_json endpoint_url requests_post _handle_response
    batch_dependent_entities batch collection (Some size) api_version tr
  = (inl e,
     tr ++ map (bulk_post endpoint_url collection api_version) (xs ++ [x])).
Proof.
  intros Hprepare Hentities Hn Hsize Hlt Hcut Hlen Hans Herr.
  unfold upload_entities. cbv zeta.
  unfold ubind at 1, ulift at 1. rewrite Hprepare.
  unfold ubind at 1, ulift at 1, wants_batches.
  apply Z.eqb_neq in Hsize. rewrite Hsize, Hentities. cbn [pbind].
  rewrite Hn. cbn [pbind].
  apply Z.ltb_lt in Hlt. rewrite Hlt.
  unfold ubind at 1, ulift at 1.
  unfold ubind at 1. rewrite Hcut.
  rewrite (post_batches_failure AtlasEntity HttpResponse endpoint_url
             requests_post _handle_response collection api_version
             xs tr [] rs x later e Hlen Hans Herr).
  reflexivity.
Qed.

Lemma X18_upload_stops_witness :
  upload_entities number_to_json purview post_second_fails handle_status
    one_by_one (PList [PEntity 1; PEntity 2; PEntity 3]) "xcgw8s" (Some 1%Z)
    api []
  = (inl (HandleResponseError "500"),
     [] ++ map (bulk_post purview "xcgw8s" api)
             ([PList [number_to_json 1]] ++ [PList [number_to_json 2]])).
Proof.
  apply (X18_upload_stops_at_a_failing_batch nat nat number_to_json purview
           post_second_fails handle_status one_by_one
           (PList [PEntity 1; PEntity 2; PEntity 3])
           (PDict [("entities",
                    PList [number_to_json 1; number_to_json 2; number_to_json 3])])
           (PList [number_to_json 1; number_to_json 2; number_to_json 3])
           "xcgw8s" 1%Z 3%Z api []
           [PList [number_to_json 1]] (PList [number_to_json 2])
           [PList [number_to_json 3]] [PDict [("status", PStr "ok")]]);
    try reflexivity.
  - discriminate.
  - simpl. split; [|exact I]. exists 200. split; reflexivity.
Defined.
